(** * NexusChain: the ledger, the node runtime and the consensus engines

    A shallow embedding of [blockchain_sim/core] (block.py, transaction.py,
    blockchain.py, node.py, consensus/pbft.py, consensus/poa.py,
    consensus/pos.py) with the properties of its specification.

    Conventions of the embedding.
    - Python objects that are mutated in place become records threaded
      through the functions: a method [m(self, x)] becomes
      [m x self : ret * self'].
    - A Python exception is a value: [result A] is either [Ok a] or
      [Raise e], and [try/except] is a [match] on it.
    - [None] is [None] of [option]; a method that may return [None],
      [True] or [False] returns an [option bool].
    - A [Transaction] object and a transaction dict have the same fields.
      Where the code reads the two differently ([tx["tx_hash"]] raises on
      an object and on a dict without the key, [.get] does not), an entry
      is tagged as object or dict, and a key that may be missing is an
      [option].
    - SHA-256, JSON serialisation and ECDSA are parameters of the
      development: nothing below depends on what they compute.
    - Clock readings ([time.time()]) and the random draw of PoS are inputs
      of the functions that read them. *)

From Stdlib Require Import ZArith QArith Lia.
From stdpp Require Import gmap strings list pretty.

Set Default Proof Using "Type".

Local Open Scope string_scope.
Local Open Scope Z_scope.
Local Open Scope list_scope.

(** ** Python results *)

Inductive exn : Type :=
| IndexError
| AttributeError
| TypeError
| KeyError
| ValueError
| ZeroDivisionError.

Inductive result (A : Type) : Type :=
| Ok (a : A)
| Raise (e : exn).
Arguments Ok {A} a.
Arguments Raise {A} e.

(** ** Transactions and blocks (transaction.py, block.py) *)

(** The sender of a transaction is a node id or the literal ["Network"]. *)
Inductive address : Type :=
| Network_addr
| Node_addr (node_id : Z).

Global Instance address_eq_dec : EqDecision address.
Proof. solve_decision. Defined.

(** The fields of a transaction, as the attributes of a [Transaction]
    object or as the keys of a transaction dict. Timestamps are clock
    readings. [tx_hash] is what [.get("tx_hash")] gives: [None] for a dict
    without that key; an object always has the attribute. *)
Record Transaction : Type := mkTransaction {
  tx_sender : address;
  tx_receiver : address;
  tx_amount : Z;
  tx_timestamp : Z;
  tx_hash : option string;
}.

Global Instance Transaction_eq_dec : EqDecision Transaction.
Proof. solve_decision. Defined.

(** An entry of a block's [transactions] list or of the ledger's
    [pending_transactions]: a [Transaction] object, as [create_block] and
    the reward of [mine_pending_transactions] put there, or a dict, as in
    the block dicts that [create_block] returns. *)
Inductive tx_value : Type :=
| tx_object (t : Transaction)
| tx_dict (t : Transaction).

Global Instance tx_value_eq_dec : EqDecision tx_value.
Proof. solve_decision. Defined.

Definition tx_fields (v : tx_value) : Transaction :=
  match v with tx_object t => t | tx_dict t => t end.

(** [tx.__dict__ if hasattr(tx, "__dict__") else tx]. *)
Definition tx_as_dict (v : tx_value) : tx_value := tx_dict (tx_fields v).

(** [tx["tx_hash"]]: a [Transaction] object is not subscriptable, and a
    dict without the key raises. *)
Definition tx_hash_item (v : tx_value) : result string :=
  match v with
  | tx_object _ => Raise TypeError
  | tx_dict t =>
      match tx_hash t with Some h => Ok h | None => Raise KeyError end
  end.

(** A block, as an object or as the dict [block.__dict__]. *)
Record Block : Type := mkBlock {
  index : Z;
  previous_hash : string;
  transactions : list tx_value;
  timestamp : Z;
  nonce : Z;
  hash : string;
}.

Global Instance Block_eq_dec : EqDecision Block.
Proof. solve_decision. Defined.

Definition set_hash (h : string) (b : Block) : Block :=
  mkBlock (index b) (previous_hash b) (transactions b) (timestamp b) (nonce b) h.

(** ** The ledger (blockchain.py) *)

Record Blockchain : Type := mkBlockchain {
  chain : list Block;
  pending_transactions : list tx_value;
}.

(** [self.chain[-1]]: an [IndexError] on the empty list. *)
Definition last_block (bc : Blockchain) : result Block :=
  match last (chain bc) with
  | Some b => Ok b
  | None => Raise IndexError
  end.

(** ** The monitoring sink and the network, as the core sees them *)

(** A call on the monitoring object (monitoring.py). [Monitoring.record_message]
    ignores its [bytes_count], latencies are floats: both are left out. *)
Inductive mon_event : Type :=
| record_message (node : Z) (msg_type : string) (sent recv dropped : Z)
| record_block_produced (node : Z) (block_index : Z)
| record_block_committed (node : Z) (block_obj : option Block)
| record_latency (node : Z)
| record_pbft_prepare (node : Z) (block_index : Z) (quorum : bool)
| record_pbft_commit (node : Z) (block_index : Z) (quorum : bool)
| record_sync_event (node : Z) (event_info : string)
| record_fork_event (node : Z) (fork_info : string)
| raise_alert (node : Z) (message : string).

(** A PBFT protocol message, [{type, view, seq, node_id, block, signature}].
    [msg_signature] is what [msg.get("signature")] gives: [None] for a
    message without a signature. *)
Record PbftMsg : Type := mkPbftMsg {
  msg_type : string;
  msg_view : Z;
  msg_seq : Z;
  msg_node_id : Z;
  msg_block : option Block;
  msg_signature : option string;
}.

Global Instance PbftMsg_eq_dec : EqDecision PbftMsg.
Proof. solve_decision. Defined.

(** A PoA or PoS message, [{block, signature, sender_id}]; a key that is
    absent reads as [None]. *)
Record BlockMsg : Type := mkBlockMsg {
  bm_block : option Block;
  bm_signature : option string;
  bm_sender_id : option Z;
}.

(** What a node hands to [Network.broadcast] (or [send_sync_response]);
    the envelope's [sender_id] is the node's own id. *)
Inductive envelope : Type :=
| env_transaction (payload : Transaction)
| env_block (payload : Block)
| env_pbft_message (payload : PbftMsg)
| env_poa_message (payload : BlockMsg)
| env_pos_message (payload : BlockMsg)
| env_sync_request (start_index end_index : Z)
| env_sync_response (target_node_id : Z) (blocks : list Block).

(** ** The node runtime (node.py) *)

(** [monitoring] and [network] are [None] until they are attached; when
    attached they hold the calls made through them, oldest first. *)
Record Node : Type := mkNode {
  node_id : Z;
  blockchain : Blockchain;
  mempool : list Transaction;
  network : option (list envelope);
  monitoring : option (list mon_event);
  public_keys : gmap Z string;
  private_key : string;
  seen_transaction_hashes : gset (option string);
  seen_block_hashes : gset string;
  trade_success_count : Z;
  trade_failure_count : Z;
  trade_confirmation_times : list (string * Z);
  withheld_block : option Block;
}.

(** The state of a PBFT engine (consensus/pbft.py). *)
Record PbftConsensus : Type := mkPbft {
  node : Node;
  total_nodes : Z;
  current_view : Z;
  sequence_number : Z;
  prepared : gmap Z (gset Z);
  committed : gmap Z (gset Z);
  message_log : list PbftMsg;
  received_messages : gmap (Z * string * Z) PbftMsg;
  malicious_nodes : gset Z;
  pbft_monitoring : option (list mon_event);
  round_start_time : option Z;
  last_proposed_index : Z;
}.

(** The state of a PoA engine (consensus/poa.py). *)
Record PoAConsensus : Type := mkPoA {
  poa_node : Node;
  validators : list Z;
  current_leader_index : Z;
  block_time : Z;
  last_block_time : Z;
  poa_malicious_nodes : gset Z;
  poa_received_blocks : gset string;
  poa_monitoring : option (list mon_event);
}.

(** The state of a PoS engine (consensus/pos.py): the validator set with
    the stakes. *)
Record PoSConsensus : Type := mkPoS {
  pos_node : Node;
  validator_set : list Z;
  balances : gmap Z Z;
  total_staked : Z;
  current_validator : option Z;
  pos_malicious_nodes : gset Z;
  pos_received_blocks : gset string;
  pos_monitoring : option (list mon_event);
}.

(** The state of a [MaliciousNode] (node.py): the node it extends, the
    four switches read from [behavior_config], and the replay queue. *)
Record MaliciousNode : Type := mkMalicious {
  base : Node;
  _withholding_enabled : bool;
  send_conflicting_blocks : bool;
  ignore_consensus_messages : bool;
  replay_attack_enabled : bool;
  replay_queue : list Transaction;
}.

(** The registry of identity_management.py. The two dicts are kept as
    association lists in insertion order, which [list_nodes] shows; an
    entry of [node_registry] holds the metadata and the registration
    time. *)
Record IdentityManagement : Type := mkIdentityManagement {
  node_registry : list (Z * (list (string * string) * Z));
  id_public_keys : list (Z * string);
}.

(** ** A sample instance of the parameters

    The development is parametric in the hash, the serialisers and the
    signature scheme. The examples below run it on this small instance:
    the digest of a text is the text itself, a block is serialised as
    [index/nonce/previous_hash], and a signature is the signer's key, which
    verifies under the same key. *)
Module Sample.

Definition sha256 (s : string) : string := s.

Definition dumps_tx (s r : address) (a t : Z) : string :=
  "tx" +:+ pretty a +:+ "@" +:+ pretty t.

Definition dumps_block (i : Z) (prev : string) (txs : list Transaction)
    (t n : Z) : string :=
  pretty i +:+ "/" +:+ pretty n +:+ "/" +:+ prev.

Definition PublicKey : Type := string.

Definition load_public_key (pem : string) : option PublicKey := Some pem.

Definition verify_signature (key : PublicKey) (data signature : string)
  : bool :=
  bool_decide (signature = key).

Definition sign_message (priv data : string) : string := priv.

Definition serialize (b : option Block) : string :=
  match b with Some b => hash b | None => "null" end.

Definition str_block (b : Block) : string := hash b.

(** The genesis block under this instance, two blocks that extend it one
    after the other, a block that extends it under the index [5], and a
    block three heights up. *)
Definition genesis : Block := mkBlock 0 "0" [] 0 0 "0/0/0".
Definition block1 : Block := mkBlock 1 "0/0/0" [] 0 0 "1/0/0/0/0".
Definition block2 : Block := mkBlock 2 "1/0/0/0/0" [] 0 0 "2/0/1/0/0/0/0".
Definition block5 : Block := mkBlock 5 "0/0/0" [] 0 0 "5/0/0/0/0".
Definition block3 : Block :=
  mkBlock 3 "2/0/1/0/0/0/0" [] 0 0 "3/0/2/0/1/0/0/0/0".

Definition ledger : Blockchain := mkBlockchain [genesis] [].

Definition tx : Transaction :=
  mkTransaction (Node_addr 1) (Node_addr 0) 5 7 (Some "tx5@7").

(** The same transfer as a dict without the key [tx_hash], and [block1]
    holding [tx] as a [Transaction] object. *)
Definition tx_unhashed : Transaction :=
  mkTransaction (Node_addr 1) (Node_addr 0) 5 7 None.

Definition block1_objects : Block :=
  mkBlock 1 "0/0/0" [tx_object tx] 0 0 "1/0/0/0/0".

(** A node at genesis that knows the keys of nodes [0..3]. *)
Definition keys : gmap Z string :=
  {[ 0 := "k0"; 1 := "k1"; 2 := "k2"; 3 := "k3" ]}.

Definition node (id : Z) (priv : string) (mem : list Transaction)
    (nw : option (list envelope)) (mo : option (list mon_event)) : Node :=
  mkNode id ledger mem nw mo keys priv ∅ ∅ 0 0 [] None.

(** Node [1] of four, holding the PREPARE votes of [0] and [3] for
    sequence [1]; a PREPARE of node [2] for [block1], and a PRE_PREPARE of
    node [0] for [block3]. *)
Definition engine (nw : option (list envelope)) : PbftConsensus :=
  mkPbft (node 1 "k1" [] nw None) 4 0 0 {[ 1 := {[ 0; 3 ]} ]} ∅ [] ∅ ∅
    None None (-1).

Definition prepare_msg : PbftMsg :=
  mkPbftMsg "PREPARE" 0 1 2 (Some block1) (Some "k2").

Definition pre_prepare_msg : PbftMsg :=
  mkPbftMsg "PRE_PREPARE" 0 1 0 (Some block3) (Some "k0").

(** Node [0] under PoA with validators [0, 1, 2], and the message of
    validator [1] for [block1]. *)
Definition poa : PoAConsensus :=
  mkPoA (node 0 "k0" [] None None) [0; 1; 2] 0 5 0 ∅ ∅ None.

Definition block_msg : BlockMsg :=
  mkBlockMsg (Some block1) (Some "k1") (Some 1).

(** Node [0] under PoS, two validators with a stake of [10] each. *)
Definition pos (mem : list Transaction) (nw : option (list envelope))
  : PoSConsensus :=
  mkPoS (node 0 "k0" mem nw None) [0; 1] {[ 0 := 10; 1 := 10 ]} 20 None
    ∅ ∅ None.

(** A node whose chain is three blocks long, with a network attached. *)
Definition server : Node :=
  mkNode 9 (mkBlockchain [genesis; block1; block2] []) [] (Some []) None keys
    "k9" ∅ ∅ 0 0 [] None.

(** Node [1] of four, holding the COMMIT votes of [0] and [3] for
    sequence [1], and the COMMIT of node [2] for [block1]. *)
Definition commit_engine : PbftConsensus :=
  mkPbft (node 1 "k1" [] (Some []) None) 4 0 0 ∅ {[ 1 := {[ 0; 3 ]} ]} [] ∅ ∅
    None None (-1).

Definition commit_msg : PbftMsg :=
  mkPbftMsg "COMMIT" 0 1 2 (Some block1) (Some "k2").

(** A message signed by a node whose key nobody holds. *)
Definition stranger_msg : PbftMsg :=
  mkPbftMsg "PREPARE" 0 1 9 (Some block1) (Some "k9").

(** The PREPARE of node [2] without its signature, and a second PREPARE
    of node [2] for sequence [1], in another view and without a block. *)
Definition unsigned_msg : PbftMsg :=
  mkPbftMsg "PREPARE" 0 1 2 (Some block1) None.


(** Node [0], the first PoA leader, with a transaction waiting. *)
Definition poa_leader : PoAConsensus :=
  mkPoA (node 0 "k0" [tx] (Some []) None) [0; 1; 2] 0 5 0 ∅ ∅ None.

(** A misbehaving node [3] that sends conflicting blocks and replays
    transactions. *)
Definition malicious : MaliciousNode :=
  mkMalicious (node 3 "k3" [tx] (Some []) None) false true false true [].

End Sample.

Section Core.

(** [hashlib.sha256(s.encode()).hexdigest()]. *)
Variable sha256 : string → string.

(** [json.dumps(tx_dict, sort_keys=True)] of [Transaction.compute_hash]. *)
Variable dumps_tx : address → address → Z → Z → string.

(** [json.dumps(block_data, sort_keys=True, default=str)] of
    [Block.compute_hash]: every field of the block but [hash], the
    timestamps stringified. *)
Variable dumps_block : Z → string → list Transaction → Z → Z → string.

(** [Transaction.compute_hash]. *)
Definition tx_compute_hash (s r : address) (a t : Z) : string :=
  sha256 (dumps_tx s r a t).

(** [Transaction.__init__]: [timestamp or time.time()], so that a missing
    or zero timestamp is replaced by the clock reading [now]. *)
Definition Transaction_init (s r : address) (a : Z) (ts : option Z) (now : Z)
  : Transaction :=
  let t := match ts with
           | Some t => if bool_decide (t = 0) then now else t
           | None => now
           end in
  mkTransaction s r a t (Some (tx_compute_hash s r a t)).

(** [Block.compute_hash]. Every entry of [transactions] is copied as a
    dict, [tx.__dict__.copy()] for an object and [tx.copy()] for a dict,
    before the dump: the two forms of a transaction serialise alike. *)
Definition compute_hash (b : Block) : string :=
  sha256 (dumps_block (index b) (previous_hash b)
            (tx_fields <$> transactions b) (timestamp b) (nonce b)).

(** [Block.__init__]: [timestamp if timestamp is not None else time.time()]. *)
Definition Block_init (i : Z) (prev : string) (txs : list tx_value)
    (ts : option Z) (n : Z) (now : Z) : Block :=
  let t := match ts with Some t => t | None => now end in
  let b := mkBlock i prev txs t n "" in
  set_hash (compute_hash b) b.

(** [Blockchain.create_genesis_block] on the empty ledger of [__init__]. *)
Definition genesis_block : Block := Block_init 0 "0" [] (Some 0) 0 0.

Definition create_genesis_block (bc : Blockchain) : Blockchain :=
  mkBlockchain (chain bc ++ [genesis_block]) (pending_transactions bc).

Definition Blockchain_init : Blockchain :=
  create_genesis_block (mkBlockchain [] []).

(** [Blockchain.add_block]. The result is paired with the ledger the call
    leaves behind, also when it raises. *)
Definition add_block (block : Block) (bc : Blockchain)
  : result bool * Blockchain :=
  match last_block bc with
  | Raise e => (Raise e, bc)
  | Ok tip =>
      if bool_decide (previous_hash block ≠ hash tip) then (Ok false, bc)
      else
        let computed := compute_hash block in
        if bool_decide (hash block ≠ computed) then (Ok false, bc)
        else (Ok true, mkBlockchain (chain bc ++ [block]) [])
  end.

(** [Blockchain.mine_pending_transactions]. [now_tx] and [now_block] are
    the two clock readings, of the reward transaction and of the block.
    The new block holds the very list [self.pending_transactions], the
    reward, a [Transaction] object, at its end; the ledger drops its
    reference to it when [add_block] rebinds the attribute. *)
Definition mine_pending_transactions (miner_address : Z) (nonce : Z)
    (add_to_chain : bool) (now_tx now_block : Z) (bc : Blockchain)
  : result Block * Blockchain :=
  let reward_transaction :=
    Transaction_init Network_addr (Node_addr miner_address) 1 None now_tx in
  let bc1 := mkBlockchain (chain bc)
               (pending_transactions bc ++ [tx_object reward_transaction]) in
  match last_block bc1 with
  | Raise e => (Raise e, bc1)
  | Ok tip =>
      let new_block :=
        Block_init (Z.of_nat (length (chain bc1))) (hash tip)
                   (pending_transactions bc1) (Some now_block)
                   nonce now_block in
      let new_block := set_hash (compute_hash new_block) new_block in
      if add_to_chain then
        match add_block new_block bc1 with
        | (Raise e, bc2) => (Raise e, bc2)
        | (Ok _, bc2) => (Ok new_block, bc2)
        end
      else (Ok new_block, bc1)
  end.

(** [Blockchain.is_chain_valid]: the scan from index 1. *)
Fixpoint links_valid (prev : Block) (rest : list Block) : bool :=
  match rest with
  | [] => true
  | current :: rest' =>
      if bool_decide (previous_hash current ≠ hash prev) then false
      else if bool_decide (hash current ≠ compute_hash current) then false
      else links_valid current rest'
  end.

Definition is_chain_valid (bc : Blockchain) : bool :=
  match chain bc with
  | [] => true
  | first :: rest => links_valid first rest
  end.

Definition with_blockchain (bc : Blockchain) (n : Node) : Node :=
  mkNode (node_id n) bc (mempool n) (network n) (monitoring n) (public_keys n)
    (private_key n) (seen_transaction_hashes n) (seen_block_hashes n)
    (trade_success_count n) (trade_failure_count n)
    (trade_confirmation_times n) (withheld_block n).

Definition with_mempool (m : list Transaction) (n : Node) : Node :=
  mkNode (node_id n) (blockchain n) m (network n) (monitoring n) (public_keys n)
    (private_key n) (seen_transaction_hashes n) (seen_block_hashes n)
    (trade_success_count n) (trade_failure_count n)
    (trade_confirmation_times n) (withheld_block n).

Definition with_network (nw : option (list envelope)) (n : Node) : Node :=
  mkNode (node_id n) (blockchain n) (mempool n) nw (monitoring n) (public_keys n)
    (private_key n) (seen_transaction_hashes n) (seen_block_hashes n)
    (trade_success_count n) (trade_failure_count n)
    (trade_confirmation_times n) (withheld_block n).

Definition with_monitoring (mo : option (list mon_event)) (n : Node) : Node :=
  mkNode (node_id n) (blockchain n) (mempool n) (network n) mo (public_keys n)
    (private_key n) (seen_transaction_hashes n) (seen_block_hashes n)
    (trade_success_count n) (trade_failure_count n)
    (trade_confirmation_times n) (withheld_block n).

Definition with_seen_transaction_hashes (s : gset (option string)) (n : Node)
  : Node :=
  mkNode (node_id n) (blockchain n) (mempool n) (network n) (monitoring n)
    (public_keys n) (private_key n) s (seen_block_hashes n)
    (trade_success_count n) (trade_failure_count n)
    (trade_confirmation_times n) (withheld_block n).

Definition with_seen_block_hashes (s : gset string) (n : Node) : Node :=
  mkNode (node_id n) (blockchain n) (mempool n) (network n) (monitoring n)
    (public_keys n) (private_key n) (seen_transaction_hashes n) s
    (trade_success_count n) (trade_failure_count n)
    (trade_confirmation_times n) (withheld_block n).

Definition with_trade_success_count (c : Z) (n : Node) : Node :=
  mkNode (node_id n) (blockchain n) (mempool n) (network n) (monitoring n)
    (public_keys n) (private_key n) (seen_transaction_hashes n)
    (seen_block_hashes n) c (trade_failure_count n)
    (trade_confirmation_times n) (withheld_block n).

Definition with_trade_failure_count (c : Z) (n : Node) : Node :=
  mkNode (node_id n) (blockchain n) (mempool n) (network n) (monitoring n)
    (public_keys n) (private_key n) (seen_transaction_hashes n)
    (seen_block_hashes n) (trade_success_count n) c
    (trade_confirmation_times n) (withheld_block n).

Definition with_trade_confirmation_times (l : list (string * Z)) (n : Node)
  : Node :=
  mkNode (node_id n) (blockchain n) (mempool n) (network n) (monitoring n)
    (public_keys n) (private_key n) (seen_transaction_hashes n)
    (seen_block_hashes n) (trade_success_count n) (trade_failure_count n)
    l (withheld_block n).

Definition with_withheld_block (w : option Block) (n : Node) : Node :=
  mkNode (node_id n) (blockchain n) (mempool n) (network n) (monitoring n)
    (public_keys n) (private_key n) (seen_transaction_hashes n)
    (seen_block_hashes n) (trade_success_count n) (trade_failure_count n)
    (trade_confirmation_times n) w.

(** [if self.monitoring: self.monitoring.<call>]. *)
Definition monitor (ev : mon_event) (n : Node) : Node :=
  match monitoring n with
  | Some log => with_monitoring (Some (log ++ [ev])) n
  | None => n
  end.

(** [if self.network: self.network.broadcast_...(...)]. *)
Definition node_broadcast (e : envelope) (n : Node) : Node :=
  match network n with
  | Some out => with_network (Some (out ++ [e])) n
  | None => n
  end.

(** [Node.__init__], for the key pair generated at start-up. *)
Definition Node_init (id : Z) (priv pem : string)
    (mo : option (list mon_event)) : Node :=
  mkNode id Blockchain_init [] None mo {[ id := pem ]} priv ∅ ∅ 0 0 [] None.

Definition _log_trade_success (h : option string) (n : Node) : Node :=
  with_trade_success_count (trade_success_count n + 1) n.

Definition _log_trade_failure (h : option string) (n : Node) : Node :=
  with_trade_failure_count (trade_failure_count n + 1) n.

Definition _log_trade_confirmation (h : string) (confirmation_time : Z)
    (n : Node) : Node :=
  with_trade_confirmation_times
    (trade_confirmation_times n ++ [(h, confirmation_time)]) n.

(** [Node.create_transaction]; [None] when the hash was already seen. The
    mempool and the network get the dict [tx.__dict__], the caller the
    object: the same fields. *)
Definition create_transaction (receiver : Z) (amount : Z) (now : Z) (n : Node)
  : option Transaction * Node :=
  let tx := Transaction_init (Node_addr (node_id n)) (Node_addr receiver)
              amount None now in
  if bool_decide (tx_hash tx ∈ seen_transaction_hashes n) then (None, n)
  else
    let n := with_seen_transaction_hashes
               ({[ tx_hash tx ]} ∪ seen_transaction_hashes n) n in
    let n := with_mempool (mempool n ++ [tx]) n in
    let n := monitor (record_message (node_id n) "transaction" 1 0 0) n in
    let n := node_broadcast (env_transaction tx) n in
    (Some tx, n).

(** [Node.receive_transaction]. *)
Definition receive_transaction (transaction_dict : Transaction) (n : Node)
  : Node :=
  let h := tx_hash transaction_dict in
  if bool_decide (h ∈ seen_transaction_hashes n) then
    let n := monitor (record_message (node_id n) "transaction" 0 0 1) n in
    _log_trade_failure h n
  else
    let n := with_seen_transaction_hashes
               ({[ h ]} ∪ seen_transaction_hashes n) n in
    if bool_decide (transaction_dict ∈ mempool n) then n
    else
      let n := with_mempool (mempool n ++ [transaction_dict]) n in
      let n := monitor (record_message (node_id n) "transaction" 0 1 0) n in
      _log_trade_success h n.

(** The list comprehension of [create_block]: every mempool entry is
    rebuilt as a [Transaction]. The entry at position [i] reads the clock,
    when it has to, as [clock (S i)]. *)
Definition mempool_transactions (clock : nat → Z) (m : list Transaction)
  : list Transaction :=
  imap (λ i t, Transaction_init (tx_sender t) (tx_receiver t) (tx_amount t)
                 (Some (tx_timestamp t)) (clock (S i))) m.

(** [new_block.__dict__.copy()] with the transactions as dicts: what
    [create_block] returns. *)
Definition block_as_dict (b : Block) : Block :=
  mkBlock (index b) (previous_hash b) (tx_as_dict <$> transactions b)
    (timestamp b) (nonce b) (hash b).

(** [Node.create_block]. The block is mined with [add_to_chain=False] and
    returned as a dict, its transactions as dicts too; the withheld block
    is the [Block] object itself. [clock k] is the [k]-th clock reading of
    the call. *)
Definition create_block (nonce : Z) (withhold : bool) (clock : nat → Z)
    (n : Node) : result (option Block) * Node :=
  match mempool n with
  | [] => (Ok None, n)
  | _ :: _ =>
      let k := length (mempool n) in
      let pending := tx_object <$> mempool_transactions clock (mempool n) in
      let bc := mkBlockchain (chain (blockchain n)) pending in
      let '(r, bc) := mine_pending_transactions (node_id n) nonce false
                        (clock (S k)) (clock (S (S k))) bc in
      let n := with_blockchain bc n in
      match r with
      | Raise e => (Raise e, n)
      | Ok new_block =>
          if withhold then
            (Ok (Some (block_as_dict new_block)),
             with_withheld_block (Some new_block) n)
          else
            let n := with_withheld_block None n in
            let n := monitor (record_block_produced (node_id n)
                                (index new_block)) n in
            let n := monitor (record_latency (node_id n)) n in
            (Ok (Some (block_as_dict new_block)), n)
      end
  end.

(** [{tx["tx_hash"] for tx in block.transactions}], as the list of the
    hashes read before the set is built. *)
Fixpoint block_tx_hashes (txs : list tx_value) : result (list string) :=
  match txs with
  | [] => Ok []
  | v :: rest =>
      match tx_hash_item v with
      | Raise e => Raise e
      | Ok h =>
          match block_tx_hashes rest with
          | Raise e => Raise e
          | Ok hs => Ok (h :: hs)
          end
      end
  end.

(** [[tx for tx in self.mempool if tx["tx_hash"] not in tx_hashes_in_block]];
    the mempool entries are dicts. *)
Fixpoint unmined (tx_hashes_in_block : gset string)
    (mempool : list Transaction) : result (list Transaction) :=
  match mempool with
  | [] => Ok []
  | tx :: rest =>
      match tx_hash_item (tx_dict tx) with
      | Raise e => Raise e
      | Ok h =>
          match unmined tx_hashes_in_block rest with
          | Raise e => Raise e
          | Ok kept =>
              Ok (if bool_decide (h ∉ tx_hashes_in_block) then tx :: kept
                  else kept)
          end
      end
  end.

(** [Node.receive_block]: [None] for a replayed hash, otherwise [True] or
    [False]. Every exception of the [try] body is caught and answered
    with [False]: so is a refusal of [add_block], and so is a [tx_hash]
    lookup that raises after [add_block] has appended the block, on a
    transaction of the block or on a mempool entry; the mempool is then
    as it was, since the comprehension raised before the assignment. *)
Definition receive_block (block_dict : Block) (confirmation_time : Z)
    (n : Node) : option bool * Node :=
  let block_hash := hash block_dict in
  if bool_decide (block_hash ∈ seen_block_hashes n) then
    (None, monitor (record_message (node_id n) "block" 0 0 1) n)
  else
    let n := with_seen_block_hashes ({[ block_hash ]} ∪ seen_block_hashes n) n in
    let block := Block_init (index block_dict) (previous_hash block_dict)
                   (transactions block_dict) (Some (timestamp block_dict))
                   (nonce block_dict) confirmation_time in
    let block := set_hash (hash block_dict) block in
    match add_block block (blockchain n) with
    | (Raise _, bc) => (Some false, with_blockchain bc n)
    | (Ok false, bc) => (Some false, with_blockchain bc n)
    | (Ok true, bc) =>
        let n := with_blockchain bc n in
        match block_tx_hashes (transactions block) with
        | Raise _ => (Some false, n)
        | Ok hashes =>
            let tx_hashes_in_block : gset string := list_to_set hashes in
            match unmined tx_hashes_in_block (mempool n) with
            | Raise _ => (Some false, n)
            | Ok kept =>
                let n := with_mempool kept n in
                let n := monitor (record_message (node_id n) "block" 0 1 0) n in
                let n := monitor
                           (record_block_committed (node_id n) (Some block))
                           n in
                let n := foldl
                           (λ n h,
                              _log_trade_confirmation h confirmation_time n)
                           n (elements tx_hashes_in_block) in
                (Some true, n)
            end
        end
    end.

(** [self.blockchain.chain[-1].index if self.blockchain.chain else -1]. *)
Definition current_height (n : Node) : Z :=
  match last (chain (blockchain n)) with
  | Some b => index b
  | None => -1
  end.

(** [Node.handle_sync_response]; the [i]-th block of the response reads
    the clock as [clock i]. *)
Fixpoint sync_blocks (blocks_dict : list Block) (clock : nat → Z) (n : Node)
  : Node :=
  match blocks_dict with
  | [] => n
  | b_dict :: rest =>
      let n :=
        if bool_decide (index b_dict = current_height n + 1)
        then (receive_block b_dict (clock O) n).2
        else n in
      sync_blocks rest (λ i, clock (S i)) n
  end.

Definition handle_sync_response (blocks_dict : list Block) (clock : nat → Z)
    (n : Node) : Node :=
  let n := monitor (record_sync_event (node_id n)
                      ("Received sync response with "
                         +:+ pretty (length blocks_dict) +:+ " blocks")) n in
  sync_blocks blocks_dict clock n.

(** ** Signatures (utils.py) *)

Variable PublicKey : Type.

(** [load_public_key] ([None] when the PEM text does not parse and the
    loader raises), [verify_signature] and [sign_message]; a private key is
    kept as its PEM text. *)
Variable load_public_key : string → option PublicKey.
Variable verify_signature : PublicKey → string → string → bool.
Variable sign_message : string → string → string.

(** [serialize(block)], the canonical JSON of the message's block (or of
    [None]), and [str(block)], which PoA and PoS sign. *)
Variable serialize : option Block → string.
Variable str_block : Block → string.

(** ** PBFT (consensus/pbft.py) *)

Definition PRE_PREPARE : string := "PRE_PREPARE".
Definition PREPARE : string := "PREPARE".
Definition COMMIT : string := "COMMIT".
Definition REPLY : string := "REPLY".

Definition with_node (x : Node) (c : PbftConsensus) : PbftConsensus :=
  mkPbft x (total_nodes c) (current_view c) (sequence_number c) (prepared c)
    (committed c) (message_log c) (received_messages c) (malicious_nodes c)
    (pbft_monitoring c) (round_start_time c) (last_proposed_index c).

Definition with_sequence_number (x : Z) (c : PbftConsensus) : PbftConsensus :=
  mkPbft (node c) (total_nodes c) (current_view c) x (prepared c)
    (committed c) (message_log c) (received_messages c) (malicious_nodes c)
    (pbft_monitoring c) (round_start_time c) (last_proposed_index c).

Definition with_prepared (x : gmap Z (gset Z)) (c : PbftConsensus)
  : PbftConsensus :=
  mkPbft (node c) (total_nodes c) (current_view c) (sequence_number c) x
    (committed c) (message_log c) (received_messages c) (malicious_nodes c)
    (pbft_monitoring c) (round_start_time c) (last_proposed_index c).

Definition with_committed (x : gmap Z (gset Z)) (c : PbftConsensus)
  : PbftConsensus :=
  mkPbft (node c) (total_nodes c) (current_view c) (sequence_number c)
    (prepared c) x (message_log c) (received_messages c) (malicious_nodes c)
    (pbft_monitoring c) (round_start_time c) (last_proposed_index c).

Definition with_message_log (x : list PbftMsg) (c : PbftConsensus)
  : PbftConsensus :=
  mkPbft (node c) (total_nodes c) (current_view c) (sequence_number c)
    (prepared c) (committed c) x (received_messages c) (malicious_nodes c)
    (pbft_monitoring c) (round_start_time c) (last_proposed_index c).

Definition with_received_messages (x : gmap (Z * string * Z) PbftMsg)
    (c : PbftConsensus) : PbftConsensus :=
  mkPbft (node c) (total_nodes c) (current_view c) (sequence_number c)
    (prepared c) (committed c) (message_log c) x (malicious_nodes c)
    (pbft_monitoring c) (round_start_time c) (last_proposed_index c).

Definition with_malicious_nodes (x : gset Z) (c : PbftConsensus)
  : PbftConsensus :=
  mkPbft (node c) (total_nodes c) (current_view c) (sequence_number c)
    (prepared c) (committed c) (message_log c) (received_messages c) x
    (pbft_monitoring c) (round_start_time c) (last_proposed_index c).

Definition with_pbft_monitoring (x : option (list mon_event))
    (c : PbftConsensus) : PbftConsensus :=
  mkPbft (node c) (total_nodes c) (current_view c) (sequence_number c)
    (prepared c) (committed c) (message_log c) (received_messages c)
    (malicious_nodes c) x (round_start_time c) (last_proposed_index c).

Definition with_round_start_time (x : option Z) (c : PbftConsensus)
  : PbftConsensus :=
  mkPbft (node c) (total_nodes c) (current_view c) (sequence_number c)
    (prepared c) (committed c) (message_log c) (received_messages c)
    (malicious_nodes c) (pbft_monitoring c) x (last_proposed_index c).

Definition with_last_proposed_index (x : Z) (c : PbftConsensus)
  : PbftConsensus :=
  mkPbft (node c) (total_nodes c) (current_view c) (sequence_number c)
    (prepared c) (committed c) (message_log c) (received_messages c)
    (malicious_nodes c) (pbft_monitoring c) (round_start_time c) x.

(** [PbftConsensus.__init__]. *)
Definition Pbft_init (n : Node) (total : Z) (mo : option (list mon_event))
  : PbftConsensus :=
  mkPbft n total 0 0 ∅ ∅ [] ∅ ∅ mo None (-1).

(** [if self.monitoring: self.monitoring.<call>] of the engine. *)
Definition pbft_monitor (ev : mon_event) (c : PbftConsensus) : PbftConsensus :=
  match pbft_monitoring c with
  | Some log => with_pbft_monitoring (Some (log ++ [ev])) c
  | None => c
  end.

(** [self.current_view % self.total_nodes]. *)
Definition primary (c : PbftConsensus) : result Z :=
  if bool_decide (total_nodes c = 0) then Raise ZeroDivisionError
  else Ok (current_view c `mod` total_nodes c).

(** [(2 * (self.total_nodes // 3)) + 1]. *)
Definition quorum (c : PbftConsensus) : Z := 2 * (total_nodes c `div` 3) + 1.

(** The text a PBFT signature covers:
    [f"{msg_type}:{view}:{seq}:{node_id}:{block_str}"]. *)
Definition message_data (ty : string) (view seq sender : Z)
    (block : option Block) : string :=
  ty +:+ ":" +:+ pretty view +:+ ":" +:+ pretty seq +:+ ":"
     +:+ pretty sender +:+ ":" +:+ serialize block.

Definition _sign_message (ty : string) (block : option Block) (seq : Z)
    (c : PbftConsensus) : string :=
  sign_message (private_key (node c))
    (message_data ty (current_view c) seq (node_id (node c)) block).

(** [PbftConsensus.broadcast]: the message is logged, counted, and handed
    to the network when there is one. *)
Definition broadcast (message_type : string) (block : option Block)
    (signature : string) (seq : Z) (c : PbftConsensus) : PbftConsensus :=
  let msg := mkPbftMsg message_type (current_view c) seq (node_id (node c))
               block (Some signature) in
  let c := with_message_log (message_log c ++ [msg]) c in
  let c := pbft_monitor (record_message (node_id (node c)) message_type 1 0 0) c in
  with_node (node_broadcast (env_pbft_message msg) (node c)) c.

Definition _send_prepare (block : Block) (seq : Z) (c : PbftConsensus)
  : PbftConsensus :=
  let c := pbft_monitor
             (record_pbft_prepare (node_id (node c)) (index block) false) c in
  let signature := _sign_message PREPARE (Some block) seq c in
  broadcast PREPARE (Some block) signature seq c.

Definition _send_commit (block : Block) (seq : Z) (c : PbftConsensus)
  : PbftConsensus :=
  let c := pbft_monitor
             (record_pbft_commit (node_id (node c)) (index block) false) c in
  let signature := _sign_message COMMIT (Some block) seq c in
  broadcast COMMIT (Some block) signature seq c.

Definition _send_reply (block : Block) (seq : Z) (c : PbftConsensus)
  : PbftConsensus :=
  let signature := _sign_message REPLY (Some block) seq c in
  broadcast REPLY (Some block) signature seq c.

Definition _record_malicious (id : Z) (c : PbftConsensus) : PbftConsensus :=
  if bool_decide (id ∉ malicious_nodes c)
  then with_malicious_nodes ({[ id ]} ∪ malicious_nodes c) c
  else c.

Definition _log_and_monitor_reject (sender_id : Z) (reason : string)
    (c : PbftConsensus) : PbftConsensus :=
  let c := _record_malicious sender_id c in
  pbft_monitor (raise_alert sender_id ("Message rejected: " +:+ reason)) c.

(** [PbftConsensus._trigger_sync]: nothing happens without a network. *)
Definition _trigger_sync (start_index end_index : Z) (c : PbftConsensus)
  : PbftConsensus :=
  match network (node c) with
  | None => c
  | Some _ =>
      let c := pbft_monitor
                 (record_sync_event (node_id (node c))
                    ("Triggered sync for blocks " +:+ pretty start_index
                       +:+ "-" +:+ pretty end_index)) c in
      with_node (node_broadcast (env_sync_request start_index end_index)
                   (node c)) c
  end.

Definition _start_round_timer (now : Z) (c : PbftConsensus) : PbftConsensus :=
  with_round_start_time (Some now) c.

(** [_finish_round_timer]: a start time that is [None] or [0] is falsy. *)
Definition _finish_round_timer (c : PbftConsensus) : PbftConsensus :=
  match round_start_time c, pbft_monitoring c with
  | Some t, Some _ =>
      if bool_decide (t = 0) then c
      else
        let c := pbft_monitor (record_latency (node_id (node c))) c in
        with_round_start_time None c
  | _, _ => c
  end.

(** [_cleanup_rounds]: the sequences [s] of [prepared] below
    [current_seq - 5] are dropped from the three tables. *)
Definition _cleanup_rounds (current_seq : Z) (c : PbftConsensus)
  : PbftConsensus :=
  let threshold := 5 in
  let to_delete : gset Z :=
    filter (λ s, s < current_seq - threshold) (dom (prepared c)) in
  let c' := with_prepared (filter (λ kv, kv.1 ∉ to_delete) (prepared c)) c in
  let c' := with_committed (filter (λ kv, kv.1 ∉ to_delete) (committed c)) c' in
  with_received_messages
    (filter (λ kv, kv.1.2 ∉ to_delete) (received_messages c)) c'.

(** [self.prepared[seq].add(x)] after [if seq not in self.prepared: ...]. *)
Definition add_vote (seq x : Z) (votes : gmap Z (gset Z)) : gmap Z (gset Z) :=
  <[ seq := {[ x ]} ∪ default ∅ (votes !! seq) ]> votes.

Definition votes_of (seq : Z) (votes : gmap Z (gset Z)) : gset Z :=
  default ∅ (votes !! seq).

(** [chain and block["previous_hash"] != chain[-1].hash]. *)
Definition forks_from_tip (block : Block) (n : Node) : bool :=
  match last (chain (blockchain n)) with
  | Some tip => bool_decide (previous_hash block ≠ hash tip)
  | None => false
  end.

(** The three branches of [PbftConsensus.receive_message]. Where the
    source subscripts a missing block ([block["index"]] on [None]) the
    [TypeError] is caught by the handler's [except]: the branch ends with
    the state reached so far. *)
Definition on_pre_prepare (block : option Block) (seq : Z) (now : Z)
    (c : PbftConsensus) : PbftConsensus :=
  match block with
  | None => c
  | Some block =>
      let height := current_height (node c) in
      if bool_decide (index block > height + 1) then
        _trigger_sync (height + 1) (index block) c
      else if forks_from_tip block (node c) then
        pbft_monitor
          (record_fork_event (node_id (node c))
             ("Fork overlap at Block " +:+ pretty (index block))) c
      else
        match primary c with
        | Raise _ => c
        | Ok p =>
            let c :=
              if bool_decide (node_id (node c) ≠ p) then
                let c := _send_prepare block seq c in
                with_prepared (add_vote seq p (prepared c)) c
              else c in
            _start_round_timer now c
        end
  end.

Definition on_prepare (sender_id : Z) (block : option Block) (seq : Z)
    (c : PbftConsensus) : PbftConsensus :=
  match block with
  | None => c
  | Some block =>
      let height := current_height (node c) in
      if bool_decide (index block > height + 1) then c
      else
        let c := with_prepared (add_vote seq sender_id (prepared c)) c in
        if bool_decide (Z.of_nat (size (votes_of seq (prepared c))) >= quorum c)
        then
          let c := pbft_monitor
                     (record_pbft_prepare (node_id (node c)) (index block) true)
                     c in
          let c := _send_commit block seq c in
          with_committed (add_vote seq (node_id (node c)) (committed c)) c
        else c
  end.

Definition on_commit (sender_id : Z) (block : option Block) (seq : Z)
    (now : Z) (c : PbftConsensus) : PbftConsensus :=
  let c := with_committed (add_vote seq sender_id (committed c)) c in
  if bool_decide (Z.of_nat (size (votes_of seq (committed c))) >= quorum c) then
    match block with
    | None => c
    | Some block =>
        let height := current_height (node c) in
        if bool_decide (index block <= height) then c
        else if bool_decide (index block > height + 1) then
          _trigger_sync (height + 1) (index block) c
        else if forks_from_tip block (node c) then c
        else
          let '(added, n) := receive_block block now (node c) in
          let c := with_node n c in
          let c :=
            match added with
            | Some true =>
                let c := _finish_round_timer c in
                let c := if bool_decide (seq > sequence_number c)
                         then with_sequence_number seq c else c in
                _cleanup_rounds seq c
            | _ => _finish_round_timer c
            end in
          let c := pbft_monitor
                     (record_pbft_commit (node_id (node c)) (index block) true)
                     c in
          _send_reply block seq c
    end
  else c.

(** [PbftConsensus.receive_message]; [now] is the clock reading of the
    branch that takes one. The method returns [None] on every path. A key
    that does not load makes [load_public_key] raise, and a message
    without a signature makes [verify_signature] raise ([bytes.fromhex] of
    [None]): the handler's [except] swallows both, and nothing has changed
    by then. *)
Definition pbft_receive_message (msg : PbftMsg) (now : Z) (c : PbftConsensus)
  : PbftConsensus :=
  let ty := msg_type msg in
  let sender_id := msg_node_id msg in
  let block := msg_block msg in
  match public_keys (node c) !! sender_id with
  | None => _log_and_monitor_reject sender_id "Unknown sender" c
  | Some sender_public_key_pem =>
      if bool_decide (sender_public_key_pem = "") then
        _log_and_monitor_reject sender_id "Unknown sender" c
      else
        match load_public_key sender_public_key_pem, msg_signature msg with
        | None, _ => c
        | Some _, None => c
        | Some sender_public_key, Some signature =>
            let data := message_data ty (msg_view msg) (msg_seq msg)
                          sender_id block in
            if negb (verify_signature sender_public_key data signature) then
              _log_and_monitor_reject sender_id "Invalid signature" c
            else
              let c := pbft_monitor
                         (record_message (node_id (node c)) ty 0 1 0) c in
              let msg_key := (sender_id, ty, msg_seq msg) in
              match received_messages c !! msg_key with
              | Some _ => c
              | None =>
                  let c := with_received_messages
                             (<[ msg_key := msg ]> (received_messages c)) c in
                  if bool_decide (ty = PRE_PREPARE) then
                    on_pre_prepare block (msg_seq msg) now c
                  else if bool_decide (ty = PREPARE) then
                    on_prepare sender_id block (msg_seq msg) c
                  else if bool_decide (ty = COMMIT) then
                    on_commit sender_id block (msg_seq msg) now c
                  else c
              end
        end
  end.

(** [PbftConsensus.propose_block]; the division by zero of [primary] is
    not caught here. *)
Definition pbft_propose_block (block : Block) (now : Z) (c : PbftConsensus)
  : result unit * PbftConsensus :=
  if bool_decide (index block <= last_proposed_index c) then (Ok (), c)
  else
    match primary c with
    | Raise e => (Raise e, c)
    | Ok p =>
        if bool_decide (node_id (node c) = p) then
          let c := with_sequence_number (sequence_number c + 1) c in
          let c := with_last_proposed_index (index block) c in
          let seq := sequence_number c in
          let c := with_prepared (add_vote seq (node_id (node c)) (prepared c)) c in
          let c := _start_round_timer now c in
          let signature := _sign_message PRE_PREPARE (Some block) seq c in
          (Ok (), broadcast PRE_PREPARE (Some block) signature seq c)
        else (Ok (), c)
    end.

(** ** PoA and PoS (consensus/poa.py, consensus/pos.py) *)

(** Both modules do [from ..utils import verify_signature]: the name is
    bound to the function of utils.py, not to a module. utils.py sets no
    attribute on its functions, so an attribute lookup on one finds only
    what every function object has. *)
Definition function_attributes : list string :=
  ["__name__"; "__qualname__"; "__module__"; "__doc__"; "__dict__";
   "__defaults__"; "__kwdefaults__"; "__code__"; "__globals__";
   "__closure__"; "__annotations__"; "__wrapped__"; "__call__"].

Definition getattr_function (attr : string) : result unit :=
  if bool_decide (attr ∈ function_attributes) then Ok ()
  else Raise AttributeError.

(** Python truthiness of the three fields of a PoA or PoS message, for
    [if not block or not signature or not sender_id]. A field that passed
    the test is present: the [match] that follows it in the two handlers
    only names the three values. *)
Definition truthy_block (b : option Block) : bool :=
  match b with Some _ => true | None => false end.

Definition truthy_str (s : option string) : bool :=
  match s with Some s => bool_decide (s ≠ "") | None => false end.

Definition truthy_int (z : option Z) : bool :=
  match z with Some z => bool_decide (z ≠ 0) | None => false end.

Definition poa_with_node (x : Node) (c : PoAConsensus) : PoAConsensus :=
  mkPoA x (validators c) (current_leader_index c) (block_time c)
    (last_block_time c) (poa_malicious_nodes c) (poa_received_blocks c)
    (poa_monitoring c).

Definition poa_with_malicious_nodes (x : gset Z) (c : PoAConsensus)
  : PoAConsensus :=
  mkPoA (poa_node c) (validators c) (current_leader_index c) (block_time c)
    (last_block_time c) x (poa_received_blocks c) (poa_monitoring c).

Definition poa_with_received_blocks (x : gset string) (c : PoAConsensus)
  : PoAConsensus :=
  mkPoA (poa_node c) (validators c) (current_leader_index c) (block_time c)
    (last_block_time c) (poa_malicious_nodes c) x (poa_monitoring c).

Definition poa_with_monitoring (x : option (list mon_event))
    (c : PoAConsensus) : PoAConsensus :=
  mkPoA (poa_node c) (validators c) (current_leader_index c) (block_time c)
    (last_block_time c) (poa_malicious_nodes c) (poa_received_blocks c) x.

(** [PoAConsensus.__init__]. *)
Definition PoA_init (n : Node) (vs : list Z) (mo : option (list mon_event))
  : PoAConsensus :=
  mkPoA n vs 0 5 0 ∅ ∅ mo.

Definition poa_monitor (ev : mon_event) (c : PoAConsensus) : PoAConsensus :=
  match poa_monitoring c with
  | Some log => poa_with_monitoring (Some (log ++ [ev])) c
  | None => c
  end.

Definition poa_record_malicious (id : Z) (c : PoAConsensus) : PoAConsensus :=
  if bool_decide (id ∉ poa_malicious_nodes c)
  then poa_with_malicious_nodes ({[ id ]} ∪ poa_malicious_nodes c) c
  else c.

(** [self.node.blockchain.last_block.hash if self.node.blockchain.chain
    else None]. *)
Definition last_hash (n : Node) : option string :=
  hash <$> last (chain (blockchain n)).

(** [PoAConsensus.receive_message]. The method has no [try]: what is
    raised inside leaves it. After the key lookup the source evaluates
    [verify_signature.load_public_key] and then
    [verify_signature.verify_signature], two attribute lookups on the
    imported function; past them the handler continues with the functions
    of utils.py that the two lines name. *)
Definition poa_receive_message (msg : BlockMsg) (now : Z) (c : PoAConsensus)
  : result unit * PoAConsensus :=
  if negb (truthy_block (bm_block msg) && truthy_str (bm_signature msg)
           && truthy_int (bm_sender_id msg)) then (Ok (), c)
  else
  match bm_block msg, bm_signature msg, bm_sender_id msg with
  | Some block, Some signature, Some sender_id =>
        let c := poa_monitor
                   (record_message (node_id (poa_node c)) "poa_message" 0 1 0)
                   c in
        if bool_decide (sender_id ∉ validators c) then
          let c := poa_record_malicious sender_id c in
          (Ok (), poa_monitor
                    (raise_alert sender_id "Message from non-validator rejected")
                    c)
        else
          match public_keys (poa_node c) !! sender_id with
          | None => (Ok (), c)
          | Some sender_pubkey_pem =>
              if bool_decide (sender_pubkey_pem = "") then (Ok (), c)
              else
                match getattr_function "load_public_key" with
                | Raise e => (Raise e, c)
                | Ok _ =>
                    match load_public_key sender_pubkey_pem,
                          getattr_function "verify_signature" with
                    | None, _ => (Raise ValueError, c)
                    | Some _, Raise e => (Raise e, c)
                    | Some sender_pubkey, Ok _ =>
                        if negb (verify_signature sender_pubkey
                                   (str_block block) signature) then
                          let c := poa_record_malicious sender_id c in
                          (Ok (), poa_monitor
                                    (raise_alert sender_id
                                       "Invalid signature in PoA message") c)
                        else
                          let block_hash := hash block in
                          if bool_decide (block_hash ∈ poa_received_blocks c)
                          then (Ok (), c)
                          else
                            let c := poa_with_received_blocks
                                       ({[ block_hash ]} ∪ poa_received_blocks c)
                                       c in
                            if bool_decide (Some (previous_hash block)
                                            = last_hash (poa_node c)) then
                              let n := (receive_block block now (poa_node c)).2 in
                              let c := poa_with_node n c in
                              (Ok (), poa_monitor
                                        (record_block_committed
                                           (node_id (poa_node c)) None) c)
                            else
                              (Ok (), poa_monitor
                                        (record_fork_event
                                           (node_id (poa_node c))
                                           "conflict detected") c)
                    end
                end
          end
  | _, _, _ => (Ok (), c)
  end.

Definition pos_with_node (x : Node) (c : PoSConsensus) : PoSConsensus :=
  mkPoS x (validator_set c) (balances c) (total_staked c)
    (current_validator c) (pos_malicious_nodes c) (pos_received_blocks c)
    (pos_monitoring c).

Definition pos_with_current_validator (x : option Z) (c : PoSConsensus)
  : PoSConsensus :=
  mkPoS (pos_node c) (validator_set c) (balances c) (total_staked c) x
    (pos_malicious_nodes c) (pos_received_blocks c) (pos_monitoring c).

Definition pos_with_malicious_nodes (x : gset Z) (c : PoSConsensus)
  : PoSConsensus :=
  mkPoS (pos_node c) (validator_set c) (balances c) (total_staked c)
    (current_validator c) x (pos_received_blocks c) (pos_monitoring c).

Definition pos_with_received_blocks (x : gset string) (c : PoSConsensus)
  : PoSConsensus :=
  mkPoS (pos_node c) (validator_set c) (balances c) (total_staked c)
    (current_validator c) (pos_malicious_nodes c) x (pos_monitoring c).

Definition pos_with_monitoring (x : option (list mon_event))
    (c : PoSConsensus) : PoSConsensus :=
  mkPoS (pos_node c) (validator_set c) (balances c) (total_staked c)
    (current_validator c) (pos_malicious_nodes c) (pos_received_blocks c) x.

(** [sum(staking_balances.values())]. *)
Definition sum_values (m : gmap Z Z) : Z :=
  map_fold (λ _ stake acc, acc + stake) 0 m.

(** [PoSConsensus.__init__]. *)
Definition PoS_init (n : Node) (vs : list Z) (staking_balances : gmap Z Z)
    (mo : option (list mon_event)) : PoSConsensus :=
  mkPoS n vs staking_balances (sum_values staking_balances) None ∅ ∅ mo.

Definition pos_monitor (ev : mon_event) (c : PoSConsensus) : PoSConsensus :=
  match pos_monitoring c with
  | Some log => pos_with_monitoring (Some (log ++ [ev])) c
  | None => c
  end.

Definition pos_record_malicious (id : Z) (c : PoSConsensus) : PoSConsensus :=
  if bool_decide (id ∉ pos_malicious_nodes c)
  then pos_with_malicious_nodes ({[ id ]} ∪ pos_malicious_nodes c) c
  else c.

(** The loop of [select_validator], entered with the running sum
    [cumulative]: the first validator at which [rand_value <= cumulative]. *)
Fixpoint select_from (stakes : gmap Z Z) (rand_value : Q) (cumulative : Z)
    (vs : list Z) : option Z :=
  match vs with
  | [] => None
  | id :: rest =>
      let stake := default 0 (stakes !! id) in
      let cumulative := cumulative + stake in
      if Qle_bool rand_value (inject_Z cumulative) then Some id
      else select_from stakes rand_value cumulative rest
  end.

(** What [random.uniform(0, self.total_staked)] may return: a value
    between [0] and [total_staked], whichever of the two is the smaller. *)
Definition is_draw (rand_value : Q) (c : PoSConsensus) : Prop :=
  (Qle 0 rand_value ∧ Qle rand_value (inject_Z (total_staked c)))
  ∨ (Qle (inject_Z (total_staked c)) rand_value ∧ Qle rand_value 0).

(** [PoSConsensus.select_validator], for the value [rand_value] drawn. *)
Definition select_validator (rand_value : Q) (c : PoSConsensus)
  : option Z * PoSConsensus :=
  match select_from (balances c) rand_value 0 (validator_set c) with
  | Some id => (Some id, pos_with_current_validator (Some id) c)
  | None => (None, c)
  end.

(** [PoSConsensus.can_propose]. *)
Definition can_propose (rand_value : Q) (c : PoSConsensus)
  : bool * PoSConsensus :=
  let '(selected_validator, c) := select_validator rand_value c in
  (bool_decide (Some (node_id (pos_node c)) = selected_validator), c).

Definition pos_sign_block (block : Block) (c : PoSConsensus) : string :=
  sign_message (private_key (pos_node c)) (str_block block).

(** [PoSConsensus.propose_block]. With a monitoring object the last call,
    [record_block_produced(node_id)], lacks the [block_index] that
    [Monitoring.record_block_produced] requires: a [TypeError], raised
    after the message went out. *)
Definition pos_propose_block (rand_value : Q) (clock : nat → Z)
    (c : PoSConsensus) : result (option Block) * PoSConsensus :=
  let '(can, c) := can_propose rand_value c in
  if can then
    let '(r, n) := create_block 0 false (λ i, clock (S i)) (pos_node c) in
    let c := pos_with_node n c in
    match r with
    | Raise e => (Raise e, c)
    | Ok None => (Ok None, c)
    | Ok (Some block) =>
        let signature := pos_sign_block block c in
        let c := pos_monitor
                   (record_message (node_id (pos_node c)) "pos_message" 1 0 0)
                   c in
        let msg := mkBlockMsg (Some block) (Some signature)
                     (Some (node_id (pos_node c))) in
        let c := pos_with_node
                   (node_broadcast (env_pos_message msg) (pos_node c)) c in
        match pos_monitoring c with
        | Some _ => (Raise TypeError, c)
        | None => (Ok (Some block), c)
        end
    end
  else (Ok None, c).

(** [PoSConsensus.receive_message], the same method over [validator_set]. *)
Definition pos_receive_message (msg : BlockMsg) (now : Z) (c : PoSConsensus)
  : result unit * PoSConsensus :=
  if negb (truthy_block (bm_block msg) && truthy_str (bm_signature msg)
           && truthy_int (bm_sender_id msg)) then (Ok (), c)
  else
  match bm_block msg, bm_signature msg, bm_sender_id msg with
  | Some block, Some signature, Some sender_id =>
        let c := pos_monitor
                   (record_message (node_id (pos_node c)) "pos_message" 0 1 0)
                   c in
        if bool_decide (sender_id ∉ validator_set c) then
          let c := pos_record_malicious sender_id c in
          (Ok (), pos_monitor
                    (raise_alert sender_id "Message from non-validator rejected")
                    c)
        else
          match public_keys (pos_node c) !! sender_id with
          | None => (Ok (), c)
          | Some sender_pubkey_pem =>
              if bool_decide (sender_pubkey_pem = "") then (Ok (), c)
              else
                match getattr_function "load_public_key" with
                | Raise e => (Raise e, c)
                | Ok _ =>
                    match load_public_key sender_pubkey_pem,
                          getattr_function "verify_signature" with
                    | None, _ => (Raise ValueError, c)
                    | Some _, Raise e => (Raise e, c)
                    | Some sender_pubkey, Ok _ =>
                        if negb (verify_signature sender_pubkey
                                   (str_block block) signature) then
                          let c := pos_record_malicious sender_id c in
                          (Ok (), pos_monitor
                                    (raise_alert sender_id
                                       "Invalid signature in PoS message") c)
                        else
                          let block_hash := hash block in
                          if bool_decide (block_hash ∈ pos_received_blocks c)
                          then (Ok (), c)
                          else
                            let c := pos_with_received_blocks
                                       ({[ block_hash ]} ∪ pos_received_blocks c)
                                       c in
                            if bool_decide (Some (previous_hash block)
                                            = last_hash (pos_node c)) then
                              let n := (receive_block block now (pos_node c)).2 in
                              let c := pos_with_node n c in
                              (Ok (), pos_monitor
                                        (record_block_committed
                                           (node_id (pos_node c)) None) c)
                            else
                              (Ok (), pos_monitor
                                        (record_fork_event
                                           (node_id (pos_node c))
                                           "conflict detected") c)
                    end
                end
          end
  | _, _, _ => (Ok (), c)
  end.

(** ** Serving a sync request (node.py) *)

(** [l[i]], with Python's negative indices. *)
Definition py_getitem {A : Type} (l : list A) (i : Z) : result A :=
  let len := Z.of_nat (length l) in
  let j := if bool_decide (i < 0) then i + len else i in
  if bool_decide (j < 0) then Raise IndexError
  else match l !! Z.to_nat j with
       | Some x => Ok x
       | None => Raise IndexError
       end.

(** The loop of [handle_sync_request] over [range(start, end + 1)]: it
    stops at the first index that is not below [len(chain)]. Every block
    goes out as a dict, its transactions as dicts. *)
Fixpoint collect_blocks (bs : list Block) (indices : list Z)
    (blocks_to_send : list Block) : result (list Block) :=
  match indices with
  | [] => Ok blocks_to_send
  | i :: rest =>
      if bool_decide (i < Z.of_nat (length bs)) then
        match py_getitem bs i with
        | Ok b => collect_blocks bs rest (blocks_to_send ++ [block_as_dict b])
        | Raise e => Raise e
        end
      else Ok blocks_to_send
  end.

(** [Node.handle_sync_request]; [start] and [end] are [None] when the
    payload lacks them. The answer goes to the requester alone, through
    [network.send_sync_response], which is recorded with the node's other
    network calls. *)
Definition handle_sync_request (start end_index : option Z)
    (requester_id : Z) (n : Node) : result unit * Node :=
  match start, end_index with
  | Some start, Some end_index =>
      match collect_blocks (chain (blockchain n))
              (seqZ start (end_index + 1 - start)) [] with
      | Raise e => (Raise e, n)
      | Ok blocks_to_send =>
          match blocks_to_send, network n with
          | _ :: _, Some _ =>
              let n := monitor
                         (record_sync_event (node_id n)
                            ("Sending " +:+ pretty (length blocks_to_send)
                               +:+ " blocks to Node " +:+ pretty requester_id))
                         n in
              (Ok (), node_broadcast
                        (env_sync_response requester_id blocks_to_send) n)
          | _, _ => (Ok (), n)
          end
      end
  | _, _ => (Ok (), n)
  end.

(** ** Leader rotation and proposal in PoA (consensus/poa.py) *)

Definition poa_with_current_leader_index (x : Z) (c : PoAConsensus)
  : PoAConsensus :=
  mkPoA (poa_node c) (validators c) x (block_time c) (last_block_time c)
    (poa_malicious_nodes c) (poa_received_blocks c) (poa_monitoring c).

Definition poa_with_last_block_time (x : Z) (c : PoAConsensus)
  : PoAConsensus :=
  mkPoA (poa_node c) (validators c) (current_leader_index c) (block_time c) x
    (poa_malicious_nodes c) (poa_received_blocks c) (poa_monitoring c).

(** [self.validators[self.current_leader_index]]. *)
Definition current_leader (c : PoAConsensus) : result Z :=
  py_getitem (validators c) (current_leader_index c).

(** [PoAConsensus.rotate_leader]; the modulus is [len(self.validators)]. *)
Definition rotate_leader (c : PoAConsensus) : result unit * PoAConsensus :=
  if bool_decide (validators c = []) then (Raise ZeroDivisionError, c)
  else
    (Ok (),
     poa_with_current_leader_index
       ((current_leader_index c + 1) `mod` Z.of_nat (length (validators c)))
       c).

(** [PoAConsensus.can_propose_block], at the clock reading [now]. *)
Definition can_propose_block (now : Z) (c : PoAConsensus) : result bool :=
  match current_leader c with
  | Raise e => Raise e
  | Ok leader =>
      Ok (bool_decide (node_id (poa_node c) = leader)
          && bool_decide (now - last_block_time c >= block_time c))
  end.

Definition poa_sign_block (block : Block) (c : PoAConsensus) : string :=
  sign_message (private_key (poa_node c)) (str_block block).

(** [PoAConsensus.propose_block]. [now] is the reading of
    [can_propose_block], [clock] gives the readings of [create_block], and
    [now_end] is the one stored in [last_block_time]. As in PoS, with a
    monitoring object [record_block_produced(node_id)] lacks its second
    argument: a [TypeError], raised after the leader was rotated. *)
Definition poa_propose_block (now : Z) (clock : nat → Z) (now_end : Z)
    (c : PoAConsensus) : result (option Block) * PoAConsensus :=
  match can_propose_block now c with
  | Raise e => (Raise e, c)
  | Ok false => (Ok None, c)
  | Ok true =>
      let '(r, n) := create_block 0 false clock (poa_node c) in
      let c := poa_with_node n c in
      match r with
      | Raise e => (Raise e, c)
      | Ok None => (Ok None, c)
      | Ok (Some block) =>
          let signature := poa_sign_block block c in
          let c := poa_monitor
                     (record_message (node_id (poa_node c)) "poa_message"
                        1 0 0) c in
          let msg := mkBlockMsg (Some block) (Some signature)
                       (Some (node_id (poa_node c))) in
          let c := poa_with_node
                     (node_broadcast (env_poa_message msg) (poa_node c)) c in
          let c := poa_with_last_block_time now_end c in
          match rotate_leader c with
          | (Raise e, c) => (Raise e, c)
          | (Ok _, c) =>
              match poa_monitoring c with
              | Some _ => (Raise TypeError, c)
              | None => (Ok (Some block), c)
              end
          end
      end
  end.

(** ** The misbehaving node (node.py, [MaliciousNode]) *)

Definition with_base (x : Node) (m : MaliciousNode) : MaliciousNode :=
  mkMalicious x (_withholding_enabled m) (send_conflicting_blocks m)
    (ignore_consensus_messages m) (replay_attack_enabled m) (replay_queue m).

Definition with_replay_queue (x : list Transaction) (m : MaliciousNode)
  : MaliciousNode :=
  mkMalicious (base m) (_withholding_enabled m) (send_conflicting_blocks m)
    (ignore_consensus_messages m) (replay_attack_enabled m) x.

(** [MaliciousNode.__init__]: the switches are read from
    [behavior_config], each [False] when the key is missing. *)
Definition MaliciousNode_init (id : Z) (priv pem : string)
    (withhold_blocks conflicting ignore replay : bool)
    (mo : option (list mon_event)) : MaliciousNode :=
  mkMalicious (Node_init id priv pem mo) withhold_blocks conflicting ignore
    replay [].

(** [Node.release_withheld_block]; [MaliciousNode] overrides it with the
    same test and the same effect. *)
Definition release_withheld_block (n : Node) : Node :=
  match withheld_block n, network n with
  | Some b, Some _ =>
      with_withheld_block None (node_broadcast (env_block b) n)
  | _, _ => n
  end.

Definition mal_release_withheld_block (m : MaliciousNode) : MaliciousNode :=
  with_base (release_withheld_block (base m)) m.

(** [MaliciousNode._generate_conflicting_block]: a deep copy whose
    [previous_hash] is prefixed, whose first transaction is repeated at
    the end, and whose hash is recomputed. *)
Definition _generate_conflicting_block (original_block : Block) : Block :=
  let txs := match transactions original_block with
             | [] => []
             | t :: _ => transactions original_block ++ [t]
             end in
  let conflicting_block :=
    mkBlock (index original_block)
      ("conflict_" +:+ previous_hash original_block) txs
      (timestamp original_block) (nonce original_block)
      (hash original_block) in
  set_hash (compute_hash conflicting_block) conflicting_block.

(** [MaliciousNode.create_block]. In the conflicting mode the block is
    mined from the ledger's [pending_transactions] with the default
    [add_to_chain=True]; [clock 0] and [clock 1] are the two clock
    readings of the mining. The two blocks go out as [block.__dict__],
    their transactions still objects; the caller gets the dict with the
    transactions as dicts. *)
Definition mal_create_block (nonce : Z) (clock : nat → Z)
    (m : MaliciousNode) : result (option Block) * MaliciousNode :=
  if _withholding_enabled m then
    let '(r, n) := create_block nonce true clock (base m) in
    (r, with_base n m)
  else if send_conflicting_blocks m then
    let n := base m in
    let '(r, bc) := mine_pending_transactions (node_id n) nonce true
                      (clock 0%nat) (clock 1%nat) (blockchain n) in
    let n := with_blockchain bc n in
    match r with
    | Raise e => (Raise e, with_base n m)
    | Ok original_block =>
        let conflicting_block := _generate_conflicting_block original_block in
        let n := node_broadcast (env_block original_block) n in
        let n := node_broadcast (env_block conflicting_block) n in
        let n := with_mempool [] n in
        let n := monitor (record_block_produced (node_id n)
                            (index original_block)) n in
        (Ok (Some (block_as_dict original_block)), with_base n m)
    end
  else
    let '(r, n) := create_block nonce false clock (base m) in
    (r, with_base n m).

(** [MaliciousNode.receive_transaction]. [coin] is the outcome of
    [random.random() < 0.2] and [pick] the position [random.choice]
    draws in the queue. *)
Definition mal_receive_transaction (transaction_dict : Transaction)
    (coin : bool) (pick : nat) (m : MaliciousNode) : MaliciousNode :=
  let n := base m in
  let n :=
    if replay_attack_enabled m && coin then
      match replay_queue m !! (pick `mod` length (replay_queue m))%nat with
      | Some tx => node_broadcast (env_transaction tx) n
      | None => n
      end
    else n in
  let q := if bool_decide (50 < length (replay_queue m))%nat
           then drop 1 (replay_queue m) else replay_queue m in
  let m := with_replay_queue (q ++ [transaction_dict]) m in
  with_base (receive_transaction transaction_dict n) m.

(** [MaliciousNode.receive_block]. *)
Definition mal_receive_block (block_dict : Block) (confirmation_time : Z)
    (m : MaliciousNode) : MaliciousNode :=
  if ignore_consensus_messages m then m
  else with_base (receive_block block_dict confirmation_time (base m)).2 m.

(** ** The identity registry (identity_management.py) *)

(** A Python dict as an association list with one entry per key:
    [d.get(k)], [d[k] = v] (a new key goes to the end, a known key keeps
    its place) and [d.pop(k, None)]. *)
Fixpoint dict_get {V : Type} (k : Z) (d : list (Z * V)) : option V :=
  match d with
  | [] => None
  | (k', v) :: rest => if bool_decide (k' = k) then Some v else dict_get k rest
  end.

Fixpoint dict_set {V : Type} (k : Z) (v : V) (d : list (Z * V))
  : list (Z * V) :=
  match d with
  | [] => [(k, v)]
  | (k', v') :: rest =>
      if bool_decide (k' = k) then (k, v) :: rest
      else (k', v') :: dict_set k v rest
  end.

Definition dict_pop {V : Type} (k : Z) (d : list (Z * V)) : list (Z * V) :=
  filter (λ kv, kv.1 ≠ k) d.

(** [IdentityManagement.__init__]. *)
Definition IdentityManagement_init : IdentityManagement :=
  mkIdentityManagement [] [].

(** [IdentityManagement.is_registered]. *)
Definition is_registered (id : Z) (im : IdentityManagement) : bool :=
  bool_decide (id ∈ (node_registry im).*1).

(** [IdentityManagement.register_node]; [now] is the clock reading and
    [metadata or {}] turns a missing or empty metadata into [{}]. *)
Definition register_node (id : Z) (public_key_pem : string)
    (metadata : option (list (string * string))) (now : Z)
    (im : IdentityManagement) : bool * IdentityManagement :=
  if is_registered id im then (false, im)
  else
    (true,
     mkIdentityManagement
       (dict_set id (default [] metadata, now) (node_registry im))
       (dict_set id public_key_pem (id_public_keys im))).

(** [IdentityManagement.unregister_node]. *)
Definition unregister_node (id : Z) (im : IdentityManagement)
  : IdentityManagement :=
  mkIdentityManagement (dict_pop id (node_registry im))
    (dict_pop id (id_public_keys im)).

(** [IdentityManagement.get_node_info]. *)
Definition get_node_info (id : Z) (im : IdentityManagement)
  : option (list (string * string) * Z) :=
  dict_get id (node_registry im).

(** [IdentityManagement.get_public_key]. *)
Definition get_public_key (id : Z) (im : IdentityManagement) : option string :=
  dict_get id (id_public_keys im).

(** [IdentityManagement.list_nodes]. *)
Definition list_nodes (im : IdentityManagement) : list Z :=
  (node_registry im).*1.

(** * The vocabulary of the properties *)

(** The parameters a goal does not mention are dropped from the context
    before automation runs, so that no proof comes to depend on them. *)
Ltac drop_params :=
  try clear str_block; try clear serialize; try clear sign_message;
  try clear verify_signature; try clear load_public_key;
  try clear PublicKey; try clear dumps_block; try clear dumps_tx;
  try clear sha256.

(** Chain integrity, as the specification words it: every block after the
    first links to its predecessor and carries its recomputed hash. *)
Definition chain_integrity (bc : Blockchain) : Prop :=
  ∀ (i : nat) (prev cur : Block),
    chain bc !! i = Some prev →
    chain bc !! S i = Some cur →
    previous_hash cur = hash prev ∧ hash cur = compute_hash cur.

(** A sequence of [add_block] calls, each on the ledger the last one left. *)
Definition add_blocks (bs : list Block) (bc : Blockchain) : Blockchain :=
  foldl (λ bc b, (add_block b bc).2) bc bs.

(** The reward transaction of [mine_pending_transactions]. *)
Definition reward_of (miner_address : Z) (now_tx : Z) : Transaction :=
  mkTransaction Network_addr (Node_addr miner_address) 1 now_tx
    (Some (tx_compute_hash Network_addr (Node_addr miner_address) 1 now_tx)).

(** Every block sits at the position its [index] names. *)
Definition indexed_by_position (bc : Blockchain) : Prop :=
  ∀ (i : nat) (b : Block), chain bc !! i = Some b → index b = Z.of_nat i.

(** What the node's API can do between two calls of interest. *)
Inductive node_op : Type :=
| op_create_transaction (receiver amount now : Z)
| op_receive_transaction (d : Transaction)
| op_create_block (nonce : Z) (withhold : bool) (clock : nat → Z)
| op_receive_block (b : Block) (confirmation_time : Z)
| op_handle_sync_response (bs : list Block) (clock : nat → Z).

Definition run_op (o : node_op) (n : Node) : Node :=
  match o with
  | op_create_transaction r a now => (create_transaction r a now n).2
  | op_receive_transaction d => receive_transaction d n
  | op_create_block nonce w clock => (create_block nonce w clock n).2
  | op_receive_block b t => (receive_block b t n).2
  | op_handle_sync_response bs clock => handle_sync_response bs clock n
  end.

Definition run_ops (ops : list node_op) (n : Node) : Node :=
  foldl (λ n o, run_op o n) n ops.

(** The two seen-hash sets of a node. *)
Definition seen (n : Node) : gset (option string) * gset string :=
  (seen_transaction_hashes n, seen_block_hashes n).

Definition seen_le (n n' : Node) : Prop :=
  seen_transaction_hashes n ⊆ seen_transaction_hashes n'
  ∧ seen_block_hashes n ⊆ seen_block_hashes n'.

(** The duplicate is counted as dropped: the monitoring object of the node
    received one more [record_message(node_id, "transaction", dropped=1)]. *)
Definition counted_as_dropped (before after : Node) : Prop :=
  ∃ log, monitoring before = Some log
    ∧ monitoring after
      = Some (log ++ [record_message (node_id before) "transaction" 0 0 1]).

(** The message is authentic for the engine [c]: the sender's key is
    registered and loads, and the signature verifies over the text the
    receiver rebuilds. *)
Definition valid_signature (msg : PbftMsg) (c : PbftConsensus) : Prop :=
  ∃ pem key signature,
    public_keys (node c) !! msg_node_id msg = Some pem
    ∧ pem ≠ ""
    ∧ load_public_key pem = Some key
    ∧ msg_signature msg = Some signature
    ∧ verify_signature key
        (message_data (msg_type msg) (msg_view msg) (msg_seq msg)
           (msg_node_id msg) (msg_block msg))
        signature = true.

(** Not a duplicate by [(sender, type, seq)]. *)
Definition not_duplicate (msg : PbftMsg) (c : PbftConsensus) : Prop :=
  received_messages c !! (msg_node_id msg, msg_type msg, msg_seq msg) = None.

(** The state in which an authentic, fresh message reaches the dispatch. *)
Definition recorded (msg : PbftMsg) (c : PbftConsensus) : PbftConsensus :=
  let c1 := pbft_monitor
              (record_message (node_id (node c)) (msg_type msg) 0 1 0) c in
  with_received_messages
    (<[ (msg_node_id msg, msg_type msg, msg_seq msg) := msg ]>
       (received_messages c1)) c1.

(** The COMMIT an engine sends for a block at a sequence number. *)
Definition commit_message (block : Block) (seq : Z) (c : PbftConsensus)
  : PbftMsg :=
  mkPbftMsg COMMIT (current_view c) seq (node_id (node c)) (Some block)
    (Some (sign_message (private_key (node c))
             (message_data COMMIT (current_view c) seq (node_id (node c))
                (Some block)))).

(** The claim's reading of "broadcasts a sync request": the node's network
    was handed one more envelope, the request. *)
Definition broadcasts_sync_request (start_index end_index : Z)
    (c c' : PbftConsensus) : Prop :=
  ∃ out, network (node c) = Some out
    ∧ network (node c') = Some (out ++ [env_sync_request start_index end_index]).

(** A PoA or PoS message that passes the first test of [receive_message]. *)
Definition well_formed (msg : BlockMsg) (block : Block) (signature : string)
    (sender_id : Z) : Prop :=
  bm_block msg = Some block
  ∧ bm_signature msg = Some signature ∧ signature ≠ ""
  ∧ bm_sender_id msg = Some sender_id ∧ sender_id ≠ 0.

Definition stake_of (stakes : gmap Z Z) (id : Z) : Z :=
  default 0 (stakes !! id).

(** The cumulative stake at position [k] of the walk: the stakes of the
    validators at positions [0..k], summed. *)
Definition cumulative_stake (stakes : gmap Z Z) (vs : list Z) (k : nat) : Z :=
  foldr Z.add 0 (stake_of stakes <$> take (S k) vs).

(** [pick] is the first validator of the walk whose cumulative stake is at
    least [r]; no pick when no position reaches [r]. *)
Definition first_reaching (stakes : gmap Z Z) (r : Q) (vs : list Z)
    (pick : option Z) : Prop :=
  match pick with
  | Some id =>
      ∃ k : nat, vs !! k = Some id
        ∧ Qle r (inject_Z (cumulative_stake stakes vs k))
        ∧ ∀ j : nat, (j < k)%nat →
            ¬ Qle r (inject_Z (cumulative_stake stakes vs j))
  | None =>
      ∀ k : nat, (k < length vs)%nat →
        ¬ Qle r (inject_Z (cumulative_stake stakes vs k))
  end.

(** The PoS message a node sends for a block. *)
Definition pos_message_for (block : Block) (c : PoSConsensus) : BlockMsg :=
  mkBlockMsg (Some block)
    (Some (sign_message (private_key (pos_node c)) (str_block block)))
    (Some (node_id (pos_node c))).

(** The call [propose_block()] proposed [block]: the block was built on the
    tip, signed, and handed to the network if there is one; without a
    monitoring object the call returns it. *)
Definition proposes (block : Block) (r : Q) (clock : nat → Z)
    (c : PoSConsensus) : Prop :=
  let out := pos_propose_block r clock c in
  out.1 ≠ Ok None
  ∧ (pos_monitoring c = None → out.1 = Ok (Some block))
  ∧ Some (previous_hash block) = last_hash (pos_node c)
  ∧ hash block = compute_hash block
  ∧ network (pos_node out.2)
    = (λ o, o ++ [env_pos_message (pos_message_for block c)])
        <$> network (pos_node c).

(** Some adjacent pair of the chain is broken: the later block does not
    name the hash of the earlier one, or does not carry its own. *)
Definition broken_link (bc : Blockchain) : Prop :=
  ∃ (i : nat) (prev cur : Block),
    chain bc !! i = Some prev
    ∧ chain bc !! S i = Some cur
    ∧ (previous_hash cur ≠ hash prev ∨ hash cur ≠ compute_hash cur).

(** The transactions of a mempool all have their hash in the seen set, and
    no two of them have the same hash. *)
Definition mempool_ok (n : Node) : Prop :=
  NoDup (tx_hash <$> mempool n)
  ∧ ∀ tx, tx ∈ mempool n → tx_hash tx ∈ seen_transaction_hashes n.

(** A mempool entry that carries its own hash and a timestamp that is not
    zero: [create_block] rebuilds it as it is. *)
Definition self_hashed (tx : Transaction) : Prop :=
  tx_timestamp tx ≠ 0
  ∧ tx_hash tx
    = Some (tx_compute_hash (tx_sender tx) (tx_receiver tx) (tx_amount tx)
              (tx_timestamp tx)).

(** The ledger of a node only grows, and grows by valid links. *)
Definition ledger_grows (n n' : Node) : Prop :=
  chain (blockchain n) `prefix_of` chain (blockchain n')
  ∧ (chain_integrity (blockchain n) → chain_integrity (blockchain n')).

(** Two nodes that differ at most in what they sent, what they reported
    to monitoring, their trade counters and their withheld block. *)
Definition node_quiet (n n' : Node) : Prop :=
  node_id n' = node_id n
  ∧ blockchain n' = blockchain n
  ∧ mempool n' = mempool n
  ∧ public_keys n' = public_keys n
  ∧ private_key n' = private_key n
  ∧ seen n' = seen n.

(** Two engine states with the same ledger, keys, view, sequence number,
    receipt table and proposal guard: a step between them may have sent
    messages, moved votes, and reported to monitoring, nothing else. *)
Definition engine_quiet (c c' : PbftConsensus) : Prop :=
  node_quiet (node c) (node c')
  ∧ total_nodes c' = total_nodes c
  ∧ current_view c' = current_view c
  ∧ sequence_number c' = sequence_number c
  ∧ received_messages c' = received_messages c
  ∧ last_proposed_index c' = last_proposed_index c.

(** The message is refused as not authentic: no key is registered for its
    sender, or the key is there and the signature it carries does not
    verify. *)
Definition unauthenticated (msg : PbftMsg) (c : PbftConsensus) : Prop :=
  public_keys (node c) !! msg_node_id msg = None
  ∨ public_keys (node c) !! msg_node_id msg = Some ""
  ∨ ∃ pem key signature,
      public_keys (node c) !! msg_node_id msg = Some pem
      ∧ load_public_key pem = Some key
      ∧ msg_signature msg = Some signature
      ∧ verify_signature key
          (message_data (msg_type msg) (msg_view msg) (msg_seq msg)
             (msg_node_id msg) (msg_block msg))
          signature = false.

(** The message carries no signature, and its sender's key is registered
    and loads. *)
Definition unsigned (msg : PbftMsg) (c : PbftConsensus) : Prop :=
  msg_signature msg = None
  ∧ ∃ pem key,
      public_keys (node c) !! msg_node_id msg = Some pem
      ∧ pem ≠ ""
      ∧ load_public_key pem = Some key.

(** The PRE_PREPARE a primary sends for a block at a sequence number. *)
Definition pre_prepare_message (block : Block) (seq : Z) (c : PbftConsensus)
  : PbftMsg :=
  mkPbftMsg PRE_PREPARE (current_view c) seq (node_id (node c)) (Some block)
    (Some (sign_message (private_key (node c))
             (message_data PRE_PREPARE (current_view c) seq (node_id (node c))
                (Some block)))).

(** What no PBFT step touches: who the node is, the keys it knows, the
    size of the network, the view, and so the primary. *)
Definition same_membership (c c' : PbftConsensus) : Prop :=
  node_id (node c') = node_id (node c)
  ∧ public_keys (node c') = public_keys (node c)
  ∧ private_key (node c') = private_key (node c)
  ∧ total_nodes c' = total_nodes c
  ∧ current_view c' = current_view c.

(** The calls the simulation makes on a PBFT engine. *)
Inductive pbft_op : Type :=
  | op_pbft_receive (msg : PbftMsg) (now : Z)
  | op_pbft_propose (block : Block) (now : Z).

Definition run_pbft_op (o : pbft_op) (c : PbftConsensus) : PbftConsensus :=
  match o with
  | op_pbft_receive msg now => pbft_receive_message msg now c
  | op_pbft_propose block now => (pbft_propose_block block now c).2
  end.

Definition run_pbft_ops (ops : list pbft_op) (c : PbftConsensus)
  : PbftConsensus :=
  foldl (λ c o, run_pbft_op o c) c ops.

(** What every PBFT step keeps or only moves one way. *)
Definition pbft_progress (c c' : PbftConsensus) : Prop :=
  same_membership c c'
  ∧ sequence_number c <= sequence_number c'
  ∧ last_proposed_index c <= last_proposed_index c'
  ∧ malicious_nodes c ⊆ malicious_nodes c'
  ∧ message_log c `prefix_of` message_log c'
  ∧ ledger_grows (node c) (node c').

(** The REPLY an engine sends for a block at a sequence number. *)
Definition reply_message (block : Block) (seq : Z) (c : PbftConsensus)
  : PbftMsg :=
  mkPbftMsg REPLY (current_view c) seq (node_id (node c)) (Some block)
    (Some (sign_message (private_key (node c))
             (message_data REPLY (current_view c) seq (node_id (node c))
                (Some block)))).

(** [k] calls of [rotate_leader]. *)
Definition rotations (k : nat) (c : PoAConsensus) : PoAConsensus :=
  Nat.iter k (λ c, (rotate_leader c).2) c.

(** The PoA message a node sends for a block. *)
Definition poa_message_for (block : Block) (c : PoAConsensus) : BlockMsg :=
  mkBlockMsg (Some block)
    (Some (sign_message (private_key (poa_node c)) (str_block block)))
    (Some (node_id (poa_node c))).

(** The transactions delivered to a misbehaving node, each with the two
    random draws of its delivery. *)
Definition mal_receive_all (ds : list (Transaction * bool * nat))
    (m : MaliciousNode) : MaliciousNode :=
  foldl (λ m x, mal_receive_transaction x.1.1 x.1.2 x.2 m) m ds.

(** The calls that change an identity registry. *)
Inductive identity_op : Type :=
  | op_register (id : Z) (public_key_pem : string)
      (metadata : option (list (string * string))) (now : Z)
  | op_unregister (id : Z).

Definition run_identity_op (o : identity_op) (im : IdentityManagement)
  : IdentityManagement :=
  match o with
  | op_register id pem metadata now => (register_node id pem metadata now im).2
  | op_unregister id => unregister_node id im
  end.

Definition run_identity_ops (ops : list identity_op) (im : IdentityManagement)
  : IdentityManagement :=
  foldl (λ im o, run_identity_op o im) im ops.

(** The two tables of a registry list the same ids, in the same order,
    each once. *)
Definition registry_consistent (im : IdentityManagement) : Prop :=
  (node_registry im).*1 = (id_public_keys im).*1
  ∧ NoDup (node_registry im).*1.

(** No call of the sequence unregisters [id]. *)
Definition keeps_registered (id : Z) (ops : list identity_op) : Prop :=
  ∀ o, o ∈ ops → o ≠ op_unregister id.

(** [tx["tx_hash"]] can be read: the entry is a dict that has the key. *)
Definition hash_readable (v : tx_value) : Prop :=
  ∃ h, tx_hash_item v = Ok h.

(** The two comprehensions that [receive_block] runs after [add_block]
    go through: every transaction of the block is a dict with a
    [tx_hash], and so is every entry of the mempool. *)
Definition prunable (b : Block) (n : Node) : Prop :=
  Forall hash_readable (transactions b)
  ∧ Forall (λ tx, is_Some (tx_hash tx)) (mempool n).

(** The [tx_hash] values of a block's transactions, read as [.get] reads
    them. *)
Definition tx_hashes_of (b : Block) : list (option string) :=
  (tx_hash ∘ tx_fields) <$> transactions b.

(** * Properties *)

(** ** The ledger *)

Lemma last_block_Ok (bc : Blockchain) (tip : Block) :
  last_block bc = Ok tip ↔ last (chain bc) = Some tip.
Proof.
  unfold last_block. destruct (last (chain bc)); split; congruence.
Qed.

Lemma add_block_cases (B : Block) (bc : Blockchain) :
  add_block B bc = (Raise IndexError, bc) ∧ chain bc = []
  ∨ (∃ tip, last (chain bc) = Some tip
       ∧ (previous_hash B ≠ hash tip ∨ hash B ≠ compute_hash B)
       ∧ add_block B bc = (Ok false, bc))
  ∨ (∃ tip, last (chain bc) = Some tip
       ∧ previous_hash B = hash tip ∧ hash B = compute_hash B
       ∧ add_block B bc = (Ok true, mkBlockchain (chain bc ++ [B]) [])).
Proof.
  unfold add_block, last_block.
  destruct (last (chain bc)) as [tip|] eqn:Hlast.
  - right.
    destruct (decide (previous_hash B = hash tip)) as [Hp|Hp].
    + rewrite (bool_decide_eq_false_2 _ (λ H, H Hp)).
      destruct (decide (hash B = compute_hash B)) as [Hh|Hh].
      * rewrite (bool_decide_eq_false_2 _ (λ H, H Hh)).
        right. by exists tip.
      * rewrite (bool_decide_eq_true_2 _ Hh). left. exists tip. auto.
    + rewrite (bool_decide_eq_true_2 _ Hp). left. exists tip. auto.
  - left. split; [done|]. by apply last_None.
Qed.

Lemma chain_integrity_snoc (bc : Blockchain) (B tip : Block)
    (pend : list tx_value) :
  chain_integrity bc →
  last (chain bc) = Some tip →
  previous_hash B = hash tip →
  hash B = compute_hash B →
  chain_integrity (mkBlockchain (chain bc ++ [B]) pend).
Proof.
  intros Hinv Hlast Hprev Hhash i prev cur Hi HSi. simpl in *.
  rewrite last_lookup in Hlast.
  assert (Hlen : (S i < length (chain bc) + 1)%nat).
  { apply lookup_lt_Some in HSi. rewrite length_app in HSi. simpl in HSi. lia. }
  destruct (decide (S i < length (chain bc))%nat) as [Hlt|Hge].
  - rewrite lookup_app_l in Hi by lia.
    rewrite lookup_app_l in HSi by lia.
    eapply Hinv; eauto.
  - assert (Heq : S i = length (chain bc)) by lia.
    rewrite lookup_app_l in Hi by lia.
    rewrite lookup_app_r in HSi by lia.
    rewrite Heq, Nat.sub_diag in HSi. simpl in HSi.
    rewrite <- Heq in Hlast. simpl in Hlast.
    assert (cur = B) as -> by congruence.
    assert (prev = tip) as -> by congruence.
    done.
Qed.

(** One admission keeps the invariant, whatever its outcome. *)
Lemma add_block_preserves_integrity (B : Block) (bc : Blockchain) :
  chain_integrity bc → chain_integrity (add_block B bc).2.
Proof.
  intros Hinv.
  destruct (add_block_cases B bc)
    as [[-> _] | [(tip & _ & _ & ->) | (tip & Hl & Hp & Hh & ->)]]; simpl; auto.
  eapply chain_integrity_snoc; eauto.
Qed.

Lemma genesis_integrity : chain_integrity Blockchain_init.
Proof.
  intros i prev cur Hi HSi. simpl in HSi. by destruct i.
Qed.

Lemma add_blocks_preserve_integrity (bs : list Block) (bc : Blockchain) :
  chain_integrity bc → chain_integrity (add_blocks bs bc).
Proof.
  revert bc. induction bs as [|b bs IH]; intros bc Hinv; simpl; [done|].
  apply IH. by apply add_block_preserves_integrity.
Qed.

(** The scan of [is_chain_valid] decides the invariant. *)
Lemma links_valid_spec (prev : Block) (rest : list Block) :
  links_valid prev rest = true
  ↔ ∀ (i : nat) (p c : Block),
      (prev :: rest) !! i = Some p →
      (prev :: rest) !! S i = Some c →
      previous_hash c = hash p ∧ hash c = compute_hash c.
Proof.
  revert prev. induction rest as [|cur rest IH]; intros prev; simpl.
  - split; [|done]. intros _ i p c _ Hc. by destruct i.
  - destruct (decide (previous_hash cur = hash prev)) as [Hp|Hp].
    + rewrite (bool_decide_eq_false_2 _ (λ H, H Hp)).
      destruct (decide (hash cur = compute_hash cur)) as [Hh|Hh].
      * rewrite (bool_decide_eq_false_2 _ (λ H, H Hh)). rewrite IH.
        split.
        -- intros Hrest [|i] p c Hi HSi; simpl in *.
           ++ by simplify_eq.
           ++ by eapply Hrest.
        -- intros Hall i p c Hi HSi. by apply (Hall (S i)).
      * rewrite (bool_decide_eq_true_2 _ Hh). split; [done|].
        intros Hall. destruct (Hall 0%nat prev cur eq_refl eq_refl). done.
    + rewrite (bool_decide_eq_true_2 _ Hp). split; [done|].
      intros Hall. destruct (Hall 0%nat prev cur eq_refl eq_refl). done.
Qed.

Lemma is_chain_valid_spec (bc : Blockchain) :
  is_chain_valid bc = true ↔ chain_integrity bc.
Proof.
  unfold is_chain_valid, chain_integrity.
  destruct (chain bc) as [|first rest].
  - split; [|done]. intros _ i p c Hi. done.
  - apply links_valid_spec.
Qed.

(** C1. On the ledger of [Blockchain.__init__], after any sequence of
    [add_block] calls, every block after the genesis block has the hash of
    its predecessor as [previous_hash] and its own recomputed hash as
    [hash]; one more admission, accepted or refused, leaves a chain with
    the same property; and [is_chain_valid], the ledger's own scan, answers
    [True]. *)
Theorem chain_integrity_invariant (bs : list Block) (B : Block) :
  chain_integrity (add_blocks bs Blockchain_init)
  ∧ chain_integrity (add_block B (add_blocks bs Blockchain_init)).2
  ∧ is_chain_valid (add_blocks bs Blockchain_init) = true.
Proof.
  assert (H : chain_integrity (add_blocks bs Blockchain_init)).
  { apply add_blocks_preserve_integrity, genesis_integrity. }
  split; [done|]. split; [by apply add_block_preserves_integrity|].
  by apply is_chain_valid_spec.
Qed.

(** C2. On a ledger whose tip is [tip], [add_block B] returns [False] and
    leaves the ledger as it was when [B.previous_hash] differs from the
    tip's hash or [B.hash] from the recomputed hash; otherwise it returns
    [True], the chain is the old one with [B] appended and
    [pending_transactions] is the empty list. *)
Theorem add_block_spec (B : Block) (bc : Blockchain) (tip : Block) :
  last_block bc = Ok tip →
  (previous_hash B ≠ hash tip ∨ hash B ≠ compute_hash B →
     add_block B bc = (Ok false, bc))
  ∧ (¬ (previous_hash B ≠ hash tip ∨ hash B ≠ compute_hash B) →
     add_block B bc = (Ok true, mkBlockchain (chain bc ++ [B]) [])).
Proof.
  intros Htip. apply last_block_Ok in Htip.
  destruct (add_block_cases B bc)
    as [[_ Hnil] | [(t & Hl & Hbad & Heq) | (t & Hl & Hp & Hh & Heq)]].
  - rewrite Hnil in Htip. discriminate.
  - assert (t = tip) as -> by congruence. split; [done|].
    intros Hgood. by destruct Hgood.
  - assert (t = tip) as -> by congruence. split; [|done].
    intros [Hbad|Hbad]; congruence.
Qed.

Lemma tip_index_by_position (bc : Blockchain) (T : Block) :
  indexed_by_position bc →
  last (chain bc) = Some T →
  Z.of_nat (length (chain bc)) = index T + 1.
Proof.
  intros Hpos Hlast. rewrite last_lookup in Hlast.
  assert (length (chain bc) ≠ 0%nat).
  { intros H0. apply lookup_lt_Some in Hlast. lia. }
  rewrite (Hpos _ _ Hlast). lia.
Qed.

(** C8, as the code has it. On a ledger whose tip is [T],
    [mine_pending_transactions(miner, nonce, add)] appends to
    [pending_transactions] a transaction from ["Network"] to [miner] of
    amount 1 and returns a block over the extended list whose index is the
    LENGTH OF THE CHAIN, whose [previous_hash] is [T.hash] and whose hash is
    the recomputed one; when [add] is true that block is passed to
    [add_block] (which admits it), otherwise the ledger keeps the extended
    pending list. The index is [T.index + 1] when the blocks of the chain
    are indexed by position. *)
Theorem mine_pending_transactions_spec (miner nonce : Z) (add : bool)
    (now_tx now_block : Z) (bc : Blockchain) (T : Block) :
  last_block bc = Ok T →
  let reward := reward_of miner now_tx in
  let bc1 := mkBlockchain (chain bc)
               (pending_transactions bc ++ [tx_object reward]) in
  ∃ (blk : Block) (bc' : Blockchain),
    mine_pending_transactions miner nonce add now_tx now_block bc
      = (Ok blk, bc')
    ∧ tx_sender reward = Network_addr
    ∧ tx_receiver reward = Node_addr miner
    ∧ tx_amount reward = 1
    ∧ transactions blk = pending_transactions bc ++ [tx_object reward]
    ∧ index blk = Z.of_nat (length (chain bc))
    ∧ previous_hash blk = hash T
    ∧ hash blk = compute_hash blk
    ∧ (if add then add_block blk bc1 = (Ok true, bc') else bc' = bc1)
    ∧ (indexed_by_position bc → index blk = index T + 1).
Proof.
  intros Htip reward bc1.
  pose proof Htip as Hlast. apply last_block_Ok in Hlast.
  unfold mine_pending_transactions.
  change (Transaction_init Network_addr (Node_addr miner) 1 None now_tx)
    with reward.
  fold bc1.
  assert (Htip1 : last_block bc1 = Ok T) by (by apply last_block_Ok).
  rewrite Htip1.
  set (blk := set_hash _ _).
  assert (Hhash : hash blk = compute_hash blk) by reflexivity.
  assert (Hadd : add_block blk bc1
                 = (Ok true, mkBlockchain (chain bc1 ++ [blk]) [])).
  { destruct (add_block_cases blk bc1)
      as [[_ Hnil] | [(t & Hl & Hbad & _) | (t & _ & _ & _ & Heq)]]; [| |done].
    - simpl in Hnil. rewrite Hnil in Hlast. discriminate.
    - assert (t = T) as -> by (simpl in Hl; congruence).
      destruct Hbad as [Hbad|Hbad]; by destruct Hbad. }
  destruct add.
  - rewrite Hadd. eexists _, _. split; [reflexivity|].
    repeat split; try reflexivity; [exact Hadd|].
    intros Hpos. simpl. by apply tip_index_by_position.
  - eexists _, _. split; [reflexivity|].
    repeat split; try reflexivity.
    intros Hpos. simpl. by apply tip_index_by_position.
Qed.

(** ** The node runtime *)

Lemma seen_le_refl (n : Node) : seen_le n n.
Proof. by split. Qed.

Lemma seen_le_trans (n1 n2 n3 : Node) :
  seen_le n1 n2 → seen_le n2 n3 → seen_le n1 n3.
Proof. drop_params. intros [] []. split; set_solver. Qed.

Lemma seen_monitor (ev : mon_event) (n : Node) : seen (monitor ev n) = seen n.
Proof. unfold monitor. by destruct (monitoring n). Qed.

Lemma seen_node_broadcast (e : envelope) (n : Node) :
  seen (node_broadcast e n) = seen n.
Proof. unfold node_broadcast. by destruct (network n). Qed.

Lemma seen_le_of_eq (n n' : Node) : seen n' = seen n → seen_le n n'.
Proof. unfold seen, seen_le. intros [= -> ->]. done. Qed.

(** The confirmations logged by [receive_block] touch one field only. *)
Lemma log_confirmations_frame (hs : list string) (t : Z) (n : Node) :
  let n' := foldl (λ n h, _log_trade_confirmation h t n) n hs in
  blockchain n' = blockchain n ∧ mempool n' = mempool n
  ∧ seen n' = seen n ∧ monitoring n' = monitoring n
  ∧ network n' = network n ∧ node_id n' = node_id n.
Proof.
  revert n. induction hs as [|h hs IH]; intros n; simpl; [done|].
  destruct (IH (_log_trade_confirmation h t n)) as (-> & -> & -> & -> & -> & ->).
  done.
Qed.

(** A replayed block hash: the call answers [None] and only counts the
    drop. *)
Lemma receive_block_replayed (b : Block) (t : Z) (n : Node) :
  hash b ∈ seen_block_hashes n →
  receive_block b t n
  = (None, monitor (record_message (node_id n) "block" 0 0 1) n).
Proof.
  intros Hin. unfold receive_block. by rewrite bool_decide_eq_true_2.
Qed.

Lemma blockchain_monitor (ev : mon_event) (n : Node) :
  blockchain (monitor ev n) = blockchain n.
Proof. unfold monitor. by destruct (monitoring n). Qed.

Lemma mempool_monitor (ev : mon_event) (n : Node) :
  mempool (monitor ev n) = mempool n.
Proof. unfold monitor. by destruct (monitoring n). Qed.

(** The block a [receive_block] call rebuilds is the dict it was given. *)
Lemma rebuilt_block (b : Block) (t : Z) :
  set_hash (hash b)
    (Block_init (index b) (previous_hash b) (transactions b)
       (Some (timestamp b)) (nonce b) t) = b.
Proof. by destruct b. Qed.

Lemma block_tx_hashes_spec (txs : list tx_value) :
  match block_tx_hashes txs with
  | Ok hs =>
      Forall hash_readable txs ∧ Some <$> hs = (tx_hash ∘ tx_fields) <$> txs
  | Raise _ => ¬ Forall hash_readable txs
  end.
Proof. drop_params.
  induction txs as [|v txs IH]; cbn [block_tx_hashes]; [by split|].
  destruct (tx_hash_item v) as [h|e] eqn:Hv.
  - destruct (block_tx_hashes txs) as [hs|e'].
    + destruct IH as [IH1 IH2]. split.
      * constructor; [by exists h | done].
      * cbn. rewrite IH2. f_equal.
        destruct v as [t|t]; cbn in Hv; [done|].
        cbn. by destruct (tx_hash t); simplify_eq.
    + intros Hall. apply IH. by inversion Hall.
  - intros Hall. inversion Hall as [|? ? [h Hh] _]; subst. congruence.
Qed.

Lemma unmined_spec (hs : gset string) (mem : list Transaction) :
  match unmined hs mem with
  | Ok kept =>
      Forall (λ tx, is_Some (tx_hash tx)) mem
      ∧ kept = filter (λ tx, tx_hash tx ∉ (Some <$> elements hs)) mem
  | Raise _ => ¬ Forall (λ tx, is_Some (tx_hash tx)) mem
  end.
Proof. drop_params.
  induction mem as [|tx mem IH]; cbn [unmined]; [by split|].
  unfold tx_hash_item.
  destruct (tx_hash tx) as [h|] eqn:Hh.
  - destruct (unmined hs mem) as [kept|e].
    + destruct IH as [IH1 ->]. split; [constructor; [by eexists|done]|].
      rewrite filter_cons. rewrite Hh.
      assert (Hiff : h ∉ hs ↔ Some h ∉ Some <$> elements hs).
      { rewrite list_elem_of_fmap. split.
        - intros Hn (h' & [= <-] & Hin). by apply elem_of_elements in Hin.
        - intros Hn Hin. apply Hn. exists h. split; [done|].
          by apply elem_of_elements. }
      case_bool_decide as Hd.
      * rewrite decide_True by (by apply Hiff). done.
      * rewrite decide_False; [done|]. intros Hx. by apply Hiff in Hx.
    + intros Hall. apply IH. by inversion Hall.
  - intros Hall. inversion Hall as [|? ? [h Hx] _]; subst. congruence.
Qed.

Lemma prunable_dec (b : Block) (n : Node) :
  prunable b n
  ∨ (¬ prunable b n
     ∧ (match block_tx_hashes (transactions b) with
        | Raise _ => True
        | Ok hs =>
            match unmined (list_to_set hs) (mempool n) with
            | Raise _ => True
            | Ok _ => False
            end
        end)).
Proof. drop_params.
  pose proof (block_tx_hashes_spec (transactions b)) as Hb.
  destruct (block_tx_hashes (transactions b)) as [hs|e].
  - pose proof (unmined_spec (list_to_set hs) (mempool n)) as Hm.
    destruct (unmined (list_to_set hs) (mempool n)) as [kept|e].
    + left. split; [apply Hb | apply Hm].
    + right. split; [|done]. by intros [_ ?].
  - right. split; [|done]. by intros [? _].
Qed.

(** The outcomes of a first [receive_block] for a hash: the ledger
    refuses the block; or it appends it and a [tx_hash] lookup fails, and
    the answer is [False] all the same; or the block is admitted. *)
Lemma receive_block_fresh (b : Block) (t : Z) (n : Node) :
  hash b ∉ seen_block_hashes n →
  let n0 := with_seen_block_hashes ({[ hash b ]} ∪ seen_block_hashes n) n in
  ((receive_block b t n).1 = Some false
   ∧ (add_block b (blockchain n)).1 ≠ Ok true
   ∧ (receive_block b t n).2
     = with_blockchain (add_block b (blockchain n)).2 n0)
  ∨ ((receive_block b t n).1 = Some false
     ∧ add_block b (blockchain n)
       = (Ok true, mkBlockchain (chain (blockchain n) ++ [b]) [])
     ∧ ¬ prunable b n
     ∧ (receive_block b t n).2
       = with_blockchain (mkBlockchain (chain (blockchain n) ++ [b]) []) n0)
  ∨ ((receive_block b t n).1 = Some true
     ∧ add_block b (blockchain n)
       = (Ok true, mkBlockchain (chain (blockchain n) ++ [b]) [])
     ∧ prunable b n
     ∧ blockchain (receive_block b t n).2
       = mkBlockchain (chain (blockchain n) ++ [b]) []
     ∧ mempool (receive_block b t n).2
       = filter (λ tx, tx_hash tx ∉ tx_hashes_of b) (mempool n)
     ∧ seen (receive_block b t n).2 = seen n0).
Proof.
  intros Hnew n0. unfold receive_block.
  rewrite bool_decide_eq_false_2 by done. fold n0.
  rewrite rebuilt_block. change (blockchain n0) with (blockchain n).
  destruct (add_block_cases b (blockchain n))
    as [[-> _] | [(tip & _ & _ & ->) | (tip & Hl & Hp & Hh & ->)]].
  - left. by repeat split.
  - left. by repeat split.
  - right. cbn [fst snd].
    pose proof (block_tx_hashes_spec (transactions b)) as Hb.
    destruct (block_tx_hashes (transactions b)) as [hs|e].
    2:{ left. repeat split; try done. by intros [? _]. }
    change (mempool (with_blockchain ?bc n0)) with (mempool n).
    pose proof (unmined_spec (list_to_set hs) (mempool n)) as Hm.
    destruct (unmined (list_to_set hs) (mempool n)) as [kept|e].
    2:{ left. repeat split; try done. by intros [_ ?]. }
    right. destruct Hb as [Hb1 Hb2]. destruct Hm as [Hm1 Hm2].
    split; [done|]. split; [done|]. split; [by split|].
    match goal with |- context [foldl ?f ?a ?l] =>
      destruct (log_confirmations_frame l t a) as (H1 & H2 & H3 & _) end.
    cbv zeta in H1, H2, H3. cbn [fst snd]. rewrite H1, H2, H3.
    rewrite !blockchain_monitor, !mempool_monitor, !seen_monitor.
    split; [done|]. split; [|done]. cbn [mempool with_mempool].
    rewrite Hm2. apply list_filter_iff. intros tx.
    unfold tx_hashes_of. rewrite <- Hb2.
    rewrite !list_elem_of_fmap. split.
    + intros Hn (h & Heq & Hin). apply Hn. exists h. split; [done|].
      apply elem_of_elements. by apply elem_of_list_to_set.
    + intros Hn (h & Heq & Hin). apply Hn. exists h. split; [done|].
      apply elem_of_elements in Hin. by apply elem_of_list_to_set in Hin.
Qed.

(** [receive_block] marks the hash as seen on every path. *)
Lemma receive_block_marks (b : Block) (t : Z) (n : Node) :
  hash b ∈ seen_block_hashes (receive_block b t n).2.
Proof. drop_params.
  destruct (decide (hash b ∈ seen_block_hashes n)) as [Hin|Hnew].
  - rewrite receive_block_replayed by done. simpl.
    pose proof (seen_monitor (record_message (node_id n) "block" 0 0 1) n) as H.
    unfold seen in H. injection H as _ ->. done.
  - destruct (receive_block_fresh b t n Hnew)
      as [(_ & _ & ->)|[(_ & _ & _ & ->)|(_ & _ & _ & _ & _ & H)]].
    + simpl. set_solver.
    + simpl. set_solver.
    + unfold seen in H. injection H as _ ->. simpl. set_solver.
Qed.

Lemma receive_block_seen_le (b : Block) (t : Z) (n : Node) :
  seen_le n (receive_block b t n).2.
Proof. drop_params.
  destruct (decide (hash b ∈ seen_block_hashes n)) as [Hin|Hnew].
  - rewrite receive_block_replayed by done. simpl.
    apply seen_le_of_eq, seen_monitor.
  - destruct (receive_block_fresh b t n Hnew)
      as [(_ & _ & ->)|[(_ & _ & _ & ->)|(_ & _ & _ & _ & _ & H)]].
    + split; simpl; set_solver.
    + split; simpl; set_solver.
    + unfold seen_le. unfold seen in H. injection H as -> ->. simpl.
      split; set_solver.
Qed.

Lemma receive_transaction_seen_le (d : Transaction) (n : Node) :
  seen_le n (receive_transaction d n).
Proof. drop_params.
  unfold receive_transaction. case_bool_decide.
  - apply seen_le_of_eq. unfold _log_trade_failure.
    change (seen (with_trade_failure_count ?c ?m)) with (seen m).
    apply seen_monitor.
  - case_bool_decide.
    + split; simpl; set_solver.
    + unfold _log_trade_success.
      match goal with |- seen_le _ (with_trade_success_count _ (monitor ?ev ?m)) =>
        pose proof (seen_monitor ev m) as Hm end.
      unfold seen_le. unfold seen in Hm. simpl in *. injection Hm as -> ->.
      split; set_solver.
Qed.

Lemma create_transaction_seen_le (r a now : Z) (n : Node) :
  seen_le n (create_transaction r a now n).2.
Proof. drop_params.
  unfold create_transaction. case_bool_decide; simpl; [apply seen_le_refl|].
  match goal with |- seen_le _ (node_broadcast ?e (monitor ?ev ?m)) =>
    pose proof (seen_node_broadcast e (monitor ev m)) as H1;
    pose proof (seen_monitor ev m) as H2 end.
  unfold seen_le. unfold seen in H1, H2. simpl in *.
  injection H1 as -> ->. injection H2 as -> ->. split; set_solver.
Qed.

Lemma create_block_seen_le (nonce : Z) (w : bool) (clock : nat → Z) (n : Node) :
  seen_le n (create_block nonce w clock n).2.
Proof.
  unfold create_block. destruct (mempool n); [apply seen_le_refl|].
  destruct (mine_pending_transactions _ _ _ _ _ _) as [[blk|e] bc]; simpl.
  - destruct w; simpl; [by apply seen_le_of_eq|].
    apply seen_le_of_eq. by rewrite !seen_monitor.
  - by apply seen_le_of_eq.
Qed.

Lemma sync_blocks_seen_le (bs : list Block) (clock : nat → Z) (n : Node) :
  seen_le n (sync_blocks bs clock n).
Proof.
  revert clock n. induction bs as [|b bs IH]; intros clock n; simpl.
  - apply seen_le_refl.
  - eapply seen_le_trans; [|apply IH].
    case_bool_decide; [apply receive_block_seen_le | apply seen_le_refl].
Qed.

Lemma run_op_seen_le (o : node_op) (n : Node) : seen_le n (run_op o n).
Proof.
  destruct o; simpl.
  - apply create_transaction_seen_le.
  - apply receive_transaction_seen_le.
  - apply create_block_seen_le.
  - apply receive_block_seen_le.
  - unfold handle_sync_response.
    eapply seen_le_trans; [|apply sync_blocks_seen_le].
    apply seen_le_of_eq, seen_monitor.
Qed.

(** The seen-hash sets only grow. *)
Lemma run_ops_seen_le (ops : list node_op) (n : Node) :
  seen_le n (run_ops ops n).
Proof.
  revert n. induction ops as [|o ops IH]; intros n; simpl.
  - apply seen_le_refl.
  - eapply seen_le_trans; [apply run_op_seen_le | apply IH].
Qed.

Lemma seen_tx_monitor (ev : mon_event) (n : Node) :
  seen_transaction_hashes (monitor ev n) = seen_transaction_hashes n.
Proof. unfold monitor. by destruct (monitoring n). Qed.

Lemma receive_transaction_marks (d : Transaction) (n : Node) :
  tx_hash d ∈ seen_transaction_hashes (receive_transaction d n).
Proof.
  unfold receive_transaction. case_bool_decide as Hin.
  - unfold _log_trade_failure. simpl. by rewrite seen_tx_monitor.
  - case_bool_decide; simpl; [set_solver|].
    rewrite seen_tx_monitor. simpl. set_solver.
Qed.

(** A transaction whose hash was seen: nothing changes but the counters. *)
Lemma receive_transaction_replayed (d : Transaction) (n : Node) :
  tx_hash d ∈ seen_transaction_hashes n →
  receive_transaction d n
  = _log_trade_failure (tx_hash d)
      (monitor (record_message (node_id n) "transaction" 0 0 1) n).
Proof.
  intros Hin. unfold receive_transaction. by rewrite bool_decide_eq_true_2.
Qed.

(** C6, as the code has it. Once [receive_transaction] has been called
    with a transaction of some [tx_hash], whatever the node does next, a
    later call with a transaction of the same [tx_hash] leaves the mempool
    and the chain unchanged and records one trade failure; the duplicate is
    counted as dropped on the monitoring object WHEN THE NODE HAS ONE, and
    nowhere otherwise. *)
Theorem receive_transaction_idempotent (d d' : Transaction)
    (ops : list node_op) (n : Node) :
  tx_hash d' = tx_hash d →
  let n1 := run_ops ops (receive_transaction d n) in
  let n2 := receive_transaction d' n1 in
  mempool n2 = mempool n1
  ∧ blockchain n2 = blockchain n1
  ∧ seen_transaction_hashes n2 = seen_transaction_hashes n1
  ∧ trade_failure_count n2 = trade_failure_count n1 + 1
  ∧ trade_success_count n2 = trade_success_count n1
  ∧ (∀ log, monitoring n1 = Some log → counted_as_dropped n1 n2)
  ∧ (monitoring n1 = None → monitoring n2 = None).
Proof.
  intros Hh n1 n2.
  assert (Hseen : tx_hash d' ∈ seen_transaction_hashes n1).
  { rewrite Hh. destruct (run_ops_seen_le ops (receive_transaction d n)) as [Hle _].
    apply Hle, receive_transaction_marks. }
  subst n2. rewrite (receive_transaction_replayed d' n1 Hseen).
  unfold _log_trade_failure, monitor, counted_as_dropped.
  destruct (monitoring n1) as [log|] eqn:Hmon; simpl.
  - repeat split; try done.
    intros log' _. by exists log.
  - repeat split; try done.
Qed.

(** C7. After a [receive_block] call for a block of some hash, whatever
    the node does next, a call with a block of the same hash answers [None]
    and leaves the chain as it is; the first call itself appends at most
    one block. *)
Theorem receive_block_idempotent (b b' : Block) (t t' : Z)
    (ops : list node_op) (n : Node) :
  hash b' = hash b →
  let n1 := (receive_block b t n).2 in
  let n2 := run_ops ops n1 in
  (receive_block b' t' n2).1 = None
  ∧ chain (blockchain (receive_block b' t' n2).2) = chain (blockchain n2)
  ∧ (chain (blockchain n1) = chain (blockchain n)
     ∨ chain (blockchain n1) = chain (blockchain n) ++ [b]).
Proof.
  intros Hh n1 n2.
  assert (Hseen : hash b' ∈ seen_block_hashes n2).
  { rewrite Hh. destruct (run_ops_seen_le ops n1) as [_ Hle].
    apply Hle, receive_block_marks. }
  rewrite (receive_block_replayed b' t' n2 Hseen). simpl.
  rewrite blockchain_monitor. repeat split; try done.
  subst n1.
  destruct (decide (hash b ∈ seen_block_hashes n)) as [Hin|Hnew].
  - left. rewrite receive_block_replayed by done. simpl.
    by rewrite blockchain_monitor.
  - destruct (receive_block_fresh b t n Hnew)
      as [(_ & Hrej & ->)|[(_ & _ & _ & ->)|(_ & _ & _ & -> & _)]].
    + left. simpl.
      destruct (add_block_cases b (blockchain n))
        as [[-> _] | [(tip & _ & _ & ->) | (tip & _ & _ & _ & Heq)]]; try done.
      rewrite Heq in Hrej. by destruct Hrej.
    + by right.
    + by right.
Qed.

(** C10. [receive_block] records the hash before the ledger is asked: a
    block that [add_block] refuses is answered with [False], the chain is
    left alone, and the hash is in [seen_block_hashes]. From then on,
    whatever the node does and wherever its chain has moved, a call with a
    block of that hash returns [None] at once: only the drop is counted,
    the ledger is not asked again and the chain stays as it is. (An answer
    [False] is given on a first sight of the hash only; it does not by
    itself say that [add_block] refused: see [receive_block_fresh].) *)
Theorem rejected_block_never_retried (b b' : Block) (t t' : Z)
    (ops : list node_op) (n : Node) :
  hash b' = hash b →
  let n1 := (receive_block b t n).2 in
  let n2 := run_ops ops n1 in
  (hash b ∉ seen_block_hashes n →
   (add_block b (blockchain n)).1 ≠ Ok true →
   (receive_block b t n).1 = Some false
   ∧ chain (blockchain n1) = chain (blockchain n))
  ∧ ((receive_block b t n).1 = Some false → hash b ∉ seen_block_hashes n)
  ∧ hash b ∈ seen_block_hashes n1
  ∧ receive_block b' t' n2
    = (None, monitor (record_message (node_id n2) "block" 0 0 1) n2)
  ∧ blockchain (receive_block b' t' n2).2 = blockchain n2
  ∧ mempool (receive_block b' t' n2).2 = mempool n2.
Proof.
  intros Hh n1 n2.
  assert (Hmark : hash b ∈ seen_block_hashes n1) by apply receive_block_marks.
  assert (Hseen : hash b' ∈ seen_block_hashes n2).
  { rewrite Hh. destruct (run_ops_seen_le ops n1) as [_ Hle]. by apply Hle. }
  rewrite (receive_block_replayed b' t' n2 Hseen). simpl.
  rewrite blockchain_monitor, mempool_monitor.
  split; [|split; [|by repeat split]].
  - intros Hnew Hrej. subst n1.
    destruct (receive_block_fresh b t n Hnew)
      as [(Hr & _ & ->)|[(_ & Hadd & _)|(_ & Hadd & _)]].
    + split; [done|]. simpl.
      destruct (add_block_cases b (blockchain n))
        as [[-> _] | [(tip & _ & _ & ->) | (tip & _ & _ & _ & Heq)]]; try done.
      rewrite Heq in Hrej. by destruct Hrej.
    + rewrite Hadd in Hrej. by destruct Hrej.
    + rewrite Hadd in Hrej. by destruct Hrej.
  - intros Hfalse Hin. rewrite receive_block_replayed in Hfalse by done.
    discriminate.
Qed.

(** ** PBFT *)

Lemma pbft_monitor_frame (ev : mon_event) (c : PbftConsensus) :
  pbft_monitor ev c
  = with_pbft_monitoring (pbft_monitoring (pbft_monitor ev c)) c.
Proof.
  unfold pbft_monitor. destruct c as [? ? ? ? ? ? ? ? ? mo ? ?].
  by destruct mo.
Qed.

Lemma recorded_frame (msg : PbftMsg) (c : PbftConsensus) :
  node (recorded msg c) = node c
  ∧ total_nodes (recorded msg c) = total_nodes c
  ∧ current_view (recorded msg c) = current_view c
  ∧ prepared (recorded msg c) = prepared c
  ∧ committed (recorded msg c) = committed c
  ∧ message_log (recorded msg c) = message_log c.
Proof.
  unfold recorded. cbv zeta.
  rewrite (pbft_monitor_frame _ c). by repeat split.
Qed.

Lemma pbft_receive_message_dispatch (msg : PbftMsg) (now : Z)
    (c : PbftConsensus) :
  valid_signature msg c →
  not_duplicate msg c →
  pbft_receive_message msg now c
  = let c1 := recorded msg c in
    if bool_decide (msg_type msg = PRE_PREPARE) then
      on_pre_prepare (msg_block msg) (msg_seq msg) now c1
    else if bool_decide (msg_type msg = PREPARE) then
      on_prepare (msg_node_id msg) (msg_block msg) (msg_seq msg) c1
    else if bool_decide (msg_type msg = COMMIT) then
      on_commit (msg_node_id msg) (msg_block msg) (msg_seq msg) now c1
    else c1.
Proof.
  intros (pem & key & sig & Hpem & Hne & Hload & Hsig & Hver) Hdup.
  unfold pbft_receive_message. rewrite Hpem.
  rewrite bool_decide_eq_false_2 by done. rewrite Hload, Hsig, Hver. simpl.
  assert (Hrm : received_messages
                  (pbft_monitor
                     (record_message (node_id (node c)) (msg_type msg) 0 1 0) c)
                = received_messages c).
  { by rewrite (pbft_monitor_frame _ c). }
  rewrite Hrm. unfold not_duplicate in Hdup. rewrite Hdup.
  unfold recorded. cbv zeta. by rewrite Hrm.
Qed.

Lemma votes_of_add_vote (seq x : Z) (votes : gmap Z (gset Z)) :
  votes_of seq (add_vote seq x votes) = {[ x ]} ∪ votes_of seq votes.
Proof. unfold votes_of, add_vote. by rewrite lookup_insert_eq. Qed.

Lemma votes_of_add_vote_ne (seq seq' x : Z) (votes : gmap Z (gset Z)) :
  seq ≠ seq' → votes_of seq' (add_vote seq x votes) = votes_of seq' votes.
Proof. intros. unfold votes_of, add_vote. by rewrite lookup_insert_ne. Qed.

Lemma _send_commit_effect (block : Block) (seq : Z) (c : PbftConsensus) :
  let c' := _send_commit block seq c in
  message_log c' = message_log c ++ [commit_message block seq c]
  ∧ prepared c' = prepared c
  ∧ committed c' = committed c
  ∧ total_nodes c' = total_nodes c
  ∧ node_id (node c') = node_id (node c)
  ∧ network (node c')
    = (λ out, out ++ [env_pbft_message (commit_message block seq c)])
        <$> network (node c).
Proof.
  unfold _send_commit, broadcast, _sign_message, commit_message, pbft_monitor,
    node_broadcast.
  destruct c as [n ? ? ? ? ? ? ? ? mo ? ?]. simpl.
  destruct mo; simpl; destruct (network n) eqn:E; simpl; rewrite ?E;
    repeat apply conj; reflexivity.
Qed.

Lemma on_prepare_effect (sender_id : Z) (block : Block) (seq : Z)
    (c : PbftConsensus) :
  index block <= current_height (node c) + 1 →
  let c' := on_prepare sender_id (Some block) seq c in
  votes_of seq (prepared c') = {[ sender_id ]} ∪ votes_of seq (prepared c)
  ∧ (Z.of_nat (size (votes_of seq (prepared c'))) >= quorum c →
       message_log c' = message_log c ++ [commit_message block seq c]
       ∧ network (node c')
         = (λ out, out ++ [env_pbft_message (commit_message block seq c)])
             <$> network (node c)
       ∧ votes_of seq (committed c')
         = {[ node_id (node c) ]} ∪ votes_of seq (committed c))
  ∧ (Z.of_nat (size (votes_of seq (prepared c'))) < quorum c →
       message_log c' = message_log c
       ∧ network (node c') = network (node c)
       ∧ committed c' = committed c).
Proof.
  intros Hidx. unfold on_prepare.
  rewrite bool_decide_eq_false_2 by lia.
  set (c2 := with_prepared _ c).
  assert (Hvotes : votes_of seq (prepared c2)
                   = {[ sender_id ]} ∪ votes_of seq (prepared c)).
  { subst c2. simpl. apply votes_of_add_vote. }
  change (quorum c2) with (quorum c).
  case_bool_decide as Hq; cbv zeta.
  - set (c3 := pbft_monitor _ c2).
    destruct (_send_commit_effect block seq c3)
      as (He1 & He2 & He3 & He4 & He5 & He6).
    assert (Hc3 : c3 = with_pbft_monitoring (pbft_monitoring c3) c2)
      by apply pbft_monitor_frame.
    assert (Hcm : commit_message block seq c3 = commit_message block seq c).
    { rewrite Hc3. reflexivity. }
    rewrite Hcm in He1, He6.
    assert (Hml : message_log c3 = message_log c) by (by rewrite Hc3).
    assert (Hnode : node c3 = node c) by (by rewrite Hc3).
    assert (Hcom : committed c3 = committed c) by (by rewrite Hc3).
    assert (Hprep : prepared c3 = prepared c2) by (by rewrite Hc3).
    unfold with_committed.
    cbn [prepared committed message_log node].
    rewrite He2, Hprep, He1, He6, He5, He3, Hml, Hnode, Hcom.
    rewrite votes_of_add_vote.
    split; [exact Hvotes|]. split; [done|]. intros Hlt. lia.
  - split; [exact Hvotes|]. split; [intros Hge; lia|]. by intros _.
Qed.

(** C3. An engine receives a PREPARE that is validly signed, is not a
    duplicate by (sender, type, seq) and carries a block whose index is at
    most the tip's index plus one. Then the sender is added to
    [prepared[seq]]. With [Q = 2 * (N // 3) + 1] for [N = total_nodes]: if
    [prepared[seq]] now has at least [Q] members, the engine emits a COMMIT
    for the block (logged in [message_log], and handed to the network when
    one is attached) and adds its own node id to [committed[seq]];
    otherwise it emits nothing and [committed] is as before. *)
Theorem prepare_reaches_quorum (msg : PbftMsg) (block : Block) (now : Z)
    (c : PbftConsensus) :
  msg_type msg = PREPARE →
  valid_signature msg c →
  not_duplicate msg c →
  msg_block msg = Some block →
  index block <= current_height (node c) + 1 →
  let c' := pbft_receive_message msg now c in
  let seq := msg_seq msg in
  let Q := 2 * (total_nodes c `div` 3) + 1 in
  votes_of seq (prepared c') = {[ msg_node_id msg ]} ∪ votes_of seq (prepared c)
  ∧ (Z.of_nat (size (votes_of seq (prepared c'))) >= Q →
       message_log c' = message_log c ++ [commit_message block seq c]
       ∧ network (node c')
         = (λ out, out ++ [env_pbft_message (commit_message block seq c)])
             <$> network (node c)
       ∧ votes_of seq (committed c')
         = {[ node_id (node c) ]} ∪ votes_of seq (committed c))
  ∧ (Z.of_nat (size (votes_of seq (prepared c'))) < Q →
       message_log c' = message_log c
       ∧ network (node c') = network (node c)
       ∧ committed c' = committed c).
Proof.
  intros Hty Hsig Hdup Hblock Hidx c' seq Q.
  subst c'. rewrite (pbft_receive_message_dispatch msg now c Hsig Hdup).
  cbv zeta. rewrite Hty, Hblock.
  rewrite (bool_decide_eq_false_2 (PREPARE = PRE_PREPARE)) by done.
  rewrite (bool_decide_eq_true_2 (PREPARE = PREPARE)) by done.
  destruct (recorded_frame msg c) as (Hn & Ht & Hv & Hp & Hc & Hl).
  rewrite <- Hn in Hidx.
  pose proof (on_prepare_effect (msg_node_id msg) block seq (recorded msg c) Hidx)
    as Heff.
  cbv zeta in Heff. fold seq.
  assert (Hcm : commit_message block seq (recorded msg c)
                = commit_message block seq c).
  { unfold commit_message. by rewrite Hn, Hv. }
  assert (HQ : quorum (recorded msg c) = Q).
  { unfold quorum. by rewrite Ht. }
  rewrite Hcm, HQ, Hn, Hp, Hc, Hl in Heff. exact Heff.
Qed.

Lemma _trigger_sync_effect (start_index end_index : Z) (c : PbftConsensus) :
  let c' := _trigger_sync start_index end_index c in
  network (node c')
  = (λ out, out ++ [env_sync_request start_index end_index])
      <$> network (node c)
  ∧ message_log c' = message_log c
  ∧ prepared c' = prepared c
  ∧ committed c' = committed c
  ∧ round_start_time c' = round_start_time c.
Proof.
  unfold _trigger_sync, node_broadcast, pbft_monitor.
  destruct c as [n ? ? ? ? ? ? ? ? mo ? ?]. simpl.
  destruct (network n) eqn:E; simpl; rewrite ?E; [|by repeat apply conj].
  destruct mo; simpl; rewrite E; simpl; repeat apply conj; reflexivity.
Qed.

(** C4, as the code has it. An engine receives a PRE_PREPARE that is
    validly signed, is not a duplicate, and carries a block whose index is
    above the tip's index plus one. Then it returns without emitting a
    PREPARE (nothing is added to [message_log]) and without adding anyone to
    [prepared]; the sync request for [tip.index + 1 .. block.index] is
    broadcast WHEN THE NODE HAS A NETWORK, and nothing is sent otherwise. *)
Theorem pre_prepare_gap_triggers_sync (msg : PbftMsg) (block : Block)
    (now : Z) (c : PbftConsensus) :
  msg_type msg = PRE_PREPARE →
  valid_signature msg c →
  not_duplicate msg c →
  msg_block msg = Some block →
  index block > current_height (node c) + 1 →
  let c' := pbft_receive_message msg now c in
  let start_index := current_height (node c) + 1 in
  (∀ out, network (node c) = Some out →
     broadcasts_sync_request start_index (index block) c c')
  ∧ (network (node c) = None → network (node c') = None)
  ∧ message_log c' = message_log c
  ∧ prepared c' = prepared c
  ∧ committed c' = committed c
  ∧ round_start_time c' = round_start_time c.
Proof.
  intros Hty Hsig Hdup Hblock Hidx c' start_index.
  subst c'. rewrite (pbft_receive_message_dispatch msg now c Hsig Hdup).
  cbv zeta. rewrite Hty, Hblock.
  rewrite (bool_decide_eq_true_2 (PRE_PREPARE = PRE_PREPARE)) by done.
  destruct (recorded_frame msg c) as (Hn & Ht & Hv & Hp & Hc & Hl).
  assert (Hr : round_start_time (recorded msg c) = round_start_time c).
  { unfold recorded. cbv zeta. by rewrite (pbft_monitor_frame _ c). }
  unfold on_pre_prepare. rewrite Hn.
  rewrite bool_decide_eq_true_2 by lia. fold start_index.
  destruct (_trigger_sync_effect start_index (index block) (recorded msg c))
    as (E1 & E2 & E3 & E4 & E5).
  rewrite E1, E2, E3, E4, E5, Hn, Hl, Hp, Hc, Hr.
  unfold broadcasts_sync_request. rewrite E1, Hn.
  repeat apply conj; try reflexivity.
  - intros out Hout. exists out. by rewrite Hout.
  - by intros ->.
Qed.

(** ** PoA and PoS *)

(** C5, what the code does. For a message of the validator [sender_id],
    whose key is registered, [PoAConsensus.receive_message] raises
    [AttributeError] at [verify_signature.load_public_key], before the
    signature is looked at: the message is only counted as received, the
    block hash is not recorded, the node is not touched (no block admitted,
    no fork event), and the exception leaves the method. *)
Theorem poa_receive_message_raises (msg : BlockMsg) (block : Block)
    (signature pem : string) (sender_id : Z) (now : Z) (c : PoAConsensus) :
  well_formed msg block signature sender_id →
  sender_id ∈ validators c →
  public_keys (poa_node c) !! sender_id = Some pem →
  pem ≠ "" →
  let out := poa_receive_message msg now c in
  out.1 = Raise AttributeError
  ∧ out.2 = poa_monitor
              (record_message (node_id (poa_node c)) "poa_message" 0 1 0) c
  ∧ poa_node out.2 = poa_node c
  ∧ poa_received_blocks out.2 = poa_received_blocks c.
Proof.
  intros (Hb & Hs & Hsne & Hid & Hidne) Hval Hkey Hpem.
  unfold poa_receive_message. rewrite Hb, Hs, Hid. simpl.
  rewrite !bool_decide_eq_true_2 by done. simpl.
  set (c1 := poa_monitor _ c).
  assert (Hc1 : validators c1 = validators c ∧ poa_node c1 = poa_node c
                ∧ poa_received_blocks c1 = poa_received_blocks c).
  { subst c1. unfold poa_monitor. by destruct (poa_monitoring c). }
  destruct Hc1 as (Hv1 & Hn1 & Hr1).
  rewrite Hv1, Hn1. rewrite bool_decide_eq_false_2 by (intros Hn; by apply Hn).
  rewrite Hkey. rewrite bool_decide_eq_false_2 by done. simpl.
  by repeat apply conj.
Qed.

(** The PoS handler has the same line and fails the same way. *)
Lemma pos_receive_message_raises (msg : BlockMsg) (block : Block)
    (signature pem : string) (sender_id : Z) (now : Z) (c : PoSConsensus) :
  well_formed msg block signature sender_id →
  sender_id ∈ validator_set c →
  public_keys (pos_node c) !! sender_id = Some pem →
  pem ≠ "" →
  (pos_receive_message msg now c).1 = Raise AttributeError
  ∧ pos_node (pos_receive_message msg now c).2 = pos_node c
  ∧ pos_received_blocks (pos_receive_message msg now c).2
    = pos_received_blocks c.
Proof.
  intros (Hb & Hs & Hsne & Hid & Hidne) Hval Hkey Hpem.
  unfold pos_receive_message. rewrite Hb, Hs, Hid. simpl.
  rewrite !bool_decide_eq_true_2 by done. simpl.
  set (c1 := pos_monitor _ c).
  assert (Hc1 : validator_set c1 = validator_set c ∧ pos_node c1 = pos_node c
                ∧ pos_received_blocks c1 = pos_received_blocks c).
  { subst c1. unfold pos_monitor. by destruct (pos_monitoring c). }
  destruct Hc1 as (Hv1 & Hn1 & Hr1).
  rewrite Hv1, Hn1. rewrite bool_decide_eq_false_2 by (intros Hn; by apply Hn).
  rewrite Hkey. rewrite bool_decide_eq_false_2 by done. simpl.
  by repeat apply conj.
Qed.

(** A validator whose id is [0] is turned away earlier still: [not
    sender_id] holds of it, and the message is dropped as invalid. *)
Lemma poa_receive_message_sender_zero (msg : BlockMsg) (now : Z)
    (c : PoAConsensus) :
  bm_sender_id msg = Some 0 →
  poa_receive_message msg now c = (Ok (), c).
Proof.
  intros Hid. unfold poa_receive_message. rewrite Hid.
  destruct (bm_block msg), (bm_signature msg); simpl; try done.
  by rewrite andb_false_r.
Qed.

(** *** Stake-weighted selection, in the words of the specification *)

Lemma cumulative_stake_cons (stakes : gmap Z Z) (id : Z) (vs : list Z)
    (k : nat) :
  cumulative_stake stakes (id :: vs) (S k)
  = stake_of stakes id + cumulative_stake stakes vs k.
Proof. reflexivity. Qed.

Lemma cumulative_stake_head (stakes : gmap Z Z) (id : Z) (vs : list Z) :
  cumulative_stake stakes (id :: vs) 0 = stake_of stakes id.
Proof. unfold cumulative_stake. simpl. lia. Qed.

(** The loop, entered with the running sum [acc], finds the first position
    at which [acc] plus the cumulative stake reaches [r]. *)
Lemma select_from_first (stakes : gmap Z Z) (r : Q) (vs : list Z) (acc : Z) :
  match select_from stakes r acc vs with
  | Some id =>
      ∃ k : nat, vs !! k = Some id
        ∧ Qle r (inject_Z (acc + cumulative_stake stakes vs k))
        ∧ ∀ j : nat, (j < k)%nat →
            ¬ Qle r (inject_Z (acc + cumulative_stake stakes vs j))
  | None =>
      ∀ k : nat, (k < length vs)%nat →
        ¬ Qle r (inject_Z (acc + cumulative_stake stakes vs k))
  end.
Proof.
  revert acc. induction vs as [|id vs IH]; intros acc; simpl.
  - intros k Hk. lia.
  - fold (stake_of stakes id).
    destruct (Qle_bool r (inject_Z (acc + stake_of stakes id))) eqn:Hle.
    + exists 0%nat. rewrite cumulative_stake_head.
      split; [done|]. split; [by apply Qle_bool_iff|]. intros j Hj. lia.
    + assert (Hnle : ¬ Qle r (inject_Z (acc + stake_of stakes id))).
      { intros H. apply Qle_bool_iff in H. congruence. }
      specialize (IH (acc + stake_of stakes id)).
      destruct (select_from stakes r (acc + stake_of stakes id) vs) as [pick|].
      * destruct IH as (k & Hk & Hr & Hmin). exists (S k).
        rewrite cumulative_stake_cons, Z.add_assoc.
        split; [done|]. split; [done|].
        intros [|j] Hj.
        -- by rewrite cumulative_stake_head.
        -- rewrite cumulative_stake_cons, Z.add_assoc. apply Hmin. lia.
      * intros [|k] Hk.
        -- by rewrite cumulative_stake_head.
        -- rewrite cumulative_stake_cons, Z.add_assoc. apply IH. lia.
Qed.

Lemma select_validator_first (r : Q) (c : PoSConsensus) :
  first_reaching (balances c) r (validator_set c) (select_validator r c).1.
Proof.
  pose proof (select_from_first (balances c) r (validator_set c) 0) as H.
  unfold select_validator.
  destruct (select_from (balances c) r 0 (validator_set c)) as [id|]; simpl.
  - destruct H as (k & Hk & Hr & Hmin). exists k.
    split; [done|]. split; [exact Hr|]. exact Hmin.
  - exact H.
Qed.

Lemma select_validator_frame (r : Q) (c : PoSConsensus) :
  pos_node (select_validator r c).2 = pos_node c
  ∧ pos_monitoring (select_validator r c).2 = pos_monitoring c.
Proof.
  unfold select_validator.
  by destruct (select_from (balances c) r 0 (validator_set c)).
Qed.

(** The dict of a block hashes as the block does. *)
Lemma compute_hash_block_as_dict (b : Block) :
  compute_hash (block_as_dict b) = compute_hash b.
Proof.
  unfold compute_hash, block_as_dict. cbn.
  rewrite <- list_fmap_compose. by do 2 f_equal.
Qed.

(** [create_block()] on a node with transactions waiting and a chain: the
    block it mines, and what it leaves of the node. *)
Lemma create_block_mines (clock : nat → Z) (n : Node) (T : Block) :
  mempool n ≠ [] →
  last (chain (blockchain n)) = Some T →
  ∃ (block : Block) (n' : Node),
    create_block 0 false clock n = (Ok (Some block), n')
    ∧ previous_hash block = hash T
    ∧ hash block = compute_hash block
    ∧ network n' = network n
    ∧ node_id n' = node_id n
    ∧ private_key n' = private_key n
    ∧ chain (blockchain n') = chain (blockchain n)
    ∧ mempool n' = mempool n.
Proof.
  intros Hmem Hlast. unfold create_block.
  destruct (mempool n) as [|tx0 rest] eqn:Hm; [done|].
  unfold mine_pending_transactions. cbn [chain pending_transactions].
  assert (Htip : ∀ p, last_block (mkBlockchain (chain (blockchain n)) p) = Ok T).
  { intros p. by apply last_block_Ok. }
  rewrite Htip. cbv zeta. cbn [fst snd].
  eexists _, _. split; [reflexivity|].
  split; [reflexivity|].
  split; [by rewrite compute_hash_block_as_dict|].
  unfold monitor. destruct n as [? ? ? ? mo ? ? ? ? ? ? ? ?].
  simpl in Hm. subst. destruct mo; simpl; repeat apply conj; reflexivity.
Qed.

Lemma create_block_empty (nonce : Z) (w : bool) (clock : nat → Z) (n : Node) :
  mempool n = [] → create_block nonce w clock n = (Ok None, n).
Proof. intros Hm. unfold create_block. by rewrite Hm. Qed.

(** C9, as the code has it. [total_staked] is set to the sum of the staking
    balances. For the value [r] drawn, [select_validator] walks [validator_set] accumulating stakes and returns
    the first validator whose cumulative stake is at least [r];
    [can_propose] holds exactly when the node's id is that pick. The node
    proposes a block exactly when its id is the pick AND ITS MEMPOOL IS NOT
    EMPTY: otherwise [propose_block] returns [None] and the node is as it
    was. *)
Theorem pos_leader_selection (r : Q) (clock : nat → Z) (c : PoSConsensus)
    (n0 : Node) (vs0 : list Z) (stakes0 : gmap Z Z)
    (mo0 : option (list mon_event)) :
  let pick := (select_validator r c).1 in
  let me := node_id (pos_node c) in
  total_staked (PoS_init n0 vs0 stakes0 mo0) = sum_values stakes0
  ∧ first_reaching (balances c) r (validator_set c) pick
  ∧ ((can_propose r c).1 = true ↔ pick = Some me)
  ∧ (¬ (pick = Some me ∧ mempool (pos_node c) ≠ []) →
       (pos_propose_block r clock c).1 = Ok None
       ∧ pos_node (pos_propose_block r clock c).2 = pos_node c)
  ∧ (pick = Some me ∧ mempool (pos_node c) ≠ [] →
       ∀ T, last (chain (blockchain (pos_node c))) = Some T →
         ∃ block, proposes block r clock c).
Proof.
  intros pick me. split; [reflexivity|].
  split; [apply select_validator_first|].
  destruct (select_validator_frame r c) as [Hnode Hmon].
  assert (Hcan : (can_propose r c).1 = true ↔ pick = Some me).
  { unfold can_propose. subst pick me.
    destruct (select_validator r c) as [sel c1]. simpl in *.
    rewrite Hnode. rewrite bool_decide_eq_true. split; congruence. }
  split; [exact Hcan|].
  unfold proposes, pos_propose_block. cbv zeta.
  unfold can_propose in *. subst pick me.
  destruct (select_validator r c) as [sel c1]. simpl in Hnode, Hmon, Hcan.
  cbn [fst snd] in *. rewrite Hnode in *.
  split.
  - intros Hnot.
    destruct (bool_decide (Some (node_id (pos_node c)) = sel)) eqn:Hb.
    + destruct (mempool (pos_node c)) as [|tx0 rest] eqn:Hm.
      * rewrite create_block_empty by done. by simpl.
      * exfalso. apply Hnot. split; [by apply Hcan|done].
    + simpl. done.
  - intros [Hpick Hmem] T Hlast.
    apply Hcan in Hpick. rewrite Hpick.
    destruct (create_block_mines (λ i, clock (S i)) (pos_node c) T Hmem Hlast)
      as (block & n' & Hcb & Hprev & Hhash & Hnet & Hid & Hkey & _).
    exists block. rewrite Hcb. cbn [fst snd].
    unfold pos_message_for, pos_sign_block, pos_monitor, node_broadcast, last_hash.
    rewrite Hlast. simpl.
    destruct c1 as [? ? ? ? ? ? ? mo1]. simpl in *. subst.
    destruct (pos_monitoring c) as [log|] eqn:Hmo; simpl;
      rewrite Hnet, Hid, Hkey, Hprev;
      destruct (network (pos_node c)) eqn:Hnw; simpl; rewrite ?Hnet, ?Hnw;
      repeat apply conj; try done.
Qed.

(** ** More of the ledger *)

Lemma add_blocks_append (bs : list Block) (bc : Blockchain) :
  ∃ admitted : list Block,
    chain (add_blocks bs bc) = chain bc ++ admitted ∧ sublist admitted bs.
Proof.
  revert bc. induction bs as [|b bs IH]; intros bc; simpl.
  - exists []. by rewrite app_nil_r.
  - destruct (IH (add_block b bc).2) as (adm & Hchain & Hsub).
    destruct (add_block_cases b bc)
      as [[Heq _] | [(tip & _ & _ & Heq) | (tip & _ & _ & _ & Heq)]];
      rewrite Heq in Hchain |- *; simpl in Hchain |- *.
    + exists adm. split; [done|]. by apply sublist_cons.
    + exists adm. split; [done|]. by apply sublist_cons.
    + exists (b :: adm). rewrite <- app_assoc in Hchain.
      split; [done|]. by apply sublist_skip.
Qed.

(** X1. The ledger is append-only: a sequence of [add_block] calls never
    removes or rewrites a block, and what it appends are blocks among those
    offered, in the order they were offered. *)
Theorem ledger_append_only (bs : list Block) (bc : Blockchain) :
  ∃ admitted : list Block,
    chain (add_blocks bs bc) = chain bc ++ admitted
    ∧ sublist admitted bs
    ∧ (length (chain bc) <= length (chain (add_blocks bs bc))
       <= length (chain bc) + length bs)%nat.
Proof.
  destruct (add_blocks_append bs bc) as (adm & Hchain & Hsub).
  exists adm. split; [done|]. split; [done|].
  rewrite Hchain, length_app. apply sublist_length in Hsub. lia.
Qed.

Lemma links_valid_false (prev : Block) (rest : list Block) :
  links_valid prev rest = false
  ↔ ∃ (i : nat) (p c : Block),
      (prev :: rest) !! i = Some p
      ∧ (prev :: rest) !! S i = Some c
      ∧ (previous_hash c ≠ hash p ∨ hash c ≠ compute_hash c).
Proof.
  revert prev. induction rest as [|cur rest IH]; intros prev; simpl.
  - split; [done|]. intros (i & p & c & _ & Hc & _). by destruct i.
  - destruct (decide (previous_hash cur = hash prev)) as [Hp|Hp].
    + rewrite (bool_decide_eq_false_2 _ (λ H, H Hp)).
      destruct (decide (hash cur = compute_hash cur)) as [Hh|Hh].
      * rewrite (bool_decide_eq_false_2 _ (λ H, H Hh)). rewrite IH.
        split.
        -- intros (i & p & c & Hi & HSi & Hbad). by exists (S i), p, c.
        -- intros ([|i] & p & c & Hi & HSi & Hbad); simpl in *.
           ++ simplify_eq. by destruct Hbad.
           ++ by exists i, p, c.
      * rewrite (bool_decide_eq_true_2 _ Hh). split; [|done].
        intros _. exists 0%nat, prev, cur. auto.
    + rewrite (bool_decide_eq_true_2 _ Hp). split; [|done].
      intros _. exists 0%nat, prev, cur. auto.
Qed.

(** X2. [is_chain_valid] answers [False] exactly when some block after
    the first does not name its predecessor's hash or does not carry its
    own recomputed hash; the hash of the first block is never looked at. *)
Theorem is_chain_valid_false_iff (bc : Blockchain) :
  is_chain_valid bc = false ↔ broken_link bc.
Proof.
  unfold is_chain_valid, broken_link.
  destruct (chain bc) as [|first rest].
  - split; [done|]. by intros (i & p & c & Hi & _).
  - apply links_valid_false.
Qed.

(** ** More of the node runtime *)

Lemma seen_blk_monitor (ev : mon_event) (n : Node) :
  seen_block_hashes (monitor ev n) = seen_block_hashes n.
Proof. unfold monitor. by destruct (monitoring n). Qed.

Lemma receive_block_admitted (b : Block) (t : Z) (n : Node) (bc : Blockchain) :
  hash b ∉ seen_block_hashes n →
  add_block b (blockchain n) = (Ok true, bc) →
  prunable b n →
  (receive_block b t n).1 = Some true
  ∧ blockchain (receive_block b t n).2 = bc
  ∧ mempool (receive_block b t n).2
    = filter (λ tx, tx_hash tx ∉ tx_hashes_of b) (mempool n)
  ∧ seen_transaction_hashes (receive_block b t n).2 = seen_transaction_hashes n
  ∧ seen_block_hashes (receive_block b t n).2
    = {[ hash b ]} ∪ seen_block_hashes n.
Proof.
  intros Hnew Hadd Hpr.
  destruct (receive_block_fresh b t n Hnew)
    as [(_ & Hno & _)|[(_ & _ & Hnp & _)|(Hr & Hadd' & _ & Hbc & Hm & Hs)]].
  - rewrite Hadd in Hno. by destruct Hno.
  - by destruct Hnp.
  - rewrite Hadd in Hadd'. injection Hadd' as ->.
    pose proof (f_equal fst Hs) as Hsa. pose proof (f_equal snd Hs) as Hsb.
    by repeat split.
Qed.

(** A new block that [add_block] takes is in the ledger afterwards,
    whatever the answer. *)
Lemma receive_block_appended (b : Block) (t : Z) (n : Node) (bc : Blockchain) :
  hash b ∉ seen_block_hashes n →
  add_block b (blockchain n) = (Ok true, bc) →
  blockchain (receive_block b t n).2 = bc
  ∧ seen_transaction_hashes (receive_block b t n).2 = seen_transaction_hashes n
  ∧ seen_block_hashes (receive_block b t n).2
    = {[ hash b ]} ∪ seen_block_hashes n
  ∧ ((receive_block b t n).1 = Some true ↔ prunable b n)
  ∧ ((receive_block b t n).1 = Some false ↔ ¬ prunable b n).
Proof.
  intros Hnew Hadd.
  destruct (receive_block_fresh b t n Hnew)
    as [(_ & Hno & _)|[(Hr & Hadd' & Hnp & ->)|(Hr & Hadd' & Hp & Hbc & Hm & Hs)]].
  - rewrite Hadd in Hno. by destruct Hno.
  - rewrite Hadd in Hadd'. injection Hadd' as ->. rewrite Hr.
    split; [done|]. split; [done|]. split; [done|].
    split; split; try done; by intros ?.
  - rewrite Hadd in Hadd'. injection Hadd' as ->. rewrite Hr.
    pose proof (f_equal fst Hs) as Hsa. pose proof (f_equal snd Hs) as Hsb.
    split; [done|]. split; [done|]. split; [done|].
    split; split; try done; by intros ?.
Qed.

(** An answer that is not [True] leaves the mempool as it was. *)
Lemma receive_block_not_admitted (b : Block) (t : Z) (n : Node) :
  (receive_block b t n).1 ≠ Some true →
  mempool (receive_block b t n).2 = mempool n
  ∧ seen_transaction_hashes (receive_block b t n).2 = seen_transaction_hashes n.
Proof.
  intros Hno.
  destruct (decide (hash b ∈ seen_block_hashes n)) as [Hin|Hnew].
  - rewrite receive_block_replayed by done. simpl.
    by rewrite mempool_monitor, seen_tx_monitor.
  - destruct (receive_block_fresh b t n Hnew)
      as [(_ & _ & ->)|[(_ & _ & _ & ->)|(Hyes & _)]]; done.
Qed.

(** One step of a node's ledger: it stays, or grows by one block, new to
    the node, that links to the tip and carries its recomputed hash. *)
Lemma receive_block_chain_step (b : Block) (t : Z) (n : Node) :
  (blockchain (receive_block b t n).2 = blockchain n
   ∧ (receive_block b t n).1 ≠ Some true)
  ∨ (hash b ∉ seen_block_hashes n)
    ∧ ∃ tip, last (chain (blockchain n)) = Some tip
        ∧ previous_hash b = hash tip ∧ hash b = compute_hash b
        ∧ blockchain (receive_block b t n).2
          = mkBlockchain (chain (blockchain n) ++ [b]) [].
Proof.
  destruct (decide (hash b ∈ seen_block_hashes n)) as [Hin|Hnew].
  { left. rewrite receive_block_replayed by done. simpl.
    by rewrite blockchain_monitor. }
  assert (Htip : add_block b (blockchain n)
                 = (Ok true, mkBlockchain (chain (blockchain n) ++ [b]) []) →
                 ∃ tip, last (chain (blockchain n)) = Some tip
                   ∧ previous_hash b = hash tip ∧ hash b = compute_hash b).
  { intros Hadd.
    destruct (add_block_cases b (blockchain n))
      as [[Heq _] | [(tip & _ & _ & Heq) | (tip & Hl & Hp & Hh & _)]];
      [congruence | congruence |].
    by exists tip. }
  destruct (receive_block_fresh b t n Hnew)
    as [(Hr & Hrej & ->)|[(_ & Hadd & _ & ->)|(_ & Hadd & _ & Hbc & _)]].
  - left. rewrite Hr. split; [|done]. simpl.
    destruct (add_block_cases b (blockchain n))
      as [[-> _] | [(tip & _ & _ & ->) | (tip & _ & _ & _ & Heq)]];
      try (by destruct (blockchain n)).
    rewrite Heq in Hrej. by destruct Hrej.
  - right. split; [done|]. destruct (Htip Hadd) as (tip & ? & ? & ?).
    by exists tip.
  - right. split; [done|]. destruct (Htip Hadd) as (tip & ? & ? & ?).
    by exists tip.
Qed.

Lemma snoc_ne_self {A : Type} (l : list A) (x : A) : l ++ [x] ≠ l.
Proof. drop_params.
  intros Heq. apply (f_equal length) in Heq. rewrite length_app in Heq.
  cbn in Heq. lia.
Qed.

(** X3. What [receive_block] does and answers. [None] comes exactly for a
    hash seen before. The chain gains the block, and nothing else,
    exactly when the hash is new and the block names the tip's hash and
    carries its own recomputed hash, whatever the answer is. [True] is
    answered exactly when, besides, every transaction of the block is a
    dict with a [tx_hash] and so is every entry of the mempool; when one
    of them is not, the answer is [False] although the block is in the
    chain. *)
Theorem receive_block_outcome (b : Block) (t : Z) (n : Node) :
  let out := receive_block b t n in
  let links := ∃ tip, last (chain (blockchain n)) = Some tip
                 ∧ previous_hash b = hash tip ∧ hash b = compute_hash b in
  (out.1 = None ↔ hash b ∈ seen_block_hashes n)
  ∧ (chain (blockchain out.2) = chain (blockchain n) ++ [b]
     ↔ (hash b ∉ seen_block_hashes n) ∧ links)
  ∧ (chain (blockchain out.2) ≠ chain (blockchain n) ++ [b] →
     chain (blockchain out.2) = chain (blockchain n))
  ∧ (out.1 = Some true
     ↔ (hash b ∉ seen_block_hashes n) ∧ links ∧ prunable b n)
  ∧ (out.1 = Some false ∧ chain (blockchain out.2) = chain (blockchain n) ++ [b]
     ↔ (hash b ∉ seen_block_hashes n) ∧ links ∧ ¬ prunable b n).
Proof.
  intros out links. subst out links.
  destruct (decide (hash b ∈ seen_block_hashes n)) as [Hin|Hnew].
  { rewrite receive_block_replayed by done. simpl.
    rewrite blockchain_monitor.
    split; [done|].
    split; [split; [by intros ?%eq_sym%snoc_ne_self | by intros [? _]]|].
    split; [done|].
    split; [split; [done | by intros [? _]]|].
    split; [by intros [? _] | by intros [? _]]. }
  assert (Hone : ∀ tip tip', last (chain (blockchain n)) = Some tip →
                             last (chain (blockchain n)) = Some tip' →
                             tip' = tip) by (intros; congruence).
  destruct (receive_block_fresh b t n Hnew)
    as [(Hr & Hrej & Hst)|[(Hr & Hadd & Hnp & Hst)|(Hr & Hadd & Hp & Hbc & _)]].
  - assert (Hnl : ¬ ∃ tip, last (chain (blockchain n)) = Some tip
                    ∧ previous_hash b = hash tip ∧ hash b = compute_hash b).
    { intros (tip & Hl & Hp & Hh).
      destruct (add_block_cases b (blockchain n))
        as [[_ Hnil] | [(tip' & Hl' & Hbad & _) | (tip' & _ & _ & _ & Heq)]].
      - apply last_None in Hnil. congruence.
      - rewrite (Hone _ _ Hl Hl') in Hbad. by destruct Hbad.
      - rewrite Heq in Hrej. by destruct Hrej. }
    assert (Hch : chain (blockchain (receive_block b t n).2)
                  = chain (blockchain n)).
    { rewrite Hst. simpl.
      destruct (add_block_cases b (blockchain n))
        as [[-> _] | [(tip & _ & _ & ->) | (tip & _ & _ & _ & Heq)]];
        try done.
      rewrite Heq in Hrej. by destruct Hrej. }
    rewrite Hr, Hch.
    split; [done|].
    split; [split; [by intros ?%eq_sym%snoc_ne_self | by intros [_ ?]]|].
    split; [done|].
    split; [split; [done | by intros (_ & ? & _)]|].
    split; [by intros [_ ?%eq_sym%snoc_ne_self] | by intros (_ & ? & _)].
  - assert (Hl : ∃ tip, last (chain (blockchain n)) = Some tip
                   ∧ previous_hash b = hash tip ∧ hash b = compute_hash b).
    { destruct (add_block_cases b (blockchain n))
        as [[Heq _] | [(tip & _ & _ & Heq) | (tip & Hl & Hp & Hh & _)]];
        [congruence | congruence |].
      by exists tip. }
    rewrite Hr, Hst. simpl.
    split; [done|]. split; [done|]. split; [done|].
    split; [split; [done | by intros (_ & _ & ?)]|]. done.
  - assert (Hl : ∃ tip, last (chain (blockchain n)) = Some tip
                   ∧ previous_hash b = hash tip ∧ hash b = compute_hash b).
    { destruct (add_block_cases b (blockchain n))
        as [[Heq _] | [(tip & _ & _ & Heq) | (tip & Hl & Hp' & Hh & _)]];
        [congruence | congruence |].
      by exists tip. }
    rewrite Hr, Hbc. simpl.
    split; [done|]. split; [done|]. split; [done|]. split; [done|].
    split; [by intros [? _] | by intros (_ & _ & ?)].
Qed.

(** X4. A block answered with [True] clears the mempool of its own
    transactions and of nothing else: what stays are the entries whose
    [tx_hash] is not in the block, in the order they had. A call with any
    other answer leaves the mempool as it is. *)
Theorem receive_block_prunes_mempool (b : Block) (t : Z) (n : Node) :
  let out := receive_block b t n in
  (out.1 = Some true →
     (∀ tx, tx ∈ mempool out.2
            ↔ tx ∈ mempool n ∧ tx_hash tx ∉ tx_hashes_of b)
     ∧ sublist (mempool out.2) (mempool n))
  ∧ (out.1 ≠ Some true → mempool out.2 = mempool n).
Proof. drop_params.
  intros out. subst out. split.
  - intros Hyes.
    destruct (decide (hash b ∈ seen_block_hashes n)) as [Hin|Hnew].
    { rewrite receive_block_replayed in Hyes by done. discriminate. }
    destruct (receive_block_fresh b t n Hnew)
      as [(Hr & _)|[(Hr & _)|(_ & _ & _ & _ & -> & _)]]; [congruence..|].
    split; [|apply sublist_filter].
    intros tx. rewrite list_elem_of_filter. split; intros [? ?]; by split.
  - intros Hno. by destruct (receive_block_not_admitted b t n Hno) as (-> & _).
Qed.

Lemma create_block_frame (nonce : Z) (w : bool) (clock : nat → Z) (n : Node) :
  chain (blockchain (create_block nonce w clock n).2) = chain (blockchain n)
  ∧ mempool (create_block nonce w clock n).2 = mempool n
  ∧ seen (create_block nonce w clock n).2 = seen n
  ∧ network (create_block nonce w clock n).2 = network n.
Proof.
  unfold create_block. destruct n as [? bc mem ? mo ? ? ? ? ? ? ? ?].
  cbn [mempool blockchain node_id]. destruct mem as [|tx0 rest]; [done|].
  unfold mine_pending_transactions. cbn [chain pending_transactions].
  unfold last_block. cbn [chain].
  destruct (last (chain bc)); cbv zeta; cbn [fst snd]; [|done].
  unfold monitor. destruct w, mo; done.
Qed.

Lemma ledger_grows_refl (n : Node) : ledger_grows n n.
Proof. by split. Qed.

Lemma ledger_grows_trans (n1 n2 n3 : Node) :
  ledger_grows n1 n2 → ledger_grows n2 n3 → ledger_grows n1 n3.
Proof. drop_params.
  intros [Hp1 Hi1] [Hp2 Hi2]. split; [by etrans|auto].
Qed.

Lemma ledger_grows_same (n n' : Node) :
  chain (blockchain n') = chain (blockchain n) → ledger_grows n n'.
Proof.
  intros Heq. split; [by rewrite Heq|].
  unfold chain_integrity. by rewrite Heq.
Qed.

Lemma receive_block_ledger_grows (b : Block) (t : Z) (n : Node) :
  ledger_grows n (receive_block b t n).2.
Proof.
  destruct (receive_block_chain_step b t n)
    as [[Heq _] | (_ & tip & Hl & Hp & Hh & Heq)].
  - apply ledger_grows_same. by rewrite Heq.
  - split; [rewrite Heq; by apply prefix_app_r|].
    intros Hinv.
    pose proof (chain_integrity_snoc (blockchain n) b tip [] Hinv Hl Hp Hh)
      as Hsnoc.
    unfold chain_integrity in *. simpl in Hsnoc. by rewrite Heq.
Qed.

Lemma sync_blocks_ledger_grows (bs : list Block) (clock : nat → Z) (n : Node) :
  ledger_grows n (sync_blocks bs clock n).
Proof.
  revert clock n. induction bs as [|b bs IH]; intros clock n; simpl.
  - apply ledger_grows_refl.
  - eapply ledger_grows_trans; [|apply IH].
    case_bool_decide; [apply receive_block_ledger_grows | apply ledger_grows_refl].
Qed.

Lemma run_op_ledger_grows (o : node_op) (n : Node) :
  ledger_grows n (run_op o n).
Proof.
  destruct o as [r a now | d | nc w clock | b t | bs clock]; simpl.
  - apply ledger_grows_same. unfold create_transaction.
    case_bool_decide; [done|]. simpl.
    unfold node_broadcast, monitor.
    destruct n as [? ? ? nw mo ? ? ? ? ? ? ? ?]. simpl.
    by destruct mo, nw.
  - apply ledger_grows_same. unfold receive_transaction.
    case_bool_decide.
    + unfold _log_trade_failure. simpl. by rewrite blockchain_monitor.
    + case_bool_decide; [done|]. unfold _log_trade_success. simpl.
      by rewrite blockchain_monitor.
  - apply ledger_grows_same. by destruct (create_block_frame nc w clock n).
  - apply receive_block_ledger_grows.
  - unfold handle_sync_response.
    eapply ledger_grows_trans; [|apply sync_blocks_ledger_grows].
    apply ledger_grows_same. by rewrite blockchain_monitor.
Qed.

Lemma run_ops_ledger_grows (ops : list node_op) (n : Node) :
  ledger_grows n (run_ops ops n).
Proof.
  revert n. induction ops as [|o ops IH]; intros n; simpl.
  - apply ledger_grows_refl.
  - eapply ledger_grows_trans; [apply run_op_ledger_grows | apply IH].
Qed.

(** X5. Whatever a node does (create or receive transactions, create or
    receive blocks, take sync responses), its chain keeps every block it
    had, in place, and chain integrity is kept; a node started by
    [Node.__init__] therefore always has a chain that begins with the
    genesis block and passes [is_chain_valid]. *)
Theorem node_ledger_invariant (ops : list node_op) (n : Node)
    (id : Z) (priv pem : string) (mo : option (list mon_event)) :
  chain (blockchain n) `prefix_of` chain (blockchain (run_ops ops n))
  ∧ (chain_integrity (blockchain n) →
     chain_integrity (blockchain (run_ops ops n)))
  ∧ chain (blockchain (run_ops ops (Node_init id priv pem mo))) !! 0%nat
    = Some genesis_block
  ∧ is_chain_valid (blockchain (run_ops ops (Node_init id priv pem mo))) = true.
Proof.
  destruct (run_ops_ledger_grows ops n) as [Hpre Hinv].
  split; [done|]. split; [done|].
  destruct (run_ops_ledger_grows ops (Node_init id priv pem mo))
    as [[k Hk] Hinv0].
  split.
  - rewrite Hk. reflexivity.
  - apply is_chain_valid_spec, Hinv0, genesis_integrity.
Qed.

Lemma mempool_ok_monitor (ev : mon_event) (n : Node) :
  mempool_ok n → mempool_ok (monitor ev n).
Proof.
  unfold mempool_ok. by rewrite mempool_monitor, seen_tx_monitor.
Qed.

Lemma mempool_ok_append (tx : Transaction) (n : Node) :
  mempool_ok n →
  tx_hash tx ∉ seen_transaction_hashes n →
  NoDup (tx_hash <$> (mempool n ++ [tx]))
  ∧ ∀ tx', tx' ∈ mempool n ++ [tx] →
      tx_hash tx' ∈ ({[ tx_hash tx ]} ∪ seen_transaction_hashes n
                     : gset (option string)).
Proof. drop_params.
  intros [Hnd Hsub] Hnew. split.
  - rewrite fmap_app. apply NoDup_app. split; [done|]. split.
    + intros h Hh Hh'. simpl in Hh'. apply list_elem_of_singleton in Hh'.
      subst h. apply list_elem_of_fmap in Hh as (tx' & Heq & Hin).
      apply Hnew. rewrite Heq. by apply Hsub.
    + simpl. apply NoDup_singleton.
  - intros tx' Hin. apply elem_of_app in Hin as [Hin|Hin].
    + apply Hsub in Hin. set_solver.
    + apply list_elem_of_singleton in Hin. set_solver.
Qed.

Lemma receive_transaction_mempool_ok (d : Transaction) (n : Node) :
  mempool_ok n → mempool_ok (receive_transaction d n).
Proof. drop_params.
  intros Hok. unfold receive_transaction. case_bool_decide as Hseen.
  - unfold _log_trade_failure, mempool_ok. simpl.
    by rewrite mempool_monitor, seen_tx_monitor.
  - case_bool_decide as Hin.
    + destruct Hok as [Hnd Hsub]. split; [done|]. simpl.
      intros tx Htx. apply Hsub in Htx. set_solver.
    + destruct (mempool_ok_append d n Hok Hseen) as [Hnd Hsub].
      unfold _log_trade_success, mempool_ok. simpl.
      by rewrite mempool_monitor, seen_tx_monitor.
Qed.

Lemma create_transaction_mempool_ok (r a now : Z) (n : Node) :
  mempool_ok n → mempool_ok (create_transaction r a now n).2.
Proof. drop_params.
  intros Hok. unfold create_transaction. case_bool_decide as Hseen; [done|].
  destruct (mempool_ok_append _ n Hok Hseen) as [Hnd Hsub].
  unfold mempool_ok, node_broadcast, monitor.
  destruct n as [? ? ? nw mo ? ? ? ? ? ? ? ?]. simpl in *.
  by destruct mo, nw.
Qed.

Lemma receive_block_mempool_ok (b : Block) (t : Z) (n : Node) :
  mempool_ok n → mempool_ok (receive_block b t n).2.
Proof. drop_params.
  intros [Hnd Hsub].
  destruct (decide ((receive_block b t n).1 = Some true)) as [Hyes|Hno].
  - destruct (decide (hash b ∈ seen_block_hashes n)) as [Hin|Hnew].
    { rewrite receive_block_replayed in Hyes by done. discriminate. }
    destruct (receive_block_fresh b t n Hnew)
      as [(Hr & _)|[(Hr & _)|(_ & Hadd & Hpr & _)]]; [congruence..|].
    destruct (receive_block_admitted b t n _ Hnew Hadd Hpr)
      as (_ & _ & Hm & Hs & _).
    unfold mempool_ok. rewrite Hm, Hs. split.
    + eapply sublist_NoDup; [exact Hnd|].
      apply fmap_sublist, sublist_filter.
    + intros tx Htx. apply list_elem_of_filter in Htx as [_ Htx]. by apply Hsub.
  - destruct (receive_block_not_admitted b t n Hno) as (Hm & Hs).
    unfold mempool_ok. by rewrite Hm, Hs.
Qed.

Lemma sync_blocks_mempool_ok (bs : list Block) (clock : nat → Z) (n : Node) :
  mempool_ok n → mempool_ok (sync_blocks bs clock n).
Proof.
  revert clock n. induction bs as [|b bs IH]; intros clock n Hok; simpl.
  - done.
  - apply IH. case_bool_decide; [by apply receive_block_mempool_ok | done].
Qed.

Lemma run_op_mempool_ok (o : node_op) (n : Node) :
  mempool_ok n → mempool_ok (run_op o n).
Proof.
  intros Hok. destruct o as [r a now | d | nc w clock | b t | bs clock]; simpl.
  - by apply create_transaction_mempool_ok.
  - by apply receive_transaction_mempool_ok.
  - destruct (create_block_frame nc w clock n) as (_ & Hm & Hs & _).
    unfold mempool_ok. unfold seen in Hs.
    pose proof (f_equal fst Hs) as Hs1. cbn [fst] in Hs1.
    by rewrite Hm, Hs1.
  - by apply receive_block_mempool_ok.
  - unfold handle_sync_response.
    by apply sync_blocks_mempool_ok, mempool_ok_monitor.
Qed.

(** X6. The mempool never holds two transactions with the same
    [tx_hash], and every transaction in it has its hash in
    [seen_transaction_hashes]: both hold on a fresh node and are kept by
    everything a node does. *)
Theorem mempool_no_duplicates (ops : list node_op) (n : Node) :
  mempool_ok n → mempool_ok (run_ops ops n).
Proof.
  revert n. induction ops as [|o ops IH]; intros n Hok; simpl; [done|].
  by apply IH, run_op_mempool_ok.
Qed.

(** X7. [create_transaction] emits no duplicate: a call whose transaction
    hash was not seen returns the transaction, appends it to the mempool,
    marks the hash and hands the transaction to the network when there is
    one; the same call again (same receiver, amount and clock reading)
    returns [None] and changes nothing. *)
Theorem create_transaction_no_duplicate (r a now : Z) (n : Node) :
  let tx := Transaction_init (Node_addr (node_id n)) (Node_addr r) a None now in
  let out := create_transaction r a now n in
  (tx_hash tx ∉ seen_transaction_hashes n →
     out.1 = Some tx
     ∧ mempool out.2 = mempool n ++ [tx]
     ∧ seen_transaction_hashes out.2
       = {[ tx_hash tx ]} ∪ seen_transaction_hashes n
     ∧ network out.2 = (λ o, o ++ [env_transaction tx]) <$> network n
     ∧ blockchain out.2 = blockchain n)
  ∧ (tx_hash tx ∈ seen_transaction_hashes n → out = (None, n))
  ∧ create_transaction r a now out.2 = (None, out.2).
Proof. drop_params.
  intros tx out.
  assert (Hfresh : tx_hash tx ∉ seen_transaction_hashes n →
            out.1 = Some tx
            ∧ mempool out.2 = mempool n ++ [tx]
            ∧ seen_transaction_hashes out.2
              = {[ tx_hash tx ]} ∪ seen_transaction_hashes n
            ∧ network out.2 = (λ o, o ++ [env_transaction tx]) <$> network n
            ∧ blockchain out.2 = blockchain n
            ∧ node_id out.2 = node_id n).
  { intros Hnew. subst out. unfold create_transaction. fold tx.
    rewrite bool_decide_eq_false_2 by done.
    unfold node_broadcast, monitor.
    destruct n as [? ? ? nw mo ? ? ? ? ? ? ? ?]. simpl in *.
    by destruct mo, nw. }
  assert (Hseen : tx_hash tx ∈ seen_transaction_hashes n → out = (None, n)).
  { intros Hin. subst out. unfold create_transaction. fold tx.
    by rewrite bool_decide_eq_true_2. }
  split; [intros Hnew; by destruct (Hfresh Hnew) as (?&?&?&?&?&?)|].
  split; [done|].
  destruct (decide (tx_hash tx ∈ seen_transaction_hashes n)) as [Hin|Hnew].
  - rewrite (Hseen Hin). simpl. by rewrite <- (Hseen Hin).
  - destruct (Hfresh Hnew) as (_ & _ & Hs & _ & _ & Hid).
    unfold create_transaction. rewrite Hid. fold tx.
    rewrite bool_decide_eq_true_2; [done|]. rewrite Hs.
    by apply elem_of_union_l, elem_of_singleton.
Qed.

(** X11. The seen-hash sets are never pruned: a transaction or block hash
    a node has seen stays seen through everything the node does. *)
Theorem seen_hashes_never_forgotten (ops : list node_op) (n : Node)
    (tx_h : option string) (h : string) :
  (tx_h ∈ seen_transaction_hashes n →
     tx_h ∈ seen_transaction_hashes (run_ops ops n))
  ∧ (h ∈ seen_block_hashes n → h ∈ seen_block_hashes (run_ops ops n)).
Proof. drop_params.
  destruct (run_ops_seen_le ops n) as [Htx Hblk].
  split; intros Hin; [by apply Htx | by apply Hblk].
Qed.

(** What [create_block] mines on a ledger with a tip: the [Block] object,
    whose dict is returned. *)
Lemma create_block_result (nc : Z) (w : bool) (clock : nat → Z) (n : Node)
    (T : Block) :
  mempool n ≠ [] →
  last (chain (blockchain n)) = Some T →
  ∃ new_block : Block,
    (create_block nc w clock n).1 = Ok (Some (block_as_dict new_block))
    ∧ previous_hash new_block = hash T
    ∧ hash new_block = compute_hash new_block
    ∧ index new_block = Z.of_nat (length (chain (blockchain n)))
    ∧ nonce new_block = nc
    ∧ transactions new_block
      = tx_object
          <$> (mempool_transactions clock (mempool n)
                 ++ [reward_of (node_id n) (clock (S (length (mempool n))))])
    ∧ withheld_block (create_block nc w clock n).2
      = (if w then Some new_block else None).
Proof.
  intros Hmem Hlast. unfold create_block.
  destruct n as [? bc mem ? mo ? ? ? ? ? ? ? ?].
  cbn [mempool blockchain node_id] in *.
  destruct mem as [|tx0 rest]; [done|].
  unfold mine_pending_transactions. cbn [chain pending_transactions].
  unfold last_block. cbn [chain]. rewrite Hlast. cbv zeta. cbn [fst snd].
  eexists. unfold monitor.
  destruct w, mo; simpl; rewrite ?fmap_app; repeat apply conj; reflexivity.
Qed.

(** The dict of a block built from [Transaction] objects: its
    transactions are dicts that have their [tx_hash]. *)
Lemma block_as_dict_readable (b : Block) (txs : list Transaction) :
  transactions b = tx_object <$> txs →
  Forall (λ tx, is_Some (tx_hash tx)) txs →
  transactions (block_as_dict b) = tx_dict <$> txs
  ∧ Forall hash_readable (transactions (block_as_dict b))
  ∧ tx_hashes_of (block_as_dict b) = tx_hash <$> txs.
Proof. drop_params.
  intros Htx Hall. unfold tx_hashes_of, block_as_dict. cbn. rewrite Htx.
  rewrite <- !list_fmap_compose.
  split; [done|]. split; [|done].
  apply Forall_fmap. eapply Forall_impl; [exact Hall|].
  intros tx [h Hh]. exists h. cbn. by rewrite Hh.
Qed.

Lemma block_as_dict_idemp (b : Block) :
  block_as_dict (block_as_dict b) = block_as_dict b.
Proof. drop_params.
  unfold block_as_dict. cbn. f_equal. rewrite <- list_fmap_compose.
  apply list_fmap_ext. by intros i [t|t] _.
Qed.

(** Two blocks with the same dict agree on all but the form of their
    transactions. *)
Lemma same_dict_fields (x y : Block) :
  block_as_dict x = block_as_dict y →
  hash x = hash y ∧ previous_hash x = previous_hash y ∧ index x = index y
  ∧ compute_hash x = compute_hash y.
Proof.
  intros E.
  split; [exact (f_equal hash E)|].
  split; [exact (f_equal previous_hash E)|].
  split; [exact (f_equal index E)|].
  by rewrite <- (compute_hash_block_as_dict x), E, compute_hash_block_as_dict.
Qed.

Lemma mempool_transactions_hashed (clock : nat → Z) (m : list Transaction) :
  Forall (λ tx, is_Some (tx_hash tx)) (mempool_transactions clock m).
Proof. drop_params.
  unfold mempool_transactions. apply Forall_lookup. intros i tx Hi.
  apply list_lookup_imap_Some in Hi as (t & _ & ->). by eexists.
Qed.

Lemma mempool_transactions_self_hashed (clock : nat → Z)
    (m : list Transaction) :
  Forall self_hashed m → mempool_transactions clock m = m.
Proof.
  unfold mempool_transactions. revert clock.
  induction m as [|tx m IH]; intros clock Hall; [done|].
  apply Forall_cons in Hall as [[Hts Hh] Hall].
  rewrite imap_cons. f_equal.
  - unfold Transaction_init. rewrite bool_decide_eq_false_2 by done.
    rewrite <- Hh. by destruct tx.
  - apply (IH (λ i, clock (S i)) Hall).
Qed.

Lemma filter_none {A : Type} (P : A → Prop) `{!∀ x, Decision (P x)}
    (l : list A) :
  (∀ x, x ∈ l → ¬ P x) → filter P l = [].
Proof.
  induction l as [|x l IH]; intros Hall; [done|].
  rewrite filter_cons_False by (apply Hall; left).
  apply IH. intros y Hy. apply Hall. by right.
Qed.

(** X8. [create_block] with an empty mempool returns [None] and leaves the
    node alone. Otherwise it returns a block dict built on the tip: the
    mempool entries rebuilt as transactions, then the reward, all as
    dicts; the chain and the mempool are not touched. If the block's hash
    is new to the node, [receive_block] appends that very block to the
    chain; it answers [True] exactly when every mempool entry has a
    [tx_hash], and [False], with the block in the chain and the mempool
    as it was, when one has none. When the mempool entries carry their
    own hashes the answer is [True] and the mempool is empty afterwards. *)
Theorem created_block_is_admitted (nc : Z) (w : bool) (clock : nat → Z)
    (n : Node) :
  let out := create_block nc w clock n in
  (mempool n = [] → out = (Ok None, n))
  ∧ chain (blockchain out.2) = chain (blockchain n)
  ∧ mempool out.2 = mempool n
  ∧ (mempool n ≠ [] →
     ∀ T, last (chain (blockchain n)) = Some T →
       ∃ blk : Block,
         out.1 = Ok (Some blk)
         ∧ previous_hash blk = hash T
         ∧ hash blk = compute_hash blk
         ∧ transactions blk
           = tx_dict
               <$> (mempool_transactions clock (mempool n)
                      ++ [reward_of (node_id n)
                            (clock (S (length (mempool n))))])
         ∧ (hash blk ∉ seen_block_hashes n →
            ∀ t, chain (blockchain (receive_block blk t out.2).2)
                 = chain (blockchain n) ++ [blk]
                 ∧ ((receive_block blk t out.2).1 = Some true
                    ↔ Forall (λ tx, is_Some (tx_hash tx)) (mempool n))
                 ∧ (¬ Forall (λ tx, is_Some (tx_hash tx)) (mempool n) →
                    (receive_block blk t out.2).1 = Some false
                    ∧ mempool (receive_block blk t out.2).2 = mempool n)
                 ∧ (Forall self_hashed (mempool n) →
                    (receive_block blk t out.2).1 = Some true
                    ∧ mempool (receive_block blk t out.2).2 = []))).
Proof. drop_params.
  intros out.
  destruct (create_block_frame nc w clock n) as (Hch & Hmp & Hsn & _).
  split; [intros Hm; by apply create_block_empty|].
  split; [done|]. split; [done|].
  intros Hmem T Hlast.
  destruct (create_block_result nc w clock n T Hmem Hlast)
    as (obj & Hres & Hp & Hh & _ & _ & Htx & _).
  set (txs := mempool_transactions clock (mempool n)
                ++ [reward_of (node_id n) (clock (S (length (mempool n))))])
    in *.
  assert (Htxs : Forall (λ tx, is_Some (tx_hash tx)) txs).
  { apply Forall_app. split; [apply mempool_transactions_hashed|].
    apply Forall_singleton. by eexists. }
  destruct (block_as_dict_readable obj txs Htx Htxs) as (Hd & Hread & Hhs).
  set (blk := block_as_dict obj) in *.
  exists blk. split; [done|]. split; [done|].
  split; [subst blk; by rewrite compute_hash_block_as_dict|].
  split; [done|].
  intros Hnew t. fold out in Hch, Hmp, Hsn.
  assert (Hnew' : hash blk ∉ seen_block_hashes out.2).
  { pose proof (f_equal snd Hsn) as Hs2. unfold seen in Hs2.
    cbn [snd] in Hs2. by rewrite Hs2. }
  assert (Hadd : add_block blk (blockchain out.2)
                 = (Ok true, mkBlockchain (chain (blockchain out.2) ++ [blk]) [])).
  { destruct (add_block_cases blk (blockchain out.2))
      as [[_ Hnil] | [(tip & Hl & Hbad & _) | (tip & _ & _ & _ & Heq)]];
      [| |done].
    - rewrite Hch in Hnil. rewrite Hnil in Hlast. discriminate.
    - rewrite Hch, Hlast in Hl. injection Hl as <-.
      destruct Hbad as [Hbad|Hbad]; [by destruct Hbad|].
      destruct Hbad. subst blk. by rewrite compute_hash_block_as_dict. }
  assert (Hpr : prunable blk out.2
                ↔ Forall (λ tx, is_Some (tx_hash tx)) (mempool n)).
  { unfold prunable. rewrite Hmp. split; [by intros [_ ?]|by split]. }
  destruct (receive_block_fresh blk t out.2 Hnew')
    as [(_ & Hno & _)|[(Hr & _ & Hnp & Hst)|(Hr & _ & Hyes & Hbc & Hm & _)]].
  - rewrite Hadd in Hno. by destruct Hno.
  - rewrite Hr, Hst. cbn [blockchain with_blockchain chain].
    split; [by rewrite Hch|].
    split; [split; [done | by intros ?%Hpr]|].
    split; [intros _; split; [done|]; cbn; by rewrite Hmp|].
    intros Hall. destruct Hnp. apply Hpr.
    eapply Forall_impl; [exact Hall|]. intros tx [_ ->]. by eexists.
  - rewrite Hr, Hbc. cbn [chain].
    split; [by rewrite Hch|].
    split; [split; [by intros _; apply Hpr | done]|].
    split; [by intros Hn; destruct Hn; apply Hpr|].
    intros Hall. split; [done|]. rewrite Hm, Hmp. apply filter_none.
    intros tx Hin Hnot. apply Hnot. rewrite Hhs. subst txs.
    rewrite (mempool_transactions_self_hashed clock _ Hall).
    apply list_elem_of_fmap. exists tx. split; [done|].
    apply elem_of_app. by left.
Qed.

(** X9. A sync response holding no block of the next height changes
    nothing: blocks at or below the node's height are skipped and blocks
    further ahead are neither admitted nor remembered, so that they can be
    delivered again. *)
Theorem sync_response_skips (bs : list Block) (clock : nat → Z) (n : Node) :
  (∀ b, b ∈ bs → index b ≠ current_height n + 1) →
  sync_blocks bs clock n = n
  ∧ seen_block_hashes (handle_sync_response bs clock n) = seen_block_hashes n
  ∧ blockchain (handle_sync_response bs clock n) = blockchain n.
Proof. drop_params.
  intros Hall.
  assert (Hsync : ∀ m : Node, current_height m = current_height n →
                    ∀ clk, sync_blocks bs clk m = m).
  { intros m Hm. induction bs as [|b bs IH]; intros clk; simpl; [done|].
    rewrite bool_decide_eq_false_2.
    - apply IH. intros b' Hb'. apply Hall. by right.
    - rewrite Hm. apply Hall. by left. }
  split; [by apply Hsync|].
  unfold handle_sync_response. rewrite Hsync.
  - by rewrite seen_blk_monitor, blockchain_monitor.
  - unfold current_height. by rewrite blockchain_monitor.
Qed.

Lemma collect_blocks_from (bs : list Block) (k : nat) (s : Z)
    (acc : list Block) :
  0 <= s →
  collect_blocks bs (seqZ s (Z.of_nat k)) acc
  = Ok (acc ++ (block_as_dict <$> take k (drop (Z.to_nat s) bs))).
Proof.
  revert s acc. induction k as [|k IH]; intros s acc Hs.
  - rewrite seqZ_nil by lia. simpl. by rewrite app_nil_r.
  - rewrite seqZ_cons by lia. simpl collect_blocks.
    replace (Z.pred (Z.of_nat (S k))) with (Z.of_nat k) by lia.
    destruct (decide (s < Z.of_nat (length bs))) as [Hlt|Hge].
    + rewrite bool_decide_eq_true_2 by done.
      destruct (lookup_lt_is_Some_2 bs (Z.to_nat s)) as [b Hb]; [lia|].
      unfold py_getitem. rewrite (bool_decide_eq_false_2 (s < 0)) by lia.
      rewrite (bool_decide_eq_false_2 (s < 0)) by lia. rewrite Hb.
      rewrite IH by lia.
      replace (Z.to_nat (Z.succ s)) with (S (Z.to_nat s)) by lia.
      rewrite (drop_S _ _ _ Hb). simpl. by rewrite <- app_assoc.
    + rewrite bool_decide_eq_false_2 by done.
      rewrite drop_ge by lia. by rewrite take_nil, app_nil_r.
Qed.

(** X10. For a request with [0 <= start], [handle_sync_request] serves the
    blocks of the chain at positions [start .. min(end, len - 1)], in
    order, each as a dict with its transactions as dicts: nothing at all
    when that range is empty or the node has no network, otherwise one
    response to the requester alone. Serving never changes the server's
    chain, mempool or seen sets. *)
Theorem sync_request_serves_slice (start end_index requester : Z) (n : Node) :
  0 <= start →
  let served := block_as_dict
                  <$> take (Z.to_nat (end_index + 1 - start))
                        (drop (Z.to_nat start) (chain (blockchain n))) in
  let out := handle_sync_request (Some start) (Some end_index) requester n in
  out.1 = Ok ()
  ∧ network out.2
    = (if bool_decide (served = []) then network n
       else (λ o, o ++ [env_sync_response requester served]) <$> network n)
  ∧ blockchain out.2 = blockchain n
  ∧ mempool out.2 = mempool n
  ∧ seen out.2 = seen n.
Proof. drop_params.
  intros Hs served out.
  assert (Hcollect : collect_blocks (chain (blockchain n))
                       (seqZ start (end_index + 1 - start)) [] = Ok served).
  { destruct (decide (0 <= end_index + 1 - start)) as [Hpos|Hneg].
    - replace (end_index + 1 - start)
        with (Z.of_nat (Z.to_nat (end_index + 1 - start))) at 1 by lia.
      by rewrite collect_blocks_from.
    - rewrite seqZ_nil by lia. subst served.
      by replace (Z.to_nat (end_index + 1 - start)) with 0%nat by lia. }
  subst out. unfold handle_sync_request. rewrite Hcollect.
  clearbody served. destruct served as [|b0 rest]; [done|].
  rewrite bool_decide_eq_false_2 by done.
  destruct n as [? ? ? nw mo ? ? ? ? ? ? ? ?]. unfold monitor, node_broadcast.
  simpl. by destruct nw, mo.
Qed.

Lemma sync_blocks_extend (bs : list Block) (clock : nat → Z) (n : Node) :
  chain (blockchain n) ≠ [] →
  chain_integrity (mkBlockchain (chain (blockchain n) ++ bs) []) →
  indexed_by_position (mkBlockchain (chain (blockchain n) ++ bs) []) →
  NoDup (hash <$> bs) →
  (∀ b, b ∈ bs → hash b ∉ seen_block_hashes n) →
  chain (blockchain (sync_blocks bs clock n)) = chain (blockchain n) ++ bs.
Proof. drop_params.
  revert clock n. induction bs as [|b bs IH]; intros clock n Hne Hint Hpos Hnd Hnew.
  - simpl. by rewrite app_nil_r.
  - simpl sync_blocks.
    destruct (last (chain (blockchain n))) as [tip|] eqn:Hlast;
      [|by apply last_None in Hlast].
    pose proof Hlast as Hlk. rewrite last_lookup in Hlk.
    assert (Hlen : length (chain (blockchain n)) ≠ 0%nat).
    { by destruct (chain (blockchain n)). }
    set (len := length (chain (blockchain n))) in *.
    assert (Htip : (chain (blockchain n) ++ b :: bs) !! pred len = Some tip).
    { rewrite lookup_app_l by lia. done. }
    assert (Hb : (chain (blockchain n) ++ b :: bs) !! S (pred len) = Some b).
    { rewrite lookup_app_r by lia.
      replace (S (pred len) - length (chain (blockchain n)))%nat with 0%nat
        by lia. done. }
    destruct (Hint _ _ _ Htip Hb) as [Hp Hh].
    pose proof (Hpos _ _ Htip) as Hit. pose proof (Hpos _ _ Hb) as Hib.
    assert (Hheight : index b = current_height n + 1).
    { unfold current_height. rewrite Hlast, Hit, Hib. lia. }
    rewrite bool_decide_eq_true_2 by done.
    assert (Hfresh : hash b ∉ seen_block_hashes n) by (apply Hnew; left).
    assert (Hadd : add_block b (blockchain n)
                   = (Ok true, mkBlockchain (chain (blockchain n) ++ [b]) [])).
    { destruct (add_block_cases b (blockchain n))
        as [[_ Hnil] | [(t & Hl & Hbad & _) | (t & _ & _ & _ & Heq)]];
        [done| |done].
      rewrite Hlast in Hl. injection Hl as <-.
      destruct Hbad as [Hbad|Hbad]; by destruct Hbad. }
    destruct (receive_block_appended b (clock 0%nat) n _ Hfresh Hadd)
      as (Hbc & _ & Hseen & _).
    set (n1 := (receive_block b (clock 0%nat) n).2) in *.
    assert (Hch1 : chain (blockchain n1) = chain (blockchain n) ++ [b])
      by (by rewrite Hbc).
    apply NoDup_cons in Hnd as [Hnotin Hnd].
    rewrite IH.
    + rewrite Hch1, <- app_assoc. done.
    + rewrite Hch1. intros Hnil. by apply app_eq_nil in Hnil as [_ ?].
    + rewrite Hch1, <- app_assoc. exact Hint.
    + rewrite Hch1, <- app_assoc. exact Hpos.
    + exact Hnd.
    + intros b' Hb'. rewrite Hseen. intros Hin.
      apply elem_of_union in Hin as [Hin|Hin].
      * apply elem_of_singleton in Hin. apply Hnotin. rewrite <- Hin.
        by apply list_elem_of_fmap_2.
      * revert Hin. apply Hnew. by right.
Qed.

(** X12. Catching up by sync. Let a server hold a chain with integrity,
    indexed by position, whose blocks have pairwise different hashes, and
    let a requester hold its first [k >= 1] blocks and have seen none of
    the later hashes. Feeding the requester the blocks the server serves
    for [start = k], the dicts of its next [m] blocks, appends exactly
    these to its chain: the requester then holds the server's first
    [k + m] blocks, the served ones with their transactions as dicts. *)
Theorem sync_catches_up (server requester : Node) (k m : nat)
    (clock : nat → Z) :
  chain_integrity (blockchain server) →
  indexed_by_position (blockchain server) →
  NoDup (hash <$> chain (blockchain server)) →
  (0 < k)%nat →
  chain (blockchain requester) = take k (chain (blockchain server)) →
  (∀ b, b ∈ drop k (chain (blockchain server)) →
        hash b ∉ seen_block_hashes requester) →
  let served := block_as_dict <$> take m (drop k (chain (blockchain server))) in
  let caught_up := chain (blockchain
                            (handle_sync_response served clock requester)) in
  caught_up = take k (chain (blockchain server)) ++ served
  ∧ block_as_dict <$> caught_up
    = block_as_dict <$> take (k + m) (chain (blockchain server)).
Proof. drop_params.
  intros Hint Hpos Hnd Hk Hreq Hnew served caught_up.
  assert (Hpre : block_as_dict <$> (take k (chain (blockchain server)) ++ served)
                 = block_as_dict <$> take (k + m) (chain (blockchain server))).
  { rewrite <- (take_take_drop (chain (blockchain server)) k m).
    rewrite !fmap_app. f_equal. subst served.
    rewrite <- list_fmap_compose. apply list_fmap_ext.
    intros i b _. apply block_as_dict_idemp. }
  assert (Hlk : ∀ i x, (take k (chain (blockchain server)) ++ served) !! i
                       = Some x →
                  ∃ y, chain (blockchain server) !! i = Some y
                       ∧ block_as_dict x = block_as_dict y).
  { intros i x Hi.
    apply (f_equal (fmap block_as_dict)) in Hi.
    rewrite <- list_lookup_fmap, Hpre, list_lookup_fmap in Hi.
    destruct (take (k + m) (chain (blockchain server)) !! i) as [y|] eqn:Hy;
      [|discriminate].
    apply lookup_take_Some in Hy as [Hy _].
    exists y. split; [done|]. cbn in Hi.
    apply (inj Some) in Hi. by rewrite Hi. }
  assert (Hgoal : caught_up = take k (chain (blockchain server)) ++ served).
  { subst caught_up. unfold handle_sync_response.
    set (r := monitor _ requester).
    assert (Hr : chain (blockchain r) = take k (chain (blockchain server))).
    { subst r. by rewrite blockchain_monitor. }
    destruct (decide (chain (blockchain server) = [])) as [Hnil|Hne].
    { subst served. rewrite Hnil in Hr |- *.
      rewrite drop_nil, !take_nil. simpl. by rewrite Hr, take_nil. }
    rewrite <- Hr. apply sync_blocks_extend.
    - rewrite Hr. destruct (chain (blockchain server)); [done|].
      destruct k; [lia|done].
    - intros i p c Hi HSi. simpl in Hi, HSi. rewrite Hr in Hi, HSi.
      destruct (Hlk _ _ Hi) as (p' & Hp' & Ep).
      destruct (Hlk _ _ HSi) as (c' & Hc' & Ec).
      destruct (Hint _ _ _ Hp' Hc') as [Hprev Hhash].
      destruct (same_dict_fields _ _ Ep) as (Eh & _).
      destruct (same_dict_fields _ _ Ec) as (Eh' & Epr & _ & Ecomp).
      split; congruence.
    - intros i b Hi. simpl in Hi. rewrite Hr in Hi.
      destruct (Hlk _ _ Hi) as (b' & Hb' & Eb).
      destruct (same_dict_fields _ _ Eb) as (_ & _ & Ei & _).
      rewrite Ei. by eapply Hpos.
    - subst served. rewrite <- list_fmap_compose.
      change (hash ∘ block_as_dict) with hash.
      rewrite fmap_take, fmap_drop.
      eapply sublist_NoDup; [exact Hnd|].
      etrans; [apply sublist_take | apply sublist_drop].
    - intros b Hb. subst r. rewrite seen_blk_monitor.
      subst served. apply list_elem_of_fmap in Hb as (b0 & -> & Hb0).
      change (hash (block_as_dict b0)) with (hash b0). apply Hnew.
      apply elem_of_take in Hb0 as (i & Hi & _).
      by eapply list_elem_of_lookup_2. }
  split; [exact Hgoal|]. by rewrite Hgoal.
Qed.

(** ** More of PBFT *)

Lemma node_quiet_refl (n : Node) : node_quiet n n.
Proof. by repeat split. Qed.

Lemma engine_quiet_refl (c : PbftConsensus) : engine_quiet c c.
Proof. by repeat split. Qed.

Lemma engine_quiet_trans (c1 c2 c3 : PbftConsensus) :
  engine_quiet c1 c2 → engine_quiet c2 c3 → engine_quiet c1 c3.
Proof. drop_params.
  intros ((A1&A2&A3&A4&A5&A6)&A7&A8&A9&A10&A11)
         ((B1&B2&B3&B4&B5&B6)&B7&B8&B9&B10&B11).
  repeat split; congruence.
Qed.

Lemma pbft_monitor_quiet (ev : mon_event) (c : PbftConsensus) :
  engine_quiet c (pbft_monitor ev c)
  ∧ prepared (pbft_monitor ev c) = prepared c
  ∧ committed (pbft_monitor ev c) = committed c
  ∧ message_log (pbft_monitor ev c) = message_log c
  ∧ malicious_nodes (pbft_monitor ev c) = malicious_nodes c
  ∧ round_start_time (pbft_monitor ev c) = round_start_time c
  ∧ network (node (pbft_monitor ev c)) = network (node c).
Proof. rewrite (pbft_monitor_frame ev c). by repeat split. Qed.

Lemma broadcast_quiet (ty : string) (block : option Block) (sig : string)
    (seq : Z) (c : PbftConsensus) :
  engine_quiet c (broadcast ty block sig seq c)
  ∧ prepared (broadcast ty block sig seq c) = prepared c
  ∧ committed (broadcast ty block sig seq c) = committed c
  ∧ malicious_nodes (broadcast ty block sig seq c) = malicious_nodes c
  ∧ round_start_time (broadcast ty block sig seq c) = round_start_time c
  ∧ message_log (broadcast ty block sig seq c)
    = message_log c
        ++ [mkPbftMsg ty (current_view c) seq (node_id (node c)) block
              (Some sig)].
Proof.
  unfold broadcast, pbft_monitor, node_broadcast.
  destruct c as [[? ? ? nw ? ? ? ? ? ? ? ? ?] ? ? ? ? ? ? ? ? pmo ? ?].
  simpl. destruct pmo, nw; by repeat split.
Qed.

Lemma _send_prepare_quiet (block : Block) (seq : Z) (c : PbftConsensus) :
  engine_quiet c (_send_prepare block seq c)
  ∧ prepared (_send_prepare block seq c) = prepared c
  ∧ committed (_send_prepare block seq c) = committed c
  ∧ malicious_nodes (_send_prepare block seq c) = malicious_nodes c
  ∧ message_log c `prefix_of` message_log (_send_prepare block seq c).
Proof.
  unfold _send_prepare.
  set (c1 := pbft_monitor _ c).
  destruct (pbft_monitor_quiet
              (record_pbft_prepare (node_id (node c)) (index block) false) c)
    as (Q1 & P1 & C1 & L1 & M1 & _).
  fold c1 in Q1, P1, C1, L1, M1.
  destruct (broadcast_quiet PREPARE (Some block)
              (_sign_message PREPARE (Some block) seq c1) seq c1)
    as (Q2 & P2 & C2 & M2 & _ & L2).
  split; [by eapply engine_quiet_trans|].
  cbv zeta. rewrite P2, C2, M2, L2, L1.
  repeat split; try done. by apply prefix_app_r.
Qed.

Lemma _send_commit_quiet (block : Block) (seq : Z) (c : PbftConsensus) :
  engine_quiet c (_send_commit block seq c)
  ∧ malicious_nodes (_send_commit block seq c) = malicious_nodes c
  ∧ message_log c `prefix_of` message_log (_send_commit block seq c).
Proof.
  unfold _send_commit.
  set (c1 := pbft_monitor _ c).
  destruct (pbft_monitor_quiet
              (record_pbft_commit (node_id (node c)) (index block) false) c)
    as (Q1 & _ & _ & L1 & M1 & _).
  fold c1 in Q1, L1, M1.
  destruct (broadcast_quiet COMMIT (Some block)
              (_sign_message COMMIT (Some block) seq c1) seq c1)
    as (Q2 & _ & _ & M2 & _ & L2).
  split; [by eapply engine_quiet_trans|].
  cbv zeta. rewrite M2, L2, L1.
  split; [done|]. by apply prefix_app_r.
Qed.

Lemma _trigger_sync_quiet (s e : Z) (c : PbftConsensus) :
  engine_quiet c (_trigger_sync s e c)
  ∧ malicious_nodes (_trigger_sync s e c) = malicious_nodes c.
Proof.
  unfold _trigger_sync, pbft_monitor, node_broadcast.
  destruct c as [[? ? ? nw ? ? ? ? ? ? ? ? ?] ? ? ? ? ? ? ? ? pmo ? ?].
  simpl. destruct nw, pmo; by repeat split.
Qed.

Lemma _log_and_monitor_reject_effect (sender_id : Z) (reason : string)
    (c : PbftConsensus) :
  let c' := _log_and_monitor_reject sender_id reason c in
  engine_quiet c c'
  ∧ node c' = node c
  ∧ prepared c' = prepared c
  ∧ committed c' = committed c
  ∧ message_log c' = message_log c
  ∧ malicious_nodes c' = {[ sender_id ]} ∪ malicious_nodes c.
Proof. drop_params.
  unfold _log_and_monitor_reject, _record_malicious, pbft_monitor.
  destruct c as [? ? ? ? ? ? ? ? mal pmo ? ?]. simpl.
  case_bool_decide as Hin; simpl.
  - destruct pmo; by repeat split.
  - assert (Heq : mal = {[ sender_id ]} ∪ mal).
    { clear -Hin. apply set_eq. intros x.
      rewrite elem_of_union, elem_of_singleton.
      split; [by right | by intros [-> | ?]]. }
    destruct pmo; simpl; repeat split; done.
Qed.

(** X13. A PBFT message whose sender has no registered key, or whose
    signature is a string that does not verify, is rejected: the sender
    is recorded in [malicious_nodes], and the engine's node, ledger,
    votes, receipt table and message log are exactly as before. A message
    that carries no signature, from a sender whose key is registered, is
    dropped without a trace: the engine is exactly as before, and the
    sender is not recorded in [malicious_nodes]. *)
Theorem pbft_rejects_unauthenticated (msg : PbftMsg) (now : Z)
    (c : PbftConsensus) :
  let c' := pbft_receive_message msg now c in
  (unauthenticated msg c →
   node c' = node c
   ∧ prepared c' = prepared c
   ∧ committed c' = committed c
   ∧ received_messages c' = received_messages c
   ∧ message_log c' = message_log c
   ∧ sequence_number c' = sequence_number c
   ∧ malicious_nodes c' = {[ msg_node_id msg ]} ∪ malicious_nodes c)
  ∧ (unsigned msg c →
     c' = c
     ∧ (msg_node_id msg ∉ malicious_nodes c →
        msg_node_id msg ∉ malicious_nodes c')).
Proof.
  intros c'. split.
  - intros Hbad.
    assert (Hrej : ∃ reason,
               c' = _log_and_monitor_reject (msg_node_id msg) reason c).
    { subst c'. unfold pbft_receive_message.
      destruct Hbad
        as [Hnone | [Hempty | (pem & key & sig & Hpem & Hload & Hsig & Hver)]].
      - rewrite Hnone. by eexists.
      - rewrite Hempty. rewrite bool_decide_eq_true_2 by done. by eexists.
      - rewrite Hpem. case_bool_decide; [by eexists|].
        rewrite Hload, Hsig, Hver. simpl. by eexists. }
    destruct Hrej as (reason & ->).
    destruct (_log_and_monitor_reject_effect (msg_node_id msg) reason c)
      as ((_ & _ & _ & Hsn & Hrm & _) & Hn & Hp & Hc & Hl & Hm).
    by repeat split.
  - intros (Hsig & pem & key & Hpem & Hne & Hload).
    assert (Heq : c' = c).
    { subst c'. unfold pbft_receive_message. rewrite Hpem.
      rewrite bool_decide_eq_false_2 by done. by rewrite Hload, Hsig. }
    split; [exact Heq|]. by rewrite Heq.
Qed.

Lemma log_confirmations_identity (hs : list string) (t : Z) (n : Node) :
  let n' := foldl (λ n h, _log_trade_confirmation h t n) n hs in
  node_id n' = node_id n ∧ public_keys n' = public_keys n
  ∧ private_key n' = private_key n.
Proof.
  revert n. induction hs as [|h hs IH]; intros n; simpl; [done|].
  destruct (IH (_log_trade_confirmation h t n)) as (-> & -> & ->).
  done.
Qed.

Lemma monitor_identity (ev : mon_event) (n : Node) :
  node_id (monitor ev n) = node_id n
  ∧ public_keys (monitor ev n) = public_keys n
  ∧ private_key (monitor ev n) = private_key n.
Proof. unfold monitor. by destruct (monitoring n). Qed.

Lemma receive_block_identity (b : Block) (t : Z) (n : Node) :
  node_id (receive_block b t n).2 = node_id n
  ∧ public_keys (receive_block b t n).2 = public_keys n
  ∧ private_key (receive_block b t n).2 = private_key n.
Proof.
  unfold receive_block. case_bool_decide.
  - apply monitor_identity.
  - rewrite rebuilt_block.
    change (blockchain (with_seen_block_hashes _ n)) with (blockchain n).
    destruct (add_block b (blockchain n)) as [[[|]|e] bc]; try done.
    destruct (block_tx_hashes (transactions b)) as [hashes|e]; [|done].
    destruct (unmined _ _) as [kept|e]; [|done].
    cbn [fst snd].
    match goal with |- context [foldl ?f ?a ?l] =>
      destruct (log_confirmations_identity l t a) as (H1 & H2 & H3) end.
    cbv zeta in H1, H2, H3. rewrite H1, H2, H3.
    repeat match goal with |- context [monitor ?ev ?m] =>
      destruct (monitor_identity ev m) as (-> & -> & ->) end.
    done.
Qed.

Lemma engine_quiet_membership (c c' : PbftConsensus) :
  engine_quiet c c' → same_membership c c'.
Proof. drop_params.
  intros ((A1&A2&A3&A4&A5&A6)&A7&A8&A9&A10&A11). by repeat split.
Qed.

Lemma _finish_round_timer_quiet (c : PbftConsensus) :
  engine_quiet c (_finish_round_timer c)
  ∧ node (_finish_round_timer c) = node c
  ∧ prepared (_finish_round_timer c) = prepared c
  ∧ committed (_finish_round_timer c) = committed c
  ∧ message_log (_finish_round_timer c) = message_log c
  ∧ malicious_nodes (_finish_round_timer c) = malicious_nodes c.
Proof. drop_params.
  unfold _finish_round_timer, pbft_monitor.
  destruct c as [? ? ? ? ? ? ? ? ? pmo rst ?]. simpl.
  destruct rst, pmo; try case_bool_decide; by repeat split.
Qed.

Lemma _send_reply_quiet (block : Block) (seq : Z) (c : PbftConsensus) :
  engine_quiet c (_send_reply block seq c)
  ∧ prepared (_send_reply block seq c) = prepared c
  ∧ committed (_send_reply block seq c) = committed c
  ∧ malicious_nodes (_send_reply block seq c) = malicious_nodes c
  ∧ message_log (_send_reply block seq c)
    = message_log c
        ++ [mkPbftMsg REPLY (current_view c) seq (node_id (node c))
              (Some block) (Some (_sign_message REPLY (Some block) seq c))].
Proof.
  unfold _send_reply.
  destruct (broadcast_quiet REPLY (Some block)
              (_sign_message REPLY (Some block) seq c) seq c)
    as (Q & P & C & M & _ & L).
  exact (conj Q (conj P (conj C (conj M L)))).
Qed.

Lemma on_pre_prepare_quiet (block : option Block) (seq now : Z)
    (c : PbftConsensus) :
  engine_quiet c (on_pre_prepare block seq now c)
  ∧ malicious_nodes (on_pre_prepare block seq now c) = malicious_nodes c
  ∧ committed (on_pre_prepare block seq now c) = committed c
  ∧ message_log c `prefix_of` message_log (on_pre_prepare block seq now c).
Proof.
  unfold on_pre_prepare. destruct block as [b|]; [|by repeat split].
  case_bool_decide.
  { unfold _trigger_sync, pbft_monitor, node_broadcast.
    destruct c as [[? ? ? nw ? ? ? ? ? ? ? ? ?] ? ? ? ? ? ? ? ? pmo ? ?].
    simpl. destruct nw, pmo; by repeat split. }
  destruct (forks_from_tip b (node c)).
  { destruct (pbft_monitor_quiet
                (record_fork_event (node_id (node c))
                   ("Fork overlap at Block " +:+ pretty (index b))) c)
      as (Q & _ & C & L & M & _).
    rewrite L, M, C. by split. }
  destruct (primary c) as [p|e]; [|by repeat split].
  case_bool_decide; [|by repeat split].
  unfold _start_round_timer.
  destruct (_send_prepare_quiet b seq c) as (Q & P & C & M & L).
  split; [exact Q|]. split; [exact M|]. split; [exact C|]. exact L.
Qed.

Lemma on_prepare_quiet (sender_id : Z) (block : option Block) (seq : Z)
    (c : PbftConsensus) :
  engine_quiet c (on_prepare sender_id block seq c)
  ∧ malicious_nodes (on_prepare sender_id block seq c) = malicious_nodes c
  ∧ message_log c `prefix_of` message_log (on_prepare sender_id block seq c).
Proof.
  unfold on_prepare. destruct block as [b|]; [|by repeat split].
  case_bool_decide; [by repeat split|].
  cbv zeta. case_bool_decide; [|by repeat split].
  set (c1 := with_prepared _ c).
  set (c2 := pbft_monitor _ c1).
  destruct (pbft_monitor_quiet
              (record_pbft_prepare (node_id (node c1)) (index b) true) c1)
    as (Q1 & _ & _ & L1 & M1 & _).
  fold c2 in Q1, L1, M1.
  destruct (_send_commit_quiet b seq c2) as (Q2 & M2 & L2).
  assert (Q : engine_quiet c (_send_commit b seq c2)).
  { eapply engine_quiet_trans; [|exact Q2].
    eapply engine_quiet_trans; [|exact Q1]. by repeat split. }
  split; [exact Q|].
  split; [exact (eq_trans M2 M1)|].
  rewrite L1 in L2. exact L2.
Qed.

Lemma _cleanup_rounds_effect (s : Z) (c : PbftConsensus) :
  let c' := _cleanup_rounds s c in
  node c' = node c
  ∧ total_nodes c' = total_nodes c
  ∧ current_view c' = current_view c
  ∧ sequence_number c' = sequence_number c
  ∧ last_proposed_index c' = last_proposed_index c
  ∧ malicious_nodes c' = malicious_nodes c
  ∧ message_log c' = message_log c
  ∧ (∀ k m, received_messages c !! k = Some m → ¬ k.2 < s - 5 →
            received_messages c' !! k = Some m)
  ∧ (∀ q, ¬ q < s - 5 →
          votes_of q (prepared c') = votes_of q (prepared c)
          ∧ votes_of q (committed c') = votes_of q (committed c)).
Proof. drop_params.
  unfold _cleanup_rounds. cbv zeta.
  set (to_delete := filter (λ q, q < s - 5) (dom (prepared c))).
  assert (Hkeep : ∀ q, ¬ q < s - 5 → q ∉ to_delete).
  { intros q Hq Hin. apply elem_of_filter in Hin as [Hlt _]. done. }
  repeat split; try done.
  - intros k m Hk Hq. cbn. apply map_lookup_filter_Some_2; [done|].
    cbn. by apply Hkeep.
  - cbn. unfold votes_of.
    destruct (prepared c !! q) as [v|] eqn:Hv.
    + erewrite map_lookup_filter_Some_2; [done|done|]. cbn. by apply Hkeep.
    + by rewrite map_lookup_filter_None_2 by (by left).
  - cbn. unfold votes_of.
    destruct (committed c !! q) as [v|] eqn:Hv.
    + erewrite map_lookup_filter_Some_2; [done|done|]. cbn. by apply Hkeep.
    + by rewrite map_lookup_filter_None_2 by (by left).
Qed.

Lemma _trigger_sync_log (s e : Z) (c : PbftConsensus) :
  message_log (_trigger_sync s e c) = message_log c
  ∧ blockchain (node (_trigger_sync s e c)) = blockchain (node c).
Proof.
  unfold _trigger_sync, pbft_monitor, node_broadcast.
  destruct c as [[? ? ? nw ? ? ? ? ? ? ? ? ?] ? ? ? ? ? ? ? ? pmo ? ?].
  simpl. by destruct nw, pmo.
Qed.

(** What the COMMIT branch does to the engine. *)
Lemma on_commit_effect (sender_id : Z) (block : option Block) (seq now : Z)
    (c : PbftConsensus) :
  let c' := on_commit sender_id block seq now c in
  same_membership c c'
  ∧ last_proposed_index c' = last_proposed_index c
  ∧ malicious_nodes c' = malicious_nodes c
  ∧ sequence_number c <= sequence_number c'
  ∧ message_log c `prefix_of` message_log c'
  ∧ (∀ k m, received_messages c !! k = Some m → ¬ k.2 < seq - 5 →
            received_messages c' !! k = Some m)
  ∧ (blockchain (node c') = blockchain (node c)
     ∨ ∃ b, block = Some b
          ∧ index b = current_height (node c) + 1
          ∧ Z.of_nat (size ({[ sender_id ]} ∪ votes_of seq (committed c)))
            >= quorum c
          ∧ blockchain (node c')
            = blockchain (receive_block b now (node c)).2).
Proof.
  unfold on_commit. cbv zeta.
  set (c1 := with_committed (add_vote seq sender_id (committed c)) c).
  assert (Htriv : same_membership c c1
                  ∧ last_proposed_index c1 = last_proposed_index c
                  ∧ malicious_nodes c1 = malicious_nodes c
                  ∧ sequence_number c <= sequence_number c1
                  ∧ message_log c `prefix_of` message_log c1
                  ∧ (∀ k m, received_messages c !! k = Some m →
                            ¬ k.2 < seq - 5 →
                            received_messages c1 !! k = Some m)
                  ∧ (blockchain (node c1) = blockchain (node c)
                     ∨ ∃ b, block = Some b
                          ∧ index b = current_height (node c) + 1
                          ∧ Z.of_nat
                              (size ({[ sender_id ]}
                                       ∪ votes_of seq (committed c)))
                            >= quorum c
                          ∧ blockchain (node c1)
                            = blockchain (receive_block b now (node c)).2)).
  { repeat split; try done. by left. }
  case_bool_decide as HQ; [|exact Htriv].
  destruct block as [b|]; [|exact Htriv].
  case_bool_decide as Hlow; [exact Htriv|].
  case_bool_decide as Hgap.
  { destruct (_trigger_sync_quiet (current_height (node c1) + 1) (index b) c1)
      as (Q & M).
    destruct (_trigger_sync_log (current_height (node c1) + 1) (index b) c1)
      as (L & B).
    pose proof (engine_quiet_membership _ _ Q) as Hm.
    destruct Q as (_ & _ & _ & Hsn & Hrm & Hlp).
    split; [exact Hm|]. rewrite Hlp, M, Hsn, L, Hrm, B.
    repeat split; try done. by left. }
  destruct (forks_from_tip b (node c1)); [exact Htriv|].
  change (node c1) with (node c) in *.
  destruct (receive_block b now (node c)) as [added n'] eqn:Hrb.
  pose proof (receive_block_identity b now (node c)) as (I1 & I2 & I3).
  rewrite Hrb in I1, I2, I3. cbn [snd] in I1, I2, I3.
  set (c2 := with_node n' c1).
  match goal with |- context [pbft_monitor _ ?x] => set (c3 := x) end.
  assert (F3 : node c3 = n'
               ∧ total_nodes c3 = total_nodes c
               ∧ current_view c3 = current_view c
               ∧ last_proposed_index c3 = last_proposed_index c
               ∧ malicious_nodes c3 = malicious_nodes c
               ∧ message_log c3 = message_log c
               ∧ sequence_number c <= sequence_number c3
               ∧ (∀ k m, received_messages c !! k = Some m →
                         ¬ k.2 < seq - 5 →
                         received_messages c3 !! k = Some m)).
  { destruct (_finish_round_timer_quiet c2)
      as ((_ & Ht & Hv & Hsn & Hrm & Hlp) & Hn & _ & _ & Hl & Hmal).
    assert (Hfin : node (_finish_round_timer c2) = n'
               ∧ total_nodes (_finish_round_timer c2) = total_nodes c
               ∧ current_view (_finish_round_timer c2) = current_view c
               ∧ last_proposed_index (_finish_round_timer c2)
                 = last_proposed_index c
               ∧ malicious_nodes (_finish_round_timer c2) = malicious_nodes c
               ∧ message_log (_finish_round_timer c2) = message_log c
               ∧ sequence_number c <= sequence_number (_finish_round_timer c2)
               ∧ (∀ k m, received_messages c !! k = Some m →
                         ¬ k.2 < seq - 5 →
                         received_messages (_finish_round_timer c2) !! k
                         = Some m)).
    { rewrite Hn, Ht, Hv, Hlp, Hmal, Hl, Hsn, Hrm. by repeat split. }
    subst c3. destruct added as [[|]|]; try exact Hfin.
    set (cf := _finish_round_timer c2) in *.
    match goal with |- context [_cleanup_rounds seq ?x] => set (cs := x) end.
    assert (Hcs : node cs = n'
               ∧ total_nodes cs = total_nodes c
               ∧ current_view cs = current_view c
               ∧ last_proposed_index cs = last_proposed_index c
               ∧ malicious_nodes cs = malicious_nodes c
               ∧ message_log cs = message_log c
               ∧ sequence_number c <= sequence_number cs
               ∧ received_messages cs = received_messages cf).
    { subst cs. destruct Hfin as (F1 & F2 & F4 & F5 & F6 & F7 & F8 & _).
      case_bool_decide as Hs; [|by repeat split].
      cbn. repeat split; try done. rewrite Hsn in Hs. cbn in Hs.
      cbn in F8. lia. }
    destruct Hcs as (S1 & S2 & S3 & S4 & S5 & S6 & S7 & S8).
    destruct (_cleanup_rounds_effect seq cs)
      as (K1 & K2 & K3 & K4 & K5 & K6 & K7 & K8 & _).
    cbv zeta in K1, K2, K3, K4, K5, K6, K7, K8.
    rewrite K1, K2, K3, K4, K5, K6, K7, S1, S2, S3, S4, S5, S6.
    repeat split; try done.
    intros k m Hk Hq. apply K8; [|done]. rewrite S8.
    destruct Hfin as (_ & _ & _ & _ & _ & _ & _ & F9). by apply F9. }
  destruct F3 as (F1 & F2 & F4 & F5 & F6 & F7 & F8 & F9).
  set (c4 := pbft_monitor _ c3).
  destruct (pbft_monitor_quiet
              (record_pbft_commit (node_id (node c3)) (index b) true) c3)
    as (Q4 & _ & _ & L4 & M4 & _).
  fold c4 in Q4, L4, M4.
  destruct (_send_reply_quiet b seq c4) as (Q5 & _ & _ & M5 & L5).
  pose proof (engine_quiet_trans _ _ _ Q4 Q5) as Q.
  destruct Q as ((N1 & N2 & _ & N4 & N5 & _) & Ht & Hv & Hsn & Hrm & Hlp).
  rewrite F1 in N1, N2, N4, N5.
  split; [repeat split; congruence|].
  split; [congruence|]. split; [congruence|].
  split; [rewrite Hsn; done|].
  split; [rewrite L5, L4, F7; by apply prefix_app_r|].
  split; [intros k m Hk Hq; rewrite Hrm; by apply F9|].
  rewrite N2.
  right. exists b. repeat split; try done.
  - lia.
  - unfold c1, quorum in HQ. cbn in HQ. rewrite votes_of_add_vote in HQ.
    exact HQ.
  - by rewrite Hrb.
Qed.

Lemma pbft_progress_refl (c : PbftConsensus) : pbft_progress c c.
Proof.
  split; [by repeat split|].
  split; [lia|]. split; [lia|]. split; [done|]. split; [done|].
  apply ledger_grows_refl.
Qed.

Lemma pbft_progress_trans (c1 c2 c3 : PbftConsensus) :
  pbft_progress c1 c2 → pbft_progress c2 c3 → pbft_progress c1 c3.
Proof. drop_params.
  intros ((A1&A2&A3&A4&A5)&A6&A7&A8&A9&A10)
         ((B1&B2&B3&B4&B5)&B6&B7&B8&B9&B10).
  split; [repeat split; congruence|].
  split; [lia|]. split; [lia|].
  split; [by etrans|]. split; [by etrans|].
  by eapply ledger_grows_trans.
Qed.

Lemma quiet_progress (c c' : PbftConsensus) :
  engine_quiet c c' →
  malicious_nodes c ⊆ malicious_nodes c' →
  message_log c `prefix_of` message_log c' →
  pbft_progress c c'.
Proof. drop_params.
  intros Q M L. pose proof (engine_quiet_membership _ _ Q) as Hm.
  destruct Q as ((_ & Hbc & _) & _ & _ & Hsn & _ & Hlp).
  split; [exact Hm|]. rewrite Hsn, Hlp.
  split; [lia|]. split; [lia|]. split; [done|]. split; [done|].
  apply ledger_grows_same. by rewrite Hbc.
Qed.

Lemma recorded_progress (msg : PbftMsg) (c : PbftConsensus) :
  pbft_progress c (recorded msg c).
Proof.
  unfold recorded. cbv zeta. rewrite (pbft_monitor_frame _ c).
  split; [by repeat split|]. cbn.
  split; [lia|]. split; [lia|]. split; [done|]. split; [done|].
  apply ledger_grows_refl.
Qed.

Lemma on_commit_progress (sender_id : Z) (block : option Block) (seq now : Z)
    (c : PbftConsensus) :
  pbft_progress c (on_commit sender_id block seq now c).
Proof.
  destruct (on_commit_effect sender_id block seq now c)
    as (Hm & Hlp & Hmal & Hsn & Hl & _ & Hbc).
  cbv zeta in Hm, Hlp, Hmal, Hsn, Hl, Hbc.
  split; [exact Hm|]. split; [exact Hsn|]. split; [lia|].
  split; [by rewrite Hmal|]. split; [exact Hl|].
  destruct Hbc as [Heq | (b & _ & _ & _ & Heq)].
  - apply ledger_grows_same. by rewrite Heq.
  - pose proof (receive_block_ledger_grows b now (node c)) as [G1 G2].
    split; by rewrite Heq.
Qed.

Lemma pbft_receive_message_progress (msg : PbftMsg) (now : Z)
    (c : PbftConsensus) :
  pbft_progress c (pbft_receive_message msg now c).
Proof.
  assert (Hrej : ∀ reason,
            pbft_progress c
              (_log_and_monitor_reject (msg_node_id msg) reason c)).
  { intros reason.
    destruct (_log_and_monitor_reject_effect (msg_node_id msg) reason c)
      as (Q & _ & _ & _ & Hl & Hmal).
    cbv zeta in Q, Hl, Hmal.
    apply quiet_progress; [done| |by rewrite Hl].
    rewrite Hmal. apply union_subseteq_r. }
  destruct (public_keys (node c) !! msg_node_id msg) as [pem|] eqn:Hpem;
    [|unfold pbft_receive_message; rewrite Hpem; apply Hrej].
  destruct (decide (pem = "")) as [->|Hne].
  { unfold pbft_receive_message. rewrite Hpem.
    rewrite bool_decide_eq_true_2 by done. apply Hrej. }
  destruct (load_public_key pem) as [key|] eqn:Hload.
  2:{ unfold pbft_receive_message. rewrite Hpem.
      rewrite bool_decide_eq_false_2 by done. rewrite Hload.
      apply pbft_progress_refl. }
  destruct (msg_signature msg) as [sig|] eqn:Hsig.
  2:{ unfold pbft_receive_message. rewrite Hpem.
      rewrite bool_decide_eq_false_2 by done. rewrite Hload, Hsig.
      apply pbft_progress_refl. }
  destruct (verify_signature key
              (message_data (msg_type msg) (msg_view msg) (msg_seq msg)
                 (msg_node_id msg) (msg_block msg)) sig)
    eqn:Hver.
  2:{ unfold pbft_receive_message. rewrite Hpem.
      rewrite bool_decide_eq_false_2 by done. rewrite Hload, Hsig, Hver.
      apply Hrej. }
  assert (Hvalid : valid_signature msg c) by (by exists pem, key, sig).
  destruct (received_messages c !! (msg_node_id msg, msg_type msg, msg_seq msg))
    as [m0|] eqn:Hdup.
  { unfold pbft_receive_message. rewrite Hpem.
    rewrite bool_decide_eq_false_2 by done. rewrite Hload, Hsig, Hver.
    cbn [negb]. cbv zeta.
    destruct (pbft_monitor_quiet
                (record_message (node_id (node c)) (msg_type msg) 0 1 0) c)
      as (Q & _ & _ & Hl & Hmal & _).
    pose proof Q as (_ & _ & _ & _ & Qr & _).
    rewrite Qr, Hdup.
    apply quiet_progress; [done|by rewrite Hmal|by rewrite Hl]. }
  rewrite (pbft_receive_message_dispatch msg now c Hvalid Hdup). cbv zeta.
  eapply pbft_progress_trans; [apply recorded_progress|].
  case_bool_decide.
  { destruct (on_pre_prepare_quiet (msg_block msg) (msg_seq msg) now
                (recorded msg c)) as (Q & Hmal & _ & Hl).
    apply quiet_progress; [done|by rewrite Hmal|done]. }
  case_bool_decide.
  { destruct (on_prepare_quiet (msg_node_id msg) (msg_block msg) (msg_seq msg)
                (recorded msg c)) as (Q & Hmal & Hl).
    apply quiet_progress; [done|by rewrite Hmal|done]. }
  case_bool_decide; [apply on_commit_progress|apply pbft_progress_refl].
Qed.

Lemma pbft_propose_block_progress (block : Block) (now : Z)
    (c : PbftConsensus) :
  pbft_progress c (pbft_propose_block block now c).2.
Proof.
  unfold pbft_propose_block.
  case_bool_decide as Hidx; [apply pbft_progress_refl|].
  destruct (primary c) as [p|e]; [|apply pbft_progress_refl].
  case_bool_decide; [|apply pbft_progress_refl].
  cbn [snd]. cbv zeta.
  match goal with |- context [broadcast ?a ?b ?s ?q ?c0] =>
    pose proof (broadcast_quiet a b s q c0) as Hb;
    set (c' := broadcast a b s q c0) in * end.
  clearbody c'. destruct Hb as (Q & _ & _ & M & _ & L).
  pose proof (engine_quiet_membership _ _ Q) as Hm.
  destruct Q as ((_ & Hbc & _) & _ & _ & Hsn & _ & Hlp).
  cbn in Hm, Hbc, Hsn, Hlp, M, L.
  split; [exact Hm|]. rewrite Hsn, Hlp, M, L.
  split; [lia|]. split; [lia|]. split; [done|].
  split; [by apply prefix_app_r|].
  apply ledger_grows_same. by rewrite Hbc.
Qed.

(** X14. Along any sequence of deliveries and proposals, whoever the
    senders are and whatever they sign, a PBFT engine keeps its node id,
    its key table, the network size and the view, so the primary and the
    quorum never change; its sequence number and proposal guard never
    decrease; [malicious_nodes] and [message_log] only grow; and its
    ledger only grows at the end and stays a chain with integrity. *)
Theorem pbft_run_invariant (ops : list pbft_op) (c : PbftConsensus) :
  let c' := run_pbft_ops ops c in
  primary c' = primary c
  ∧ quorum c' = quorum c
  ∧ node_id (node c') = node_id (node c)
  ∧ public_keys (node c') = public_keys (node c)
  ∧ sequence_number c <= sequence_number c'
  ∧ last_proposed_index c <= last_proposed_index c'
  ∧ malicious_nodes c ⊆ malicious_nodes c'
  ∧ message_log c `prefix_of` message_log c'
  ∧ chain (blockchain (node c)) `prefix_of` chain (blockchain (node c'))
  ∧ (chain_integrity (blockchain (node c)) →
     chain_integrity (blockchain (node c'))).
Proof.
  intros c'.
  assert (Hrun : pbft_progress c c').
  { subst c'. revert c. induction ops as [|o ops IH]; intros c.
    - apply pbft_progress_refl.
    - simpl. eapply pbft_progress_trans; [|apply IH].
      destruct o as [msg now | block now]; simpl.
      + apply pbft_receive_message_progress.
      + apply pbft_propose_block_progress. }
  destruct Hrun as ((H1 & H2 & H3 & H4 & H5) & H6 & H7 & H8 & H10 & H11).
  unfold primary, quorum. rewrite H4, H5.
  destruct H11 as [G1 G2].
  exact (conj eq_refl (conj eq_refl (conj H1 (conj H2 (conj H6 (conj H7
           (conj H8 (conj H10 (conj G1 G2))))))))).
Qed.

Lemma pbft_receive_message_duplicate (msg : PbftMsg) (now : Z)
    (c : PbftConsensus) :
  valid_signature msg c →
  is_Some (received_messages c
             !! (msg_node_id msg, msg_type msg, msg_seq msg)) →
  pbft_receive_message msg now c
  = pbft_monitor (record_message (node_id (node c)) (msg_type msg) 0 1 0) c.
Proof.
  intros (pem & key & sig & Hpem & Hne & Hload & Hsig & Hver) [m0 Hdup].
  unfold pbft_receive_message. rewrite Hpem.
  rewrite bool_decide_eq_false_2 by done. rewrite Hload, Hsig, Hver.
  cbn [negb].
  cbv zeta.
  destruct (pbft_monitor_quiet
              (record_message (node_id (node c)) (msg_type msg) 0 1 0) c)
    as ((_ & _ & _ & _ & Qr & _) & _).
  by rewrite Qr, Hdup.
Qed.




Lemma receive_block_true (b : Block) (t : Z) (n : Node) :
  (receive_block b t n).1 = Some true →
  (hash b ∉ seen_block_hashes n)
  ∧ ∃ tip, last (chain (blockchain n)) = Some tip
      ∧ previous_hash b = hash tip ∧ hash b = compute_hash b
      ∧ blockchain (receive_block b t n).2
        = mkBlockchain (chain (blockchain n) ++ [b]) [].
Proof.
  intros Hyes.
  destruct (decide (hash b ∈ seen_block_hashes n)) as [Hin|Hnew].
  { rewrite receive_block_replayed in Hyes by done. discriminate. }
  split; [done|].
  destruct (receive_block_fresh b t n Hnew)
    as [(Hr & _)|[(Hr & _)|(_ & Hadd & _ & Hbc & _)]];
    [congruence|congruence|].
  destruct (add_block_cases b (blockchain n))
    as [[Heq _] | [(tip & _ & _ & Heq) | (tip & Hl & Hp & Hh & _)]];
    [congruence | congruence |].
  by exists tip.
Qed.

(** X16. The only PBFT message that changes an engine's ledger is a COMMIT
    with a valid signature, not seen before, that brings the commit votes
    of its sequence number to the quorum, for a block one above the tip
    that names the tip's hash, carries its own recomputed hash and whose
    hash the node has not seen; the ledger then gains exactly that block.
    Every other message leaves the ledger as it is. *)
Theorem pbft_ledger_changes_only_on_commit (msg : PbftMsg) (now : Z)
    (c : PbftConsensus) :
  let c' := pbft_receive_message msg now c in
  blockchain (node c') = blockchain (node c)
  ∨ (valid_signature msg c
     ∧ not_duplicate msg c
     ∧ msg_type msg = COMMIT
     ∧ ∃ b tip,
         msg_block msg = Some b
         ∧ last (chain (blockchain (node c))) = Some tip
         ∧ index b = index tip + 1
         ∧ previous_hash b = hash tip
         ∧ hash b = compute_hash b
         ∧ (hash b ∉ seen_block_hashes (node c))
         ∧ Z.of_nat (size ({[ msg_node_id msg ]}
                             ∪ votes_of (msg_seq msg) (committed c)))
           >= quorum c
         ∧ chain (blockchain (node c'))
           = chain (blockchain (node c)) ++ [b]).
Proof.
  intros c'. subst c'.
  assert (Hrej : ∀ reason,
            blockchain
              (node (_log_and_monitor_reject (msg_node_id msg) reason c))
            = blockchain (node c)).
  { intros reason.
    by destruct (_log_and_monitor_reject_effect (msg_node_id msg) reason c)
      as (_ & -> & _). }
  destruct (public_keys (node c) !! msg_node_id msg) as [pem|] eqn:Hpem;
    [|left; unfold pbft_receive_message; rewrite Hpem; apply Hrej].
  destruct (decide (pem = "")) as [->|Hne].
  { left. unfold pbft_receive_message. rewrite Hpem.
    rewrite bool_decide_eq_true_2 by done. apply Hrej. }
  destruct (load_public_key pem) as [key|] eqn:Hload.
  2:{ left. unfold pbft_receive_message. rewrite Hpem.
      rewrite bool_decide_eq_false_2 by done. by rewrite Hload. }
  destruct (msg_signature msg) as [sig|] eqn:Hsig.
  2:{ left. unfold pbft_receive_message. rewrite Hpem.
      rewrite bool_decide_eq_false_2 by done. by rewrite Hload, Hsig. }
  destruct (verify_signature key
              (message_data (msg_type msg) (msg_view msg) (msg_seq msg)
                 (msg_node_id msg) (msg_block msg)) sig)
    eqn:Hver.
  2:{ left. unfold pbft_receive_message. rewrite Hpem.
      rewrite bool_decide_eq_false_2 by done. rewrite Hload, Hsig, Hver.
      apply Hrej. }
  assert (Hvalid : valid_signature msg c) by (by exists pem, key, sig).
  destruct (received_messages c !! (msg_node_id msg, msg_type msg, msg_seq msg))
    as [m0|] eqn:Hdup.
  { left. rewrite pbft_receive_message_duplicate by done.
    by destruct (pbft_monitor_quiet
                   (record_message (node_id (node c)) (msg_type msg) 0 1 0) c)
      as (((_ & -> & _) & _) & _). }
  rewrite (pbft_receive_message_dispatch msg now c Hvalid Hdup). cbv zeta.
  set (c0 := recorded msg c).
  destruct (recorded_frame msg c) as (Hn0 & Ht0 & _ & _ & Hc0 & _).
  fold c0 in Hn0, Ht0, Hc0.
  case_bool_decide.
  { left.
    destruct (on_pre_prepare_quiet (msg_block msg) (msg_seq msg) now c0)
      as (((_ & -> & _) & _) & _). by rewrite Hn0. }
  case_bool_decide.
  { left.
    destruct (on_prepare_quiet (msg_node_id msg) (msg_block msg) (msg_seq msg)
                c0) as (((_ & -> & _) & _) & _). by rewrite Hn0. }
  case_bool_decide as Hty; [|left; by rewrite Hn0].
  destruct (on_commit_effect (msg_node_id msg) (msg_block msg) (msg_seq msg)
              now c0) as (_ & _ & _ & _ & _ & _ & Hbc).
  cbv zeta in Hbc. rewrite Hn0 in Hbc.
  destruct Hbc as [Heq | (b & Hb & Hidx & HQ & Heq)]; [by left|].
  destruct (receive_block_chain_step b now (node c))
    as [[Hsame _] | (Hnew & tip & Hl & Hp & Hh & Hbc)];
    [left; by rewrite Heq|].
  right. split; [done|]. split; [done|]. split; [done|].
  exists b, tip.
  unfold current_height in Hidx. rewrite Hl in Hidx.
  unfold quorum in HQ. rewrite Ht0, Hc0 in HQ.
  rewrite Heq, Hbc. by repeat split.
Qed.

(** X17. The COMMIT that completes the quorum puts the block in the
    ledger: for a valid, new COMMIT whose block sits one above the tip,
    names the tip's hash, carries its recomputed hash and is new to the
    node, and whose sender brings the commit votes of the sequence number
    to the quorum, the ledger gains the block and the last message the
    engine sends is the REPLY for it. The sequence number becomes the
    larger of its old value and the message's when [receive_block]
    answers [True], that is when the [tx_hash] of every transaction of the
    block and of every mempool entry can be read; when one cannot,
    [receive_block] answers [False] with the block already in the ledger,
    and the sequence number stays as it was. *)
Theorem commit_quorum_admits (msg : PbftMsg) (b tip : Block) (now : Z)
    (c : PbftConsensus) :
  valid_signature msg c →
  not_duplicate msg c →
  msg_type msg = COMMIT →
  msg_block msg = Some b →
  last (chain (blockchain (node c))) = Some tip →
  index b = index tip + 1 →
  previous_hash b = hash tip →
  hash b = compute_hash b →
  hash b ∉ seen_block_hashes (node c) →
  Z.of_nat (size ({[ msg_node_id msg ]}
                    ∪ votes_of (msg_seq msg) (committed c))) >= quorum c →
  let c' := pbft_receive_message msg now c in
  chain (blockchain (node c')) = chain (blockchain (node c)) ++ [b]
  ∧ last (message_log c') = Some (reply_message b (msg_seq msg) c)
  ∧ votes_of (msg_seq msg) (committed c')
    = {[ msg_node_id msg ]} ∪ votes_of (msg_seq msg) (committed c)
  ∧ (prunable b (node c) →
     sequence_number c' = Z.max (msg_seq msg) (sequence_number c))
  ∧ (¬ prunable b (node c) → sequence_number c' = sequence_number c).
Proof.
  intros Hvalid Hdup Hty Hb Hl Hidx Hp Hh Hnew HQ c'. subst c'.
  rewrite (pbft_receive_message_dispatch msg now c Hvalid Hdup). cbv zeta.
  rewrite Hty, Hb.
  rewrite (bool_decide_eq_false_2 (COMMIT = PRE_PREPARE)) by done.
  rewrite (bool_decide_eq_false_2 (COMMIT = PREPARE)) by done.
  rewrite (bool_decide_eq_true_2 (COMMIT = COMMIT)) by done.
  set (c0 := recorded msg c).
  assert (F0 : node c0 = node c ∧ total_nodes c0 = total_nodes c
               ∧ current_view c0 = current_view c
               ∧ committed c0 = committed c
               ∧ message_log c0 = message_log c
               ∧ sequence_number c0 = sequence_number c).
  { subst c0. unfold recorded. cbv zeta. rewrite (pbft_monitor_frame _ c).
    by repeat split. }
  destruct F0 as (Hn0 & Ht0 & Hv0 & Hc0 & Hl0 & Hs0).
  clearbody c0.
  unfold on_commit. cbv zeta.
  set (c1 := with_committed _ c0).
  assert (Hvotes : votes_of (msg_seq msg) (committed c1)
                   = {[ msg_node_id msg ]}
                       ∪ votes_of (msg_seq msg) (committed c)).
  { subst c1. cbn. by rewrite votes_of_add_vote, Hc0. }
  rewrite bool_decide_eq_true_2
    by (rewrite Hvotes; unfold quorum in *; cbn; by rewrite Ht0).
  change (node c1) with (node c0). rewrite Hn0.
  assert (Hheight : current_height (node c) = index tip).
  { unfold current_height. by rewrite Hl. }
  rewrite Hheight.
  rewrite bool_decide_eq_false_2 by lia.
  rewrite bool_decide_eq_false_2 by lia.
  assert (Hfork : forks_from_tip b (node c) = false).
  { unfold forks_from_tip. rewrite Hl. apply bool_decide_eq_false_2.
    by intros Hbad. }
  rewrite Hfork.
  assert (Hadd : add_block b (blockchain (node c))
                 = (Ok true,
                    mkBlockchain (chain (blockchain (node c)) ++ [b]) [])).
  { destruct (add_block_cases b (blockchain (node c)))
      as [[_ Hnil] | [(tip' & Hl' & Hbad & _) | (tip' & _ & _ & _ & Heq)]].
    - apply last_None in Hnil. congruence.
    - rewrite Hl in Hl'. injection Hl' as <-. by destruct Hbad.
    - exact Heq. }
  destruct (receive_block_appended b now (node c) _ Hnew Hadd)
    as (Hbc & _ & _ & Hyes & Hno).
  destruct (receive_block_identity b now (node c)) as (I1 & I2 & I3).
  destruct (receive_block b now (node c)) as [added n'].
  cbn [fst snd] in Hyes, Hno, Hbc, I1, I2, I3.
  set (c2 := with_node n' c1).
  destruct (_finish_round_timer_quiet c2)
    as ((_ & Ft & Fv & Fs & _) & Fn & _ & Fc & Fl & _).
  match goal with |- context [pbft_monitor _ ?x] => set (c3 := x) end.
  assert (H3 : node c3 = n' ∧ current_view c3 = current_view c
               ∧ votes_of (msg_seq msg) (committed c3)
                 = votes_of (msg_seq msg) (committed c1)
               ∧ message_log c3 = message_log c
               ∧ (prunable b (node c) →
                  sequence_number c3
                  = Z.max (msg_seq msg) (sequence_number c))
               ∧ (¬ prunable b (node c) →
                  sequence_number c3 = sequence_number c)).
  { destruct (prunable_dec b (node c)) as [Hpr|[Hnp _]].
    - pose proof Hpr as Ht. apply Hyes in Ht as ->. subst c3.
      set (cf := _finish_round_timer c2) in *.
      match goal with |- context [_cleanup_rounds _ ?x] => set (cs := x) end.
      assert (Hcs : node cs = n' ∧ current_view cs = current_view c
                    ∧ committed cs = committed c1
                    ∧ message_log cs = message_log c
                    ∧ sequence_number cs
                      = Z.max (msg_seq msg) (sequence_number c)).
      { subst cs. case_bool_decide as Hs; cbn;
          rewrite ?Fn, ?Fv, ?Fc, ?Fl, ?Fs;
          cbn; rewrite ?Hv0, ?Hl0, ?Hs0; repeat split; try done.
        - rewrite Fs in Hs. cbn in Hs. lia.
        - rewrite Fs in Hs. cbn in Hs. lia. }
      destruct Hcs as (S1 & S2 & S3 & S4 & S5).
      destruct (_cleanup_rounds_effect (msg_seq msg) cs)
        as (K1 & _ & K3 & K4 & _ & _ & K7 & _ & K9).
      cbv zeta in K1, K3, K4, K7, K9.
      destruct (K9 (msg_seq msg)) as (_ & K10); [lia|].
      rewrite K1, K3, K4, K7, K10, S1, S2, S3, S4, S5.
      split; [done|]. split; [done|]. split; [done|]. split; [done|].
      split; [done|]. intros Hn. by destruct Hn.
    - pose proof Hnp as Hf. apply Hno in Hf as ->. subst c3. cbv iota.
      rewrite Fn, Fv, Fc, Fl, Fs. cbn. rewrite Hv0, Hl0, Hs0.
      split; [done|]. split; [done|]. split; [done|]. split; [done|].
      split; [by intros ?|done]. }
  destruct H3 as (N3 & V3 & C3 & L3 & Sp & Snp).
  clearbody c3.
  set (c4 := pbft_monitor _ c3).
  destruct (pbft_monitor_quiet
              (record_pbft_commit (node_id (node c3)) (index b) true) c3)
    as (((M1 & M2 & _ & _ & M3 & _) & _ & Mv & Ms & _) & _ & Mc & Ml & _).
  fold c4 in M1, M2, M3, Mv, Ms, Mc, Ml.
  destruct (_send_reply_quiet b (msg_seq msg) c4)
    as (((_ & R2 & _) & _ & _ & Rs & _) & _ & Rc & _ & Rl).
  rewrite R2, M2, N3, Hbc. split; [done|].
  rewrite Rl, last_snoc. split.
  { unfold reply_message, _sign_message.
    by rewrite Mv, M1, M3, V3, N3, I1, I3. }
  split; [by rewrite Rc, Mc, C3, Hvotes|].
  rewrite Rs, Ms. by split.
Qed.

(** X18. [propose_block] of PBFT. A block whose index is not above the
    last proposed one is ignored; with [total_nodes = 0] the primary
    cannot be computed and ZeroDivisionError comes out; a node that is not
    the primary does nothing; the primary takes the next sequence number,
    votes for its own proposal, starts the round timer and sends exactly
    one PRE_PREPARE; and from then on any block at that index or below is
    ignored. *)
Theorem pbft_propose_block_spec (block : Block) (now : Z)
    (c : PbftConsensus) :
  let out := pbft_propose_block block now c in
  (index block <= last_proposed_index c → out = (Ok (), c))
  ∧ (last_proposed_index c < index block → total_nodes c = 0 →
     out = (Raise ZeroDivisionError, c))
  ∧ (last_proposed_index c < index block → total_nodes c ≠ 0 →
     node_id (node c) ≠ current_view c `mod` total_nodes c →
     out = (Ok (), c))
  ∧ (last_proposed_index c < index block → total_nodes c ≠ 0 →
     node_id (node c) = current_view c `mod` total_nodes c →
     out.1 = Ok ()
     ∧ sequence_number out.2 = sequence_number c + 1
     ∧ last_proposed_index out.2 = index block
     ∧ round_start_time out.2 = Some now
     ∧ votes_of (sequence_number c + 1) (prepared out.2)
       = {[ node_id (node c) ]}
           ∪ votes_of (sequence_number c + 1) (prepared c)
     ∧ message_log out.2
       = message_log c
           ++ [pre_prepare_message block (sequence_number c + 1) c]
     ∧ blockchain (node out.2) = blockchain (node c)
     ∧ ∀ block' now',
         index block' <= index block →
         pbft_propose_block block' now' out.2 = (Ok (), out.2)).
Proof.
  intros out. subst out. unfold pbft_propose_block, primary.
  split; [intros H; by rewrite bool_decide_eq_true_2|].
  split.
  { intros H H0. rewrite bool_decide_eq_false_2 by lia.
    by rewrite bool_decide_eq_true_2. }
  split.
  { intros H H0 H1. rewrite bool_decide_eq_false_2 by lia.
    rewrite (bool_decide_eq_false_2 (total_nodes c = 0)) by done.
    by rewrite bool_decide_eq_false_2. }
  intros H H0 H1. rewrite bool_decide_eq_false_2 by lia.
  rewrite (bool_decide_eq_false_2 (total_nodes c = 0)) by done.
  rewrite bool_decide_eq_true_2 by done.
  cbn [fst snd]. cbv zeta.
  match goal with |- context [broadcast ?a ?b ?s ?q ?c0] =>
    pose proof (broadcast_quiet a b s q c0) as Hb;
    set (c' := broadcast a b s q c0) in * end.
  clearbody c'.
  destruct Hb as (((_ & Q2 & _) & _ & _ & Qs & _ & Qp) & P & _ & _ & R & L).
  cbn in Q2, Qs, Qp, P, R, L.
  split; [done|]. split; [done|]. split; [done|]. split; [done|].
  split; [rewrite P; unfold votes_of; by rewrite lookup_insert_eq|].
  split; [by rewrite L|]. split; [done|].
  intros block' now' Hle. by rewrite Qp, bool_decide_eq_true_2.
Qed.

(** X19. The quorum [2 * (N // 3) + 1] of a network of [N >= 1] nodes is
    at least one vote and never more than all of them; except for
    [N = 2] it is more than half, so two quorums among [N] voters share a
    voter; and it can be reached by the [N - N // 3] nodes left when
    [N // 3] are silent exactly when [N] is not a multiple of three. *)
Theorem quorum_bounds (c : PbftConsensus) :
  1 <= total_nodes c →
  1 <= quorum c <= total_nodes c
  ∧ (total_nodes c ≠ 2 → total_nodes c < 2 * quorum c)
  ∧ (quorum c <= total_nodes c - total_nodes c `div` 3
     ↔ total_nodes c `mod` 3 ≠ 0).
Proof. drop_params.
  intros HN. unfold quorum.
  pose proof (Z.div_mod (total_nodes c) 3 ltac:(lia)) as Hdm.
  pose proof (Z.mod_pos_bound (total_nodes c) 3 ltac:(lia)) as Hmb.
  set (f := total_nodes c `div` 3) in *.
  set (r := total_nodes c `mod` 3) in *.
  clearbody f r. lia.
Qed.

(** ** More of PoA and PoS *)

Lemma py_getitem_nat {A : Type} (l : list A) (i : nat) (x : A) :
  l !! i = Some x → py_getitem l (Z.of_nat i) = Ok x.
Proof.
  intros Hi. unfold py_getitem. cbv zeta.
  rewrite (bool_decide_eq_false_2 (Z.of_nat i < 0)) by lia.
  rewrite (bool_decide_eq_false_2 (Z.of_nat i < 0)) by lia.
  by rewrite Nat2Z.id, Hi.
Qed.

Lemma rotations_index (k : nat) (c : PoAConsensus) :
  validators c ≠ [] →
  validators (rotations k c) = validators c
  ∧ poa_node (rotations k c) = poa_node c
  ∧ (0 <= current_leader_index c < Z.of_nat (length (validators c)) →
     current_leader_index (rotations k c)
     = (current_leader_index c + Z.of_nat k)
         `mod` Z.of_nat (length (validators c))).
Proof. drop_params.
  intros Hne.
  assert (Hlen : 0 < Z.of_nat (length (validators c))).
  { destruct (validators c); [done|]. cbn [length]. lia. }
  induction k as [|k (IH1 & IH2 & IH3)].
  - split; [done|]. split; [done|]. intros Hidx. cbn.
    rewrite Z.add_0_r. by rewrite Z.mod_small.
  - change (rotations (S k) c) with (rotate_leader (rotations k c)).2.
    set (ck := rotations k c) in *.
    unfold rotate_leader. rewrite IH1.
    rewrite bool_decide_eq_false_2 by done. cbn.
    split; [done|]. split; [done|]. intros Hidx.
    rewrite IH3 by done. rewrite Z.add_mod_idemp_l by lia.
    f_equal. lia.
Qed.

(** X20. PoA leadership is a round robin: after [k] rotations from the
    engine's initial state, the leader is the validator at position
    [k mod len(validators)], whatever [k]. *)
Theorem poa_round_robin (k : nat) (n : Node) (vs : list Z)
    (mo : option (list mon_event)) :
  vs ≠ [] →
  ∃ leader,
    vs !! (k `mod` length vs)%nat = Some leader
    ∧ current_leader (rotations k (PoA_init n vs mo)) = Ok leader.
Proof. drop_params.
  intros Hne.
  assert (Hlen : (0 < length vs)%nat).
  { destruct vs; [done|]. cbn [length]. lia. }
  destruct (lookup_lt_is_Some_2 vs (k `mod` length vs)%nat) as [leader Hl].
  { by apply Nat.mod_upper_bound, Nat.neq_0_lt_0. }
  exists leader. split; [done|].
  destruct (rotations_index k (PoA_init n vs mo) Hne) as (Hv & _ & Hidx).
  unfold current_leader. rewrite Hv, Hidx by (cbn; lia). cbn.
  rewrite Z.add_0_l, <- Nat2Z.inj_mod. by apply py_getitem_nat.
Qed.

Lemma poa_with_node_same (c : PoAConsensus) : poa_with_node (poa_node c) c = c.
Proof. by destruct c. Qed.

(** X21. [propose_block] of PoA, for an engine that has a leader. A node
    that is not the leader, or that proposed less than [block_time] ago,
    proposes nothing. Neither does the leader whose mempool is empty, and
    it then stays the leader: nothing is rotated. Otherwise a block built
    on the tip goes out as one PoA message, [last_block_time] is set and
    the leader index moves to the next validator; the proposer's own
    ledger is not extended; the block is returned, or, with a monitoring
    object attached, TypeError is raised after all of this. *)
Theorem poa_propose_block_spec (now : Z) (clock : nat → Z) (now_end : Z)
    (c : PoAConsensus) (leader : Z) :
  current_leader c = Ok leader →
  let out := poa_propose_block now clock now_end c in
  (node_id (poa_node c) ≠ leader ∨ now - last_block_time c < block_time c →
   out = (Ok None, c))
  ∧ (node_id (poa_node c) = leader →
     now - last_block_time c >= block_time c →
     mempool (poa_node c) = [] → out = (Ok None, c))
  ∧ (node_id (poa_node c) = leader →
     now - last_block_time c >= block_time c →
     mempool (poa_node c) ≠ [] →
     ∀ T, last (chain (blockchain (poa_node c))) = Some T →
       ∃ block,
         out.1 = match poa_monitoring c with
                 | Some _ => Raise TypeError
                 | None => Ok (Some block)
                 end
         ∧ previous_hash block = hash T
         ∧ hash block = compute_hash block
         ∧ network (poa_node out.2)
           = (λ o, o ++ [env_poa_message (poa_message_for block c)])
               <$> network (poa_node c)
         ∧ last_block_time out.2 = now_end
         ∧ current_leader_index out.2
           = (current_leader_index c + 1)
               `mod` Z.of_nat (length (validators c))
         ∧ chain (blockchain (poa_node out.2))
           = chain (blockchain (poa_node c))).
Proof.
  intros Hleader out. subst out.
  unfold poa_propose_block, can_propose_block. rewrite Hleader.
  split.
  { intros [Hnot | Hearly].
    - by rewrite (bool_decide_eq_false_2 (node_id (poa_node c) = leader)).
    - rewrite (bool_decide_eq_false_2
                 (now - last_block_time c >= block_time c)) by lia.
      by rewrite andb_false_r. }
  split.
  { intros Hme Hdue Hempty.
    rewrite !bool_decide_eq_true_2 by done. cbn [andb].
    rewrite create_block_empty by done. by rewrite poa_with_node_same. }
  intros Hme Hdue Hmem T Hlast.
  rewrite !bool_decide_eq_true_2 by done. cbn [andb].
  destruct (create_block_mines clock (poa_node c) T Hmem Hlast)
    as (block & n' & Hcb & Hprev & Hhash & Hnet & Hid & Hkey & Hch & _).
  exists block. rewrite Hcb. cbv zeta.
  assert (Hvs : validators c ≠ []).
  { intros Hnil. unfold current_leader, py_getitem in Hleader.
    rewrite Hnil in Hleader. cbv zeta in Hleader.
    repeat case_bool_decide; by rewrite ?lookup_nil in Hleader. }
  unfold rotate_leader, poa_message_for, poa_sign_block, poa_monitor,
    node_broadcast.
  destruct c as [n0 vs idx bt lbt mal rb mo]. cbn in *.
  destruct mo as [log|]; cbn;
    rewrite (bool_decide_eq_false_2 (vs = [])) by done; cbn;
    rewrite Hnet, Hid, Hkey;
    destruct (network n0) eqn:Hnw; cbn; rewrite ?Hnw, ?Hch;
    repeat apply conj; done.
Qed.

(** X22. A PoA or PoS message never reaches the node: whatever the
    message, after [receive_message] the engine's node (ledger, mempool,
    seen hashes) and its set of received block hashes are what they were.
    The handler stops, at the latest, at the attribute lookup on the
    imported function, before [node.receive_block]. *)
Theorem poa_pos_receive_message_never_admits (msg : BlockMsg) (now : Z)
    (a : PoAConsensus) (s : PoSConsensus) :
  poa_node (poa_receive_message msg now a).2 = poa_node a
  ∧ poa_received_blocks (poa_receive_message msg now a).2
    = poa_received_blocks a
  ∧ pos_node (pos_receive_message msg now s).2 = pos_node s
  ∧ pos_received_blocks (pos_receive_message msg now s).2
    = pos_received_blocks s.
Proof.
  assert (Hget : getattr_function "load_public_key" = Raise AttributeError).
  { by vm_compute. }
  unfold poa_receive_message, pos_receive_message. rewrite Hget.
  unfold poa_monitor, poa_record_malicious, pos_monitor, pos_record_malicious.
  destruct a as [an avs aidx abt albt amal arb amo].
  destruct s as [sn svs sb st scv smal srb smo]. cbn.
  destruct (truthy_block (bm_block msg) && truthy_str (bm_signature msg)
            && truthy_int (bm_sender_id msg)); cbn; [|done].
  destruct (bm_block msg) as [block|]; [|done].
  destruct (bm_signature msg) as [sig|]; [|done].
  destruct (bm_sender_id msg) as [sender|]; [|done].
  repeat split.
  - destruct amo; cbn; repeat (case_bool_decide; cbn); try done;
      destruct (public_keys an !! sender); cbn;
      repeat (case_bool_decide; cbn); done.
  - destruct amo; cbn; repeat (case_bool_decide; cbn); try done;
      destruct (public_keys an !! sender); cbn;
      repeat (case_bool_decide; cbn); done.
  - destruct smo; cbn; repeat (case_bool_decide; cbn); try done;
      destruct (public_keys sn !! sender); cbn;
      repeat (case_bool_decide; cbn); done.
  - destruct smo; cbn; repeat (case_bool_decide; cbn); try done;
      destruct (public_keys sn !! sender); cbn;
      repeat (case_bool_decide; cbn); done.
Qed.

Lemma sum_values_insert (m : gmap Z Z) (i x : Z) :
  m !! i = None → sum_values (<[ i := x ]> m) = sum_values m + x.
Proof.
  intros Hi. unfold sum_values.
  rewrite map_fold_insert_L; [done| |done].
  intros. lia.
Qed.

Lemma stake_sum_empty (vs : list Z) :
  foldr Z.add 0 (stake_of ∅ <$> vs) = 0.
Proof.
  induction vs as [|v vs IH]; [done|].
  cbn. rewrite IH. unfold stake_of. by rewrite lookup_empty.
Qed.

Lemma stake_sum_insert (m : gmap Z Z) (i x : Z) (vs : list Z) :
  m !! i = None →
  NoDup vs →
  foldr Z.add 0 (stake_of (<[ i := x ]> m) <$> vs)
  = foldr Z.add 0 (stake_of m <$> vs) + (if decide (i ∈ vs) then x else 0).
Proof.
  intros Hi Hnd. induction Hnd as [|v vs Hv Hnd IH].
  - cbn. by rewrite decide_False by apply not_elem_of_nil.
  - cbn. rewrite IH. unfold stake_of at 1 3.
    destruct (decide (i = v)) as [<-|Hne].
    + rewrite lookup_insert_eq, Hi. cbn.
      rewrite (decide_False (P := i ∈ vs)) by done.
      rewrite decide_True by (apply elem_of_cons; by left). lia.
    + rewrite lookup_insert_ne by done.
      destruct (decide (i ∈ vs)) as [Hin|Hnin].
      * rewrite decide_True by (apply elem_of_cons; by right). lia.
      * rewrite decide_False; [lia|].
        intros Hin. apply elem_of_cons in Hin as [?|?]; done.
Qed.

Lemma sum_values_stake_sum (stakes : gmap Z Z) (vs : list Z) :
  NoDup vs →
  (∀ id, is_Some (stakes !! id) → id ∈ vs) →
  sum_values stakes = foldr Z.add 0 (stake_of stakes <$> vs).
Proof.
  intros Hnd. induction stakes as [|i x m Hi IH] using map_ind; intros Hdom.
  - rewrite stake_sum_empty. unfold sum_values. by rewrite map_fold_empty.
  - rewrite sum_values_insert, stake_sum_insert by done.
    rewrite decide_True by (apply Hdom; by rewrite lookup_insert_eq).
    rewrite IH; [done|].
    intros id [y Hy]. apply Hdom.
    destruct (decide (i = id)) as [->|Hne]; [congruence|].
    by rewrite lookup_insert_ne.
Qed.

(** X23. With every staker in the validator set, the set without
    repetitions and not empty, and a total stake that is not negative,
    [select_validator] always picks someone: for every value that
    [random.uniform(0, total_staked)] can return the result is a validator
    of the set, never [None], and it is recorded in [current_validator].
    (With a negative total the draw lies between the total and [0] and can
    be above every running sum; the result is then [None].) *)
Theorem pos_pick_exists (r : Q) (n : Node) (vs : list Z)
    (stakes : gmap Z Z) (mo : option (list mon_event)) :
  NoDup vs →
  vs ≠ [] →
  (∀ id, is_Some (stakes !! id) → id ∈ vs) →
  0 <= sum_values stakes →
  is_draw r (PoS_init n vs stakes mo) →
  ∃ id, (select_validator r (PoS_init n vs stakes mo)).1 = Some id
        ∧ id ∈ vs
        ∧ current_validator (select_validator r (PoS_init n vs stakes mo)).2
          = Some id.
Proof. drop_params.
  intros Hnd Hne Hdom Hpos Hdraw.
  assert (Hr : Qle r (inject_Z (sum_values stakes))).
  { destruct Hdraw as [[_ Hle]|[_ Hle]]; [exact Hle|].
    eapply Qle_trans; [exact Hle|]. unfold Qle. cbn. lia. }
  unfold select_validator. cbn in *.
  pose proof (select_from_first stakes r vs 0) as Hsel.
  destruct (select_from stakes r 0 vs) as [id|].
  - destruct Hsel as (k & Hk & _). exists id.
    split; [done|]. split; [|done]. by eapply list_elem_of_lookup_2.
  - exfalso.
    assert (Hlen : (0 < length vs)%nat).
    { destruct vs; [done|]. cbn [length]. lia. }
    apply (Hsel (length vs - 1)%nat); [lia|].
    unfold cumulative_stake.
    replace (S (length vs - 1)) with (length vs) by lia.
    rewrite firstn_all, Z.add_0_l.
    by rewrite <- (sum_values_stake_sum stakes vs Hnd Hdom).
Qed.

(** ** The misbehaving node *)

Lemma mal_receive_transaction_queue (d : Transaction) (coin : bool)
    (pick : nat) (m : MaliciousNode) :
  (length (replay_queue m) <= 51)%nat →
  replay_queue (mal_receive_transaction d coin pick m)
  = drop (length (replay_queue m ++ [d]) - 51) (replay_queue m ++ [d])
  ∧ (length (replay_queue (mal_receive_transaction d coin pick m)) <= 51)%nat.
Proof. drop_params.
  intros Hlen. unfold mal_receive_transaction. cbn.
  rewrite length_app. cbn [length].
  case_bool_decide as Hfull.
  - replace (length (replay_queue m) + 1 - 51)%nat with 1%nat by lia.
    rewrite drop_app_le by lia. split; [done|].
    rewrite length_app, length_drop. cbn. lia.
  - replace (length (replay_queue m) + 1 - 51)%nat with 0%nat by lia.
    rewrite drop_0. split; [done|]. rewrite length_app. cbn. lia.
Qed.

(** X24. The replay queue of a misbehaving node is a sliding window: after
    any deliveries it holds the last 51 transactions delivered, in arrival
    order (the queue is trimmed when it is longer than 50, before the new
    entry is appended), so it never grows beyond 51 entries. *)
Theorem replay_queue_window (ds : list (Transaction * bool * nat))
    (m : MaliciousNode) :
  (length (replay_queue m) <= 51)%nat →
  let all := replay_queue m ++ (ds.*1).*1 in
  replay_queue (mal_receive_all ds m) = drop (length all - 51) all
  ∧ (length (replay_queue (mal_receive_all ds m)) <= 51)%nat.
Proof. drop_params.
  revert m. induction ds as [|[[d coin] pick] ds IH]; intros m Hlen all.
  - subst all. cbn. rewrite app_nil_r.
    replace (length (replay_queue m) - 51)%nat with 0%nat by lia.
    by rewrite drop_0.
  - cbn [mal_receive_all foldl fst snd].
    destruct (mal_receive_transaction_queue d coin pick m Hlen) as [Hq Hl].
    destruct (IH _ Hl) as [IHq IHl]. cbv zeta in IHq.
    fold (mal_receive_all ds (mal_receive_transaction d coin pick m)).
    split; [|exact IHl]. rewrite IHq, Hq. subst all. cbn [fmap list_fmap fst].
    set (L := replay_queue m ++ [d]).
    set (rest := (ds.*1).*1).
    replace (replay_queue m ++ d :: rest) with (L ++ rest)
      by (subst L; by rewrite <- app_assoc).
    assert (Ha : (length L - 51 <= length L)%nat) by lia.
    rewrite <- (drop_app_le L rest _ Ha).
    rewrite drop_drop. f_equal.
    rewrite length_drop, !length_app. lia.
Qed.

Lemma receive_transaction_network (d : Transaction) (e : envelope)
    (n : Node) (out : list envelope) :
  network n = Some out →
  receive_transaction d (node_broadcast e n)
  = with_network (Some (out ++ [e])) (receive_transaction d n).
Proof.
  intros Hnw. unfold receive_transaction, node_broadcast, monitor,
    _log_trade_failure, _log_trade_success.
  destruct n as [? ? ? nw mo ? ? ? ? ? ? ? ?]. cbn in *. subst nw. cbn.
  repeat (case_bool_decide; cbn); destruct mo; done.
Qed.

(** X25. Towards its own state a misbehaving node handles a transaction
    as an honest one does: the node after the call is the node
    [Node.receive_transaction] gives, except that, with the replay attack
    on and a network attached, one transaction taken from the replay
    queue, a transaction delivered earlier, may have been broadcast
    again. *)
Theorem mal_receive_transaction_replays (d : Transaction) (coin : bool)
    (pick : nat) (m : MaliciousNode) :
  let m' := mal_receive_transaction d coin pick m in
  let honest := receive_transaction d (base m) in
  (replay_attack_enabled m && coin = false → base m' = honest)
  ∧ (network (base m) = None → base m' = honest)
  ∧ (base m' = honest
     ∨ ∃ tx out,
         tx ∈ replay_queue m
         ∧ network (base m) = Some out
         ∧ base m' = with_network (Some (out ++ [env_transaction tx])) honest).
Proof.
  intros m' honest. subst m' honest. unfold mal_receive_transaction. cbn.
  split; [by intros ->|].
  split.
  { intros Hnw. destruct (replay_attack_enabled m && coin); [|done].
    destruct (replay_queue m !! _); [|done].
    unfold node_broadcast. by rewrite Hnw. }
  destruct (replay_attack_enabled m && coin); [|by left].
  destruct (replay_queue m !! (pick `mod` length (replay_queue m))%nat)
    as [tx|] eqn:Htx; [|by left].
  destruct (network (base m)) as [out|] eqn:Hnw.
  - right. exists tx, out. split; [by eapply list_elem_of_lookup_2|].
    split; [done|]. by apply receive_transaction_network.
  - left. unfold node_broadcast. by rewrite Hnw.
Qed.

Lemma string_length_append (s1 s2 : string) :
  String.length (s1 +:+ s2) = (String.length s1 + String.length s2)%nat.
Proof.
  induction s1 as [|a s1 IH]; [done|].
  change (S (String.length (s1 +:+ s2))
          = S (String.length s1 + String.length s2)).
  by rewrite IH.
Qed.

Lemma conflict_prefix_differs (s : string) : "conflict_" +:+ s ≠ s.
Proof.
  intros Heq. apply (f_equal String.length) in Heq.
  rewrite string_length_append in Heq. cbn in Heq. lia.
Qed.

(** X26. The twin block of [_generate_conflicting_block] carries its own
    recomputed hash and the original's index, but names a predecessor
    that is not the original's. So a ledger whose tip the original names
    refuses the twin and is left as it was, and an honest node on that
    ledger that sees the twin for the first time answers [False] and
    keeps its chain. *)
Theorem conflicting_block_refused (original tip : Block) (bc : Blockchain) :
  last (chain bc) = Some tip →
  previous_hash original = hash tip →
  let twin := _generate_conflicting_block original in
  hash twin = compute_hash twin
  ∧ index twin = index original
  ∧ previous_hash twin ≠ previous_hash original
  ∧ add_block twin bc = (Ok false, bc)
  ∧ ∀ (n : Node) (t : Z),
      blockchain n = bc →
      hash twin ∉ seen_block_hashes n →
      (receive_block twin t n).1 = Some false
      ∧ blockchain (receive_block twin t n).2 = bc.
Proof.
  intros Hlast Hprev twin.
  assert (Hne : previous_hash twin ≠ previous_hash original).
  { subst twin. cbn. apply conflict_prefix_differs. }
  assert (Hadd : add_block twin bc = (Ok false, bc)).
  { destruct (add_block_cases twin bc)
      as [[_ Hnil] | [(tip' & _ & _ & Heq) | (tip' & Hl & Hp & _)]].
    - apply last_None in Hnil. congruence.
    - exact Heq.
    - rewrite Hlast in Hl. injection Hl as <-. congruence. }
  split; [done|]. split; [done|]. split; [done|]. split; [done|].
  intros n t Hbc Hnew.
  destruct (receive_block_fresh twin t n Hnew)
    as [(Hr & _ & Hst)|[(_ & Hyes & _)|(_ & Hyes & _)]].
  - split; [done|]. rewrite Hst, Hbc, Hadd. done.
  - rewrite Hbc, Hadd in Hyes. discriminate.
  - rewrite Hbc, Hadd in Hyes. discriminate.
Qed.

(** X27. [create_block] of a misbehaving node in the conflicting mode
    (withholding off). It does not look at the mempool: the block is
    mined from the ledger's [pending_transactions] plus the reward, also
    when the mempool is empty. The block is added to the node's own
    chain, the mempool is emptied, and, when a network is attached, the
    original goes out followed by its twin. The caller gets the block's
    dict, with the transactions as dicts. *)
Theorem mal_create_block_conflicting (nc : Z) (clock : nat → Z)
    (m : MaliciousNode) (T : Block) :
  _withholding_enabled m = false →
  send_conflicting_blocks m = true →
  last (chain (blockchain (base m))) = Some T →
  let out := mal_create_block nc clock m in
  ∃ original,
    out.1 = Ok (Some (block_as_dict original))
    ∧ previous_hash original = hash T
    ∧ hash original = compute_hash original
    ∧ transactions original
      = pending_transactions (blockchain (base m))
          ++ [tx_object (reward_of (node_id (base m)) (clock 0%nat))]
    ∧ blockchain (base out.2)
      = mkBlockchain (chain (blockchain (base m)) ++ [original]) []
    ∧ mempool (base out.2) = []
    ∧ network (base out.2)
      = (λ o, o ++ [env_block original;
                    env_block (_generate_conflicting_block original)])
          <$> network (base m).
Proof.
  intros Hw Hc Hlast out. subst out. unfold mal_create_block.
  rewrite Hw, Hc. unfold mine_pending_transactions. cbv zeta.
  cbn [chain pending_transactions].
  match goal with |- context [last_block ?bc] =>
    assert (Htip : last_block bc = Ok T) by (by apply last_block_Ok);
    rewrite Htip end.
  match goal with |- context [add_block ?b ?bc] =>
    destruct (add_block_cases b bc)
      as [[_ Hnil] | [(tip' & Hl & Hbad & _) | (tip' & _ & _ & _ & Heq)]];
    [ | | rewrite Heq; set (original := b) in * ] end.
  - cbn in Hnil. apply last_None in Hnil. congruence.
  - cbn in Hl. rewrite Hlast in Hl. injection Hl as <-.
    by destruct Hbad as [Hbad | Hbad].
  - exists original. cbn [fst snd chain].
    unfold monitor, node_broadcast.
    destruct m as [[? ? ? nw mo ? ? ? ? ? ? ? ?] ? ? ? ? ?]. cbn in *.
    destruct nw, mo; cbn; rewrite <- ?app_assoc; repeat apply conj; done.
Qed.

(** X28. A withheld block is held back and released once. For a node with
    a tip and a mempool that is not empty, [create_block] with
    [withhold=True] returns the block (its dict), keeps it in
    [_withheld_block], sends nothing and leaves the chain alone.
    [release_withheld_block] then broadcasts exactly that block and
    forgets it, so a second release does nothing; without a network
    nothing is released and the block stays withheld. *)
Theorem withheld_block_released_once (nc : Z) (clock : nat → Z) (n : Node)
    (T : Block) :
  mempool n ≠ [] →
  last (chain (blockchain n)) = Some T →
  let n1 := (create_block nc true clock n).2 in
  ∃ blk,
    (create_block nc true clock n).1 = Ok (Some (block_as_dict blk))
    ∧ withheld_block n1 = Some blk
    ∧ network n1 = network n
    ∧ chain (blockchain n1) = chain (blockchain n)
    ∧ network (release_withheld_block n1)
      = (λ o, o ++ [env_block blk]) <$> network n
    ∧ withheld_block (release_withheld_block n1)
      = match network n with Some _ => None | None => Some blk end
    ∧ release_withheld_block (release_withheld_block n1)
      = release_withheld_block n1.
Proof.
  intros Hmem Hlast n1.
  destruct (create_block_result nc true clock n T Hmem Hlast)
    as (blk & Hr & _ & _ & _ & _ & _ & Hw).
  destruct (create_block_frame nc true clock n) as (Hch & _ & _ & Hnw).
  fold n1 in Hw, Hch, Hnw. exists blk.
  split; [done|]. split; [done|]. split; [done|]. split; [done|].
  unfold release_withheld_block, node_broadcast. rewrite Hw, Hnw.
  destruct (network n) as [o|] eqn:Ho; cbn.
  - by repeat split.
  - rewrite Hw, Hnw. by repeat split.
Qed.

(** ** The identity registry *)

Lemma dict_get_Some {V : Type} (k : Z) (d : list (Z * V)) :
  is_Some (dict_get k d) ↔ k ∈ d.*1.
Proof. drop_params.
  induction d as [|[k' v] d IH]; cbn.
  - split; [by intros [? ?]|by intros ?%elem_of_nil].
  - case_bool_decide as Hk.
    + subst. split; [intros _; apply elem_of_cons; by left|by eexists].
    + rewrite IH, elem_of_cons. split; [by right|]. by intros [?|?].
Qed.

Lemma dict_set_fresh {V : Type} (k : Z) (v : V) (d : list (Z * V)) :
  k ∉ d.*1 → dict_set k v d = d ++ [(k, v)].
Proof. drop_params.
  induction d as [|[k' v'] d IH]; cbn; [done|].
  intros Hk. apply not_elem_of_cons in Hk as [Hne Hk].
  rewrite bool_decide_eq_false_2 by done. by rewrite IH.
Qed.

Lemma dict_get_app {V : Type} (k : Z) (d1 d2 : list (Z * V)) :
  dict_get k (d1 ++ d2)
  = match dict_get k d1 with Some v => Some v | None => dict_get k d2 end.
Proof. drop_params.
  induction d1 as [|[k' v'] d1 IH]; cbn; [done|]. by case_bool_decide.
Qed.

Lemma dict_pop_keys {V : Type} (k : Z) (d : list (Z * V)) :
  (dict_pop k d).*1 = filter (λ k', k' ≠ k) d.*1.
Proof. drop_params.
  unfold dict_pop. induction d as [|[k' v'] d IH]; [done|].
  rewrite fmap_cons, !filter_cons. cbn.
  destruct (decide (k' ≠ k)); cbn; by rewrite IH.
Qed.

Lemma register_node_consistent (id : Z) (pem : string)
    (metadata : option (list (string * string))) (now : Z)
    (im : IdentityManagement) :
  registry_consistent im →
  registry_consistent (register_node id pem metadata now im).2.
Proof. drop_params.
  intros [Heq Hnd]. unfold register_node, is_registered.
  case_bool_decide as Hin; [done|]. cbn.
  rewrite !dict_set_fresh by (by rewrite <- ?Heq).
  split; cbn [node_registry id_public_keys].
  - rewrite !fmap_app. cbn. by rewrite Heq.
  - rewrite fmap_app. cbn. apply NoDup_app. split; [done|].
    split; [|apply NoDup_singleton].
    intros x Hx Hx'. apply list_elem_of_singleton in Hx'. by subst.
Qed.

Lemma unregister_node_consistent (id : Z) (im : IdentityManagement) :
  registry_consistent im → registry_consistent (unregister_node id im).
Proof. drop_params.
  intros [Heq Hnd]. unfold unregister_node, registry_consistent. cbn.
  rewrite !dict_pop_keys, Heq. split; [done|].
  rewrite <- Heq. by apply NoDup_filter.
Qed.

Lemma run_identity_ops_consistent (ops : list identity_op)
    (im : IdentityManagement) :
  registry_consistent im → registry_consistent (run_identity_ops ops im).
Proof. drop_params.
  revert im. induction ops as [|o ops IH]; intros im Hc; [done|].
  cbn. apply IH. destruct o; cbn.
  - by apply register_node_consistent.
  - by apply unregister_node_consistent.
Qed.

(** X29. After any sequence of registrations and removals on a fresh
    registry, the two tables list the same ids in the same order, no id
    twice; so an id is registered exactly when it has a public key, exactly
    when [list_nodes] shows it, and exactly when it has an info entry. *)
Theorem identity_registry_consistent (ops : list identity_op) (id : Z) :
  let im := run_identity_ops ops IdentityManagement_init in
  registry_consistent im
  ∧ (is_registered id im = true ↔ is_Some (get_public_key id im))
  ∧ (is_registered id im = true ↔ id ∈ list_nodes im)
  ∧ (is_registered id im = true ↔ is_Some (get_node_info id im)).
Proof. drop_params.
  intros im.
  assert (Hc : registry_consistent im).
  { apply run_identity_ops_consistent. split; [done|]. apply NoDup_nil_2. }
  split; [exact Hc|]. destruct Hc as [Heq _].
  unfold is_registered, get_public_key, get_node_info, list_nodes.
  rewrite bool_decide_eq_true, !dict_get_Some, Heq. done.
Qed.

Lemma register_node_keeps_key (id id' : Z) (pem pem' : string)
    (metadata : option (list (string * string))) (now : Z)
    (im : IdentityManagement) :
  registry_consistent im →
  get_public_key id im = Some pem →
  get_public_key id (register_node id' pem' metadata now im).2 = Some pem.
Proof. drop_params.
  intros [Heq _] Hk. unfold register_node, is_registered.
  case_bool_decide as Hin; [done|]. cbn. unfold get_public_key in *. cbn.
  rewrite dict_set_fresh by (by rewrite <- Heq).
  by rewrite dict_get_app, Hk.
Qed.

Lemma dict_get_pop_ne {V : Type} (k k' : Z) (d : list (Z * V)) :
  k ≠ k' → dict_get k (dict_pop k' d) = dict_get k d.
Proof. drop_params.
  intros Hne. unfold dict_pop. induction d as [|[k0 v0] d IH]; [done|].
  rewrite filter_cons. cbn.
  destruct (decide (k0 ≠ k')) as [Hk|Hk]; cbn.
  - by rewrite IH.
  - apply dec_stable in Hk. subst k0.
    rewrite bool_decide_eq_false_2 by done. exact IH.
Qed.

(** X30. The first registration wins. Once [register_node] has accepted an
    id with a key, no later call changes that key as long as the id is not
    unregistered: further registrations of the id answer [False], and the
    registrations and removals of other ids leave its key in place. *)
Theorem identity_first_registration_wins (ops0 ops : list identity_op)
    (id : Z) (pem pem' : string)
    (metadata metadata' : option (list (string * string))) (now now' : Z) :
  let im0 := run_identity_ops ops0 IdentityManagement_init in
  (register_node id pem metadata now im0).1 = true →
  keeps_registered id ops →
  let im := run_identity_ops ops (register_node id pem metadata now im0).2 in
  get_public_key id im = Some pem
  ∧ register_node id pem' metadata' now' im = (false, im).
Proof. drop_params.
  intros im0 Hok Hkeep im.
  assert (Hc0 : registry_consistent im0).
  { apply run_identity_ops_consistent. split; [done|]. apply NoDup_nil_2. }
  set (im1 := (register_node id pem metadata now im0).2) in *.
  assert (Hc1 : registry_consistent im1) by (by apply register_node_consistent).
  assert (Hk1 : get_public_key id im1 = Some pem).
  { subst im1. unfold register_node, is_registered in *.
    case_bool_decide as Hin; [done|]. cbn. unfold get_public_key. cbn.
    destruct Hc0 as [Heq _].
    rewrite dict_set_fresh by (by rewrite <- Heq).
    rewrite dict_get_app.
    destruct (dict_get id (id_public_keys im0)) eqn:Hg.
    - exfalso. apply Hin. rewrite Heq. apply dict_get_Some. by eexists.
    - cbn. by rewrite bool_decide_eq_true_2. }
  assert (Hrun : registry_consistent im ∧ get_public_key id im = Some pem).
  { subst im. clearbody im1. clear Hok im0 Hc0.
    revert im1 Hc1 Hk1 Hkeep.
    induction ops as [|o ops IH]; intros im1 Hc1 Hk1 Hkeep; [done|].
    cbn. apply IH.
    - destruct o; cbn.
      + by apply register_node_consistent.
      + by apply unregister_node_consistent.
    - destruct o as [id' pem0 md0 now0 | id']; cbn.
      + by apply register_node_keeps_key.
      + unfold get_public_key, unregister_node in *. cbn.
        rewrite dict_get_pop_ne; [done|].
        intros ->. apply (Hkeep (op_unregister id')); [|done].
        apply elem_of_cons. by left.
    - intros o' Ho'. apply Hkeep. apply elem_of_cons. by right. }
  destruct Hrun as [[Heq _] Hk]. split; [done|].
  unfold register_node. 
  assert (Hreg : is_registered id im = true).
  { unfold is_registered. apply bool_decide_eq_true_2. rewrite Heq.
    apply dict_get_Some. unfold get_public_key in Hk. by eexists. }
  by rewrite Hreg.
Qed.

End Core.

(** * The properties on the sample instance *)

(** The sample objects are what the constructors build. *)
Example sample_ledger :
  Blockchain_init Sample.sha256 Sample.dumps_block = Sample.ledger.
Proof. reflexivity. Qed.

Example sample_blocks_hashed :
  Forall (λ b, hash b = compute_hash Sample.sha256 Sample.dumps_block b)
    [Sample.genesis; Sample.block1; Sample.block2; Sample.block5;
     Sample.block3].
Proof. repeat constructor. Qed.

(** C1 on the sample: genesis, then [block1] and [block2]. *)
Lemma chain_integrity_invariant_witness :
  chain (add_blocks Sample.sha256 Sample.dumps_block
           [Sample.block1; Sample.block2]
           (Blockchain_init Sample.sha256 Sample.dumps_block))
  = [Sample.genesis; Sample.block1; Sample.block2]
  ∧ chain_integrity Sample.sha256 Sample.dumps_block
      (add_blocks Sample.sha256 Sample.dumps_block
         [Sample.block1; Sample.block2]
         (Blockchain_init Sample.sha256 Sample.dumps_block)).
Proof.
  split; [reflexivity|].
  exact (proj1 (chain_integrity_invariant Sample.sha256 Sample.dumps_block
                  [Sample.block1; Sample.block2] Sample.block5)).
Defined.

(** C2 on the sample: [block1] is admitted on the genesis ledger, and
    [block2], which does not link to the tip, is refused. *)
Lemma add_block_spec_witness :
  last_block Sample.ledger = Ok Sample.genesis
  ∧ add_block Sample.sha256 Sample.dumps_block Sample.block1 Sample.ledger
    = (Ok true, mkBlockchain [Sample.genesis; Sample.block1] [])
  ∧ add_block Sample.sha256 Sample.dumps_block Sample.block2 Sample.ledger
    = (Ok false, Sample.ledger).
Proof.
  split; [reflexivity|]. split.
  - apply (add_block_spec Sample.sha256 Sample.dumps_block Sample.block1
             Sample.ledger Sample.genesis eq_refl).
    intros [H|H]; apply H; reflexivity.
  - apply (add_block_spec Sample.sha256 Sample.dumps_block Sample.block2
             Sample.ledger Sample.genesis eq_refl).
    left. vm_compute. discriminate.
Defined.

(** C8 as stated fails. [add_block] does not look at indices, so the
    genesis ledger admits [block5]; on the ledger it leaves, whose tip has
    index [5], the mined block gets the index [2], not [6]. *)
Lemma mine_index_counterexample :
  ∃ (bc : Blockchain) (T blk : Block) (bc' : Blockchain),
    add_block Sample.sha256 Sample.dumps_block Sample.block5 Sample.ledger
    = (Ok true, bc)
    ∧ last_block bc = Ok T
    ∧ mine_pending_transactions Sample.sha256 Sample.dumps_tx
        Sample.dumps_block 0 0 false 1 2 bc = (Ok blk, bc')
    ∧ index T + 1 = 6
    ∧ index blk = 2
    ∧ index blk ≠ index T + 1.
Proof.
  eexists _, _, _, _. split; [reflexivity|]. split; [reflexivity|].
  split; [reflexivity|]. split; [reflexivity|]. split; [reflexivity|].
  vm_compute. discriminate.
Defined.

(** C8 as amended, on the ledger that admitted [block5]. *)
Lemma mine_pending_transactions_spec_witness :
  let bc := mkBlockchain [Sample.genesis; Sample.block5] [] in
  last_block bc = Ok Sample.block5
  ∧ ∃ (blk : Block) (bc' : Blockchain),
      mine_pending_transactions Sample.sha256 Sample.dumps_tx
        Sample.dumps_block 0 0 true 1 2 bc = (Ok blk, bc')
      ∧ index blk = 2
      ∧ previous_hash blk = hash Sample.block5
      ∧ chain bc' = chain bc ++ [blk].
Proof.
  intros bc. split; [reflexivity|].
  destruct (mine_pending_transactions_spec Sample.sha256 Sample.dumps_tx
              Sample.dumps_block 0 0 true 1 2 bc Sample.block5 eq_refl)
    as (blk & bc' & Hmine & _ & _ & _ & _ & Hidx & Hprev & _ & Hadd & _).
  exists blk, bc'. split; [exact Hmine|]. split; [exact Hidx|].
  split; [exact Hprev|].
  clear Hidx Hprev Hadd. vm_compute in Hmine.
  injection Hmine as <- <-. reflexivity.
Defined.

(** C6 as stated fails on a node without a monitoring object: the
    duplicate is dropped from the mempool's point of view, yet counted
    nowhere. *)
Lemma receive_transaction_counterexample :
  let n := Sample.node 0 "k0" [] None None in
  let n1 := receive_transaction Sample.tx n in
  let n2 := receive_transaction Sample.tx n1 in
  mempool n2 = [Sample.tx]
  ∧ trade_failure_count n2 = 1
  ∧ monitoring n2 = None
  ∧ ¬ counted_as_dropped n1 n2.
Proof.
  intros n n1 n2. split; [reflexivity|]. split; [reflexivity|].
  split; [reflexivity|].
  intros (log & Hlog & _). vm_compute in Hlog. discriminate.
Defined.

(** C6 as amended, on a node with a monitoring object. *)
Lemma receive_transaction_idempotent_witness :
  let n := Sample.node 0 "k0" [] None (Some []) in
  let n1 := run_ops Sample.sha256 Sample.dumps_tx Sample.dumps_block
              [op_receive_block Sample.block1 3] (receive_transaction Sample.tx n) in
  let n2 := receive_transaction Sample.tx n1 in
  tx_hash Sample.tx = tx_hash Sample.tx
  ∧ mempool n2 = mempool n1
  ∧ blockchain n2 = blockchain n1
  ∧ trade_failure_count n2 = trade_failure_count n1 + 1
  ∧ counted_as_dropped n1 n2.
Proof.
  intros n n1 n2. split; [reflexivity|].
  destruct (receive_transaction_idempotent Sample.sha256 Sample.dumps_tx
              Sample.dumps_block Sample.tx Sample.tx
              [op_receive_block Sample.block1 3] n eq_refl)
    as (Hmem & Hbc & _ & Hfail & _ & Hdrop & _).
  split; [exact Hmem|]. split; [exact Hbc|]. split; [exact Hfail|].
  eapply Hdrop. vm_compute. reflexivity.
Defined.

(** C7 on the sample: [block1] is admitted once; a second delivery,
    after a transaction came in, changes nothing. *)
Lemma receive_block_idempotent_witness :
  let n := Sample.node 0 "k0" [] None None in
  let n1 := (receive_block Sample.sha256 Sample.dumps_block Sample.block1 3 n).2 in
  let n2 := run_ops Sample.sha256 Sample.dumps_tx Sample.dumps_block
              [op_receive_transaction Sample.tx] n1 in
  hash Sample.block1 = hash Sample.block1
  ∧ chain (blockchain n1) = [Sample.genesis; Sample.block1]
  ∧ (receive_block Sample.sha256 Sample.dumps_block Sample.block1 4 n2).1 = None
  ∧ chain (blockchain
             (receive_block Sample.sha256 Sample.dumps_block Sample.block1 4 n2).2)
    = chain (blockchain n2).
Proof.
  intros n n1 n2. split; [reflexivity|]. split; [reflexivity|].
  destruct (receive_block_idempotent Sample.sha256 Sample.dumps_tx
              Sample.dumps_block Sample.block1 Sample.block1 3 4
              [op_receive_transaction Sample.tx] n eq_refl)
    as (Hnone & Hchain & _).
  split; [exact Hnone | exact Hchain].
Defined.

(** C10 on the sample: [block2] arrives before [block1] and is refused;
    [block1] is then admitted, so that [block2] links to the tip and the
    ledger would now take it; delivered again, it is ignored. *)
Lemma rejected_block_never_retried_witness :
  let n := Sample.node 0 "k0" [] None None in
  let n1 := (receive_block Sample.sha256 Sample.dumps_block Sample.block2 3 n).2 in
  let n2 := run_ops Sample.sha256 Sample.dumps_tx Sample.dumps_block
              [op_receive_block Sample.block1 4] n1 in
  (receive_block Sample.sha256 Sample.dumps_block Sample.block2 3 n).1
  = Some false
  ∧ hash Sample.block2 = hash Sample.block2
  ∧ chain (blockchain n2) = [Sample.genesis; Sample.block1]
  ∧ (add_block Sample.sha256 Sample.dumps_block Sample.block2 (blockchain n2)).1
    = Ok true
  ∧ (receive_block Sample.sha256 Sample.dumps_block Sample.block2 5 n2).1 = None
  ∧ blockchain
      (receive_block Sample.sha256 Sample.dumps_block Sample.block2 5 n2).2
    = blockchain n2.
Proof.
  intros n n1 n2.
  assert (Hrej : (receive_block Sample.sha256 Sample.dumps_block
                    Sample.block2 3 n).1 = Some false)
    by (vm_compute; reflexivity).
  split; [exact Hrej|]. split; [reflexivity|].
  split; [vm_compute; reflexivity|]. split; [vm_compute; reflexivity|].
  destruct (rejected_block_never_retried Sample.sha256 Sample.dumps_tx
              Sample.dumps_block Sample.block2 Sample.block2 3 5
              [op_receive_block Sample.block1 4] n eq_refl)
    as (_ & _ & _ & Hnone & Hbc & _).
  split; [|exact Hbc].
  fold n1 n2 in Hnone. rewrite Hnone. reflexivity.
Defined.

(** The two sample messages are authentic and new for the sample engine. *)
Lemma sample_prepare_valid (nw : option (list envelope)) :
  valid_signature Sample.PublicKey Sample.load_public_key
    Sample.verify_signature Sample.serialize Sample.prepare_msg
    (Sample.engine nw).
Proof. exists "k2", "k2", "k2". repeat split; done. Defined.

Lemma sample_pre_prepare_valid (nw : option (list envelope)) :
  valid_signature Sample.PublicKey Sample.load_public_key
    Sample.verify_signature Sample.serialize Sample.pre_prepare_msg
    (Sample.engine nw).
Proof. exists "k0", "k0", "k0". repeat split; done. Defined.

(** C3 on the sample: the PREPARE of node [2] is the third vote of
    sequence [1]; with four nodes the quorum is [3], so node [1] emits its
    COMMIT and counts itself. *)
Lemma prepare_reaches_quorum_witness :
  let c := Sample.engine (Some []) in
  let c' := pbft_receive_message Sample.sha256 Sample.dumps_block
              Sample.PublicKey Sample.load_public_key Sample.verify_signature
              Sample.sign_message Sample.serialize Sample.prepare_msg 9 c in
  let commit := mkPbftMsg "COMMIT" 0 1 1 (Some Sample.block1) (Some "k1") in
  msg_type Sample.prepare_msg = PREPARE
  ∧ not_duplicate Sample.prepare_msg c
  ∧ msg_block Sample.prepare_msg = Some Sample.block1
  ∧ index Sample.block1 <= current_height (node c) + 1
  ∧ votes_of 1 (prepared c') = {[ 2 ]} ∪ votes_of 1 (prepared c)
  ∧ message_log c' = [commit]
  ∧ network (node c') = Some [env_pbft_message commit]
  ∧ votes_of 1 (committed c') = {[ 1 ]} ∪ votes_of 1 (committed c).
Proof.
  intros c c' commit.
  assert (Hidx : index Sample.block1 <= current_height (node c) + 1)
    by (vm_compute; discriminate).
  split; [reflexivity|]. split; [reflexivity|]. split; [reflexivity|].
  split; [exact Hidx|].
  destruct (prepare_reaches_quorum Sample.sha256 Sample.dumps_block
              Sample.PublicKey Sample.load_public_key Sample.verify_signature
              Sample.sign_message Sample.serialize Sample.prepare_msg
              Sample.block1 9 c eq_refl (sample_prepare_valid (Some []))
              eq_refl eq_refl Hidx)
    as (Hvotes & Hq & _).
  split; [exact Hvotes|].
  apply Hq. vm_compute. discriminate.
Defined.

(** C4 as stated fails on a node without a network: the PRE_PREPARE for
    [block3] reaches node [1] at height [0], and no sync request goes
    anywhere. *)
Lemma pre_prepare_gap_counterexample :
  let c := Sample.engine None in
  let c' := pbft_receive_message Sample.sha256 Sample.dumps_block
              Sample.PublicKey Sample.load_public_key Sample.verify_signature
              Sample.sign_message Sample.serialize Sample.pre_prepare_msg 9 c in
  msg_type Sample.pre_prepare_msg = PRE_PREPARE
  ∧ not_duplicate Sample.pre_prepare_msg c
  ∧ msg_block Sample.pre_prepare_msg = Some Sample.block3
  ∧ current_height (node c) = 0
  ∧ index Sample.block3 > current_height (node c) + 1
  ∧ network (node c') = None
  ∧ ¬ broadcasts_sync_request 1 3 c c'.
Proof.
  intros c c'. split; [reflexivity|]. split; [reflexivity|].
  split; [reflexivity|]. split; [reflexivity|]. split; [reflexivity|].
  split; [vm_compute; reflexivity|].
  intros (out & Hout & _). vm_compute in Hout. discriminate.
Defined.

(** C4 as amended, on the same node with a network: the request for the
    blocks [1..3] is the one envelope sent. *)
Lemma pre_prepare_gap_triggers_sync_witness :
  let c := Sample.engine (Some []) in
  let c' := pbft_receive_message Sample.sha256 Sample.dumps_block
              Sample.PublicKey Sample.load_public_key Sample.verify_signature
              Sample.sign_message Sample.serialize Sample.pre_prepare_msg 9 c in
  msg_type Sample.pre_prepare_msg = PRE_PREPARE
  ∧ not_duplicate Sample.pre_prepare_msg c
  ∧ msg_block Sample.pre_prepare_msg = Some Sample.block3
  ∧ index Sample.block3 > current_height (node c) + 1
  ∧ broadcasts_sync_request 1 3 c c'
  ∧ message_log c' = message_log c
  ∧ prepared c' = prepared c.
Proof.
  intros c c'.
  assert (Hidx : index Sample.block3 > current_height (node c) + 1)
    by reflexivity.
  split; [reflexivity|]. split; [reflexivity|]. split; [reflexivity|].
  split; [exact Hidx|].
  destruct (pre_prepare_gap_triggers_sync Sample.sha256 Sample.dumps_block
              Sample.PublicKey Sample.load_public_key Sample.verify_signature
              Sample.sign_message Sample.serialize Sample.pre_prepare_msg
              Sample.block3 9 c eq_refl (sample_pre_prepare_valid (Some []))
              eq_refl eq_refl Hidx)
    as (Hsync & _ & Hlog & Hprep & _).
  split; [exact (Hsync [] eq_refl)|]. split; [exact Hlog | exact Hprep].
Defined.

(** C5 on the sample: validator [1], whose key node [0] holds, sends
    [block1], which links to the tip. The handler raises, and the chain is
    still the genesis block alone. *)
Lemma poa_receive_message_raises_witness :
  let out := poa_receive_message Sample.sha256 Sample.dumps_block
               Sample.PublicKey Sample.load_public_key Sample.verify_signature
               Sample.str_block Sample.block_msg 9 Sample.poa in
  well_formed Sample.block_msg Sample.block1 "k1" 1
  ∧ 1 ∈ validators Sample.poa
  ∧ public_keys (poa_node Sample.poa) !! 1 = Some "k1"
  ∧ Some (previous_hash Sample.block1) = last_hash (poa_node Sample.poa)
  ∧ out.1 = Raise AttributeError
  ∧ chain (blockchain (poa_node out.2)) = [Sample.genesis]
  ∧ poa_received_blocks out.2 = ∅.
Proof.
  intros out.
  assert (Hwf : well_formed Sample.block_msg Sample.block1 "k1" 1)
    by (repeat split; done).
  assert (Hval : 1 ∈ validators Sample.poa) by (apply (bool_decide_unpack _); vm_compute; exact I).
  split; [exact Hwf|]. split; [exact Hval|]. split; [reflexivity|].
  split; [reflexivity|].
  destruct (poa_receive_message_raises Sample.sha256 Sample.dumps_block
              Sample.PublicKey Sample.load_public_key Sample.verify_signature
              Sample.str_block Sample.block_msg Sample.block1 "k1" "k1" 1 9
              Sample.poa Hwf Hval eq_refl ltac:(done))
    as (Hraise & _ & Hnode & Hrecv).
  split; [exact Hraise|]. fold out in Hnode, Hrecv.
  rewrite Hnode, Hrecv. split; reflexivity.
Defined.

(** C9 as stated fails: with [r = 5] the walk stops at validator [0],
    the node itself, whose mempool is empty; [propose_block] returns
    [None], nothing is handed to the network and no block is proposed. *)
Lemma pos_propose_counterexample :
  let c := Sample.pos [] (Some []) in
  let out := pos_propose_block Sample.sha256 Sample.dumps_tx
               Sample.dumps_block Sample.sign_message Sample.str_block
               5%Q (λ _, 9) c in
  (select_validator 5%Q c).1 = Some (node_id (pos_node c))
  ∧ out.1 = Ok None
  ∧ pos_node out.2 = pos_node c
  ∧ network (pos_node out.2) = Some []
  ∧ ¬ ∃ block, proposes Sample.sha256 Sample.dumps_tx Sample.dumps_block
                 Sample.sign_message Sample.str_block block 5%Q (λ _, 9) c.
Proof.
  intros c out. split; [reflexivity|]. split; [reflexivity|].
  split; [reflexivity|]. split; [reflexivity|].
  intros (block & Hnot & _). apply Hnot. reflexivity.
Defined.

(** C9 as amended, on the same node with a transaction waiting: it is
    the pick, and it proposes a block built on the genesis block, which is
    the one envelope sent. *)
Lemma pos_leader_selection_witness :
  let c := Sample.pos [Sample.tx] (Some []) in
  let out := pos_propose_block Sample.sha256 Sample.dumps_tx
               Sample.dumps_block Sample.sign_message Sample.str_block
               5%Q (λ _, 9) c in
  (select_validator 5%Q c).1 = Some (node_id (pos_node c))
  ∧ mempool (pos_node c) ≠ []
  ∧ first_reaching (balances c) 5%Q (validator_set c) (Some 0)
  ∧ ∃ block, out.1 = Ok (Some block)
      ∧ Some (previous_hash block) = last_hash (pos_node c)
      ∧ network (pos_node out.2)
        = Some [env_pos_message
                  (pos_message_for Sample.sign_message Sample.str_block
                     block c)].
Proof.
  intros c out.
  assert (Hpick : (select_validator 5%Q c).1 = Some (node_id (pos_node c)))
    by reflexivity.
  assert (Hmem : mempool (pos_node c) ≠ []) by discriminate.
  destruct (pos_leader_selection Sample.sha256 Sample.dumps_tx
              Sample.dumps_block Sample.sign_message Sample.str_block
              5%Q (λ _, 9) c (pos_node c) [] ∅ None)
    as (_ & Hfirst & _ & _ & Hprop).
  split; [exact Hpick|]. split; [exact Hmem|]. split; [exact Hfirst|].
  destruct (Hprop (conj Hpick Hmem) Sample.genesis eq_refl)
    as (block & _ & Hret & Hprev & _ & Hnet).
  exists block. split; [exact (Hret eq_refl)|]. split; [exact Hprev|].
  exact Hnet.
Defined.

(** ** The further properties on the sample instance *)

(** X3 on the sample: a block that extends the genesis block and holds a
    [Transaction] object is appended, and answered with [False]. *)
Lemma receive_block_outcome_witness :
  let n := Sample.node 0 "k0" [] None None in
  let out := receive_block Sample.sha256 Sample.dumps_block
               Sample.block1_objects 3 n in
  ¬ prunable Sample.block1_objects n
  ∧ out.1 = Some false
  ∧ chain (blockchain out.2) = [Sample.genesis; Sample.block1_objects].
Proof.
  intros n out.
  assert (Hnp : ¬ prunable Sample.block1_objects n).
  { intros [Hr _]. apply Forall_cons in Hr as [[h Hh] _]. discriminate. }
  destruct (receive_block_outcome Sample.sha256 Sample.dumps_block
              Sample.block1_objects 3 n) as (_ & _ & _ & _ & Hfalse).
  destruct (proj2 Hfalse) as [Hf Hc].
  { split; [apply not_elem_of_empty|]. split; [|exact Hnp].
    exists Sample.genesis. repeat split; reflexivity. }
  split; [exact Hnp|]. split; [exact Hf | exact Hc].
Defined.

(** X8 on the sample: with a mempool entry that has no [tx_hash], the
    block the node creates is appended by [receive_block], and answered
    with [False]. *)
Lemma created_block_is_admitted_witness :
  let n := Sample.node 0 "k0" [Sample.tx_unhashed] None None in
  let out := create_block Sample.sha256 Sample.dumps_tx Sample.dumps_block
               0 false (λ _, 9) n in
  ∃ blk,
    out.1 = Ok (Some blk)
    ∧ (receive_block Sample.sha256 Sample.dumps_block blk 10 out.2).1
      = Some false
    ∧ chain (blockchain
               (receive_block Sample.sha256 Sample.dumps_block blk 10 out.2).2)
      = [Sample.genesis; blk].
Proof.
  intros n out.
  destruct (created_block_is_admitted Sample.sha256 Sample.dumps_tx
              Sample.dumps_block 0 false (λ _, 9) n) as (_ & _ & _ & Hblk).
  destruct (Hblk ltac:(discriminate) Sample.genesis eq_refl)
    as (blk & Hr & _ & _ & _ & Hrecv).
  destruct (Hrecv ltac:(apply not_elem_of_empty) 10) as (Hc & _ & Hf & _).
  exists blk. split; [exact Hr|].
  destruct Hf as [Hf _].
  { intros Hall. apply Forall_cons in Hall as [[h Hh] _]. discriminate. }
  split; [exact Hf | exact Hc].
Defined.

(** X6 on the sample: a transaction delivered twice sits in the mempool
    once. *)
Lemma mempool_no_duplicates_witness :
  let n := Sample.node 0 "k0" [] None None in
  let ops := [op_receive_transaction Sample.tx;
              op_receive_transaction Sample.tx] in
  mempool_ok n
  ∧ mempool_ok (run_ops Sample.sha256 Sample.dumps_tx Sample.dumps_block ops n).
Proof.
  intros n ops.
  assert (H0 : mempool_ok n).
  { split; [apply NoDup_nil_2|]. intros tx Htx. by apply elem_of_nil in Htx. }
  split; [exact H0|].
  exact (mempool_no_duplicates Sample.sha256 Sample.dumps_tx
           Sample.dumps_block ops n H0).
Defined.

(** X9 on the sample: a response with the blocks of heights [3] and [2]
    reaches a node at height [0]. *)
Lemma sync_response_skips_witness :
  let n := Sample.node 0 "k0" [] None None in
  let bs := [Sample.block3; Sample.block2] in
  sync_blocks Sample.sha256 Sample.dumps_block bs (λ _, 9) n = n
  ∧ blockchain (handle_sync_response Sample.sha256 Sample.dumps_block bs
                  (λ _, 9) n) = Sample.ledger.
Proof.
  intros n bs.
  assert (H0 : ∀ b, b ∈ bs → index b ≠ current_height n + 1).
  { intros b Hb. apply elem_of_cons in Hb as [-> | Hb]; [by vm_compute|].
    apply elem_of_cons in Hb as [-> | Hb]; [by vm_compute|].
    by apply elem_of_nil in Hb. }
  destruct (sync_response_skips Sample.sha256 Sample.dumps_block bs (λ _, 9)
              n H0) as (Hs & _ & Hb).
  split; [exact Hs | exact Hb].
Defined.

(** X10 on the sample: asked for the blocks [1..5], a server that holds
    three blocks sends the two it has from height [1]. *)
Lemma sync_request_serves_slice_witness :
  let out := handle_sync_request (Some 1) (Some 5) 7 Sample.server in
  out.1 = Ok ()
  ∧ network out.2
    = Some [env_sync_response 7 [Sample.block1; Sample.block2]].
Proof.
  intros out.
  destruct (sync_request_serves_slice 1 5 7 Sample.server ltac:(lia))
    as (Hr & Hn & _).
  split; [exact Hr | exact Hn].
Defined.

(** X12 on the sample: a node at genesis catches up with the server's
    three blocks. *)
Lemma sync_catches_up_witness :
  let requester := Sample.node 0 "k0" [] None None in
  chain (blockchain
           (handle_sync_response Sample.sha256 Sample.dumps_block
              [Sample.block1; Sample.block2] (λ _, 9) requester))
  = [Sample.genesis; Sample.block1; Sample.block2].
Proof.
  intros requester.
  assert (Hint : chain_integrity Sample.sha256 Sample.dumps_block
                   (blockchain Sample.server)).
  { apply is_chain_valid_spec. reflexivity. }
  assert (Hpos : indexed_by_position (blockchain Sample.server)).
  { intros [|[|[|i]]] b Hb; cbn in Hb; try discriminate;
      injection Hb as <-; reflexivity. }
  assert (Hnd : NoDup (hash <$> chain (blockchain Sample.server))).
  { apply (bool_decide_unpack _). vm_compute. exact I. }
  assert (Hnew : ∀ b, b ∈ drop 1 (chain (blockchain Sample.server)) →
                      hash b ∉ seen_block_hashes requester).
  { intros b _. apply not_elem_of_empty. }
  exact (proj1 (sync_catches_up Sample.sha256 Sample.dumps_block
                  Sample.server requester 1 2 (λ _, 9) Hint Hpos Hnd
                  ltac:(lia) eq_refl Hnew)).
Defined.

(** X13 on the sample: node [9] has no key at node [1]; its message only
    marks it. The PREPARE of node [2] without its signature changes
    nothing. *)
Lemma pbft_rejects_unauthenticated_witness :
  let c := Sample.engine None in
  let c' := pbft_receive_message Sample.sha256 Sample.dumps_block
              Sample.PublicKey Sample.load_public_key Sample.verify_signature
              Sample.sign_message Sample.serialize Sample.stranger_msg 9 c in
  public_keys (node c) !! 9 = None
  ∧ prepared c' = prepared c
  ∧ message_log c' = []
  ∧ malicious_nodes c' = {[ 9 ]} ∪ malicious_nodes c
  ∧ pbft_receive_message Sample.sha256 Sample.dumps_block
      Sample.PublicKey Sample.load_public_key Sample.verify_signature
      Sample.sign_message Sample.serialize Sample.unsigned_msg 9 c = c.
Proof.
  intros c c'.
  assert (H0 : public_keys (node c) !! 9 = None) by reflexivity.
  assert (H1 : unsigned Sample.PublicKey Sample.load_public_key
                 Sample.unsigned_msg c).
  { split; [reflexivity|]. exists "k2", "k2". repeat split; done. }
  destruct (pbft_rejects_unauthenticated Sample.sha256 Sample.dumps_block
              Sample.PublicKey Sample.load_public_key Sample.verify_signature
              Sample.sign_message Sample.serialize Sample.stranger_msg 9 c)
    as [Hrej _].
  destruct (Hrej (or_introl H0)) as (_ & Hp & _ & _ & Hl & _ & Hm).
  destruct (pbft_rejects_unauthenticated Sample.sha256 Sample.dumps_block
              Sample.PublicKey Sample.load_public_key Sample.verify_signature
              Sample.sign_message Sample.serialize Sample.unsigned_msg 9 c)
    as [_ Hdrop].
  split; [exact H0|]. split; [exact Hp|]. split; [exact Hl|].
  split; [exact Hm|]. exact (proj1 (Hdrop H1)).
Defined.



Lemma sample_commit_valid :
  valid_signature Sample.PublicKey Sample.load_public_key
    Sample.verify_signature Sample.serialize Sample.commit_msg
    Sample.commit_engine.
Proof. exists "k2", "k2", "k2". repeat split; done. Defined.

(** X17 on the sample: the COMMIT of node [2] is the third of four; node
    [1] appends [block1] to the genesis block and replies. *)
Lemma commit_quorum_admits_witness :
  let c := Sample.commit_engine in
  let c' := pbft_receive_message Sample.sha256 Sample.dumps_block
              Sample.PublicKey Sample.load_public_key Sample.verify_signature
              Sample.sign_message Sample.serialize Sample.commit_msg 9 c in
  quorum c = 3
  ∧ chain (blockchain (node c')) = [Sample.genesis; Sample.block1]
  ∧ last (message_log c')
    = Some (mkPbftMsg "REPLY" 0 1 1 (Some Sample.block1) (Some "k1"))
  ∧ prunable Sample.block1 (node c)
  ∧ sequence_number c' = 1.
Proof.
  intros c c'.
  assert (HQ : Z.of_nat (size ({[ msg_node_id Sample.commit_msg ]}
                                 ∪ votes_of (msg_seq Sample.commit_msg)
                                     (committed c))) >= quorum c).
  { vm_compute. discriminate. }
  assert (Hnew : hash Sample.block1 ∉ seen_block_hashes (node c)).
  { apply not_elem_of_empty. }
  destruct (commit_quorum_admits Sample.sha256 Sample.dumps_block
              Sample.PublicKey Sample.load_public_key Sample.verify_signature
              Sample.sign_message Sample.serialize Sample.commit_msg
              Sample.block1 Sample.genesis 9 c sample_commit_valid eq_refl
              eq_refl eq_refl eq_refl eq_refl eq_refl eq_refl Hnew HQ)
    as (Hch & Hlast & _ & Hsn & _).
  assert (Hpr : prunable Sample.block1 (node c)).
  { split; apply Forall_nil_2. }
  split; [reflexivity|]. split; [exact Hch|]. split; [exact Hlast|].
  split; [exact Hpr | exact (Hsn Hpr)].
Defined.

(** X19 on the sample: four nodes, quorum three. *)
Lemma quorum_bounds_witness :
  let c := Sample.engine None in
  total_nodes c = 4
  ∧ 1 <= quorum c <= total_nodes c
  ∧ (total_nodes c ≠ 2 → total_nodes c < 2 * quorum c)
  ∧ (quorum c <= total_nodes c - total_nodes c `div` 3
     ↔ total_nodes c `mod` 3 ≠ 0).
Proof.
  intros c. split; [reflexivity|].
  apply (quorum_bounds c). vm_compute. discriminate.
Defined.

(** X20 on the sample: after four rotations over three validators the
    leader is the second one. *)
Lemma poa_round_robin_witness :
  ∃ leader,
    [0; 1; 2] !! (4 `mod` length [0; 1; 2])%nat = Some leader
    ∧ current_leader
        (rotations 4 (PoA_init (Sample.node 0 "k0" [] None None) [0; 1; 2]
                        None))
      = Ok leader.
Proof.
  apply (poa_round_robin 4 (Sample.node 0 "k0" [] None None) [0; 1; 2] None).
  discriminate.
Defined.

(** X21 on the sample: node [0] leads, its last block is old enough and a
    transaction is waiting; one PoA message goes out and node [1] leads
    next. *)
Lemma poa_propose_block_spec_witness :
  let c := Sample.poa_leader in
  let out := poa_propose_block Sample.sha256 Sample.dumps_tx
               Sample.dumps_block Sample.sign_message Sample.str_block
               9 (λ _, 9) 10 c in
  current_leader c = Ok 0
  ∧ ∃ block,
      out.1 = Ok (Some block)
      ∧ previous_hash block = hash Sample.genesis
      ∧ last_block_time out.2 = 10
      ∧ current_leader_index out.2 = 1
      ∧ chain (blockchain (poa_node out.2)) = [Sample.genesis].
Proof.
  intros c out.
  assert (Hl : current_leader c = Ok 0) by reflexivity.
  split; [exact Hl|].
  destruct (poa_propose_block_spec Sample.sha256 Sample.dumps_tx
              Sample.dumps_block Sample.sign_message Sample.str_block
              9 (λ _, 9) 10 c 0 Hl) as (_ & _ & Hprop).
  destruct (Hprop eq_refl ltac:(vm_compute; discriminate)
              ltac:(discriminate) Sample.genesis eq_refl)
    as (block & Hr & Hp & _ & _ & Ht & Hi & Hc).
  exists block. split; [exact Hr|]. split; [exact Hp|]. split; [exact Ht|].
  split; [exact Hi | exact Hc].
Defined.

(** X23 on the sample: two validators with a stake of [10] each; the draw
    [15] picks the second. *)
Lemma pos_pick_exists_witness :
  let stakes : gmap Z Z := {[ 0 := 10; 1 := 10 ]} in
  let c := PoS_init (Sample.node 0 "k0" [] None None) [0; 1] stakes None in
  is_draw 15%Q c
  ∧ ∃ id, (select_validator 15%Q c).1 = Some id ∧ id ∈ [0; 1]
          ∧ current_validator (select_validator 15%Q c).2 = Some id.
Proof.
  intros stakes c.
  assert (Hdraw : is_draw 15%Q c).
  { left. split; vm_compute; discriminate. }
  split; [exact Hdraw|].
  apply (pos_pick_exists 15%Q (Sample.node 0 "k0" [] None None) [0; 1]
           stakes None).
  - apply (bool_decide_unpack _). vm_compute. exact I.
  - discriminate.
  - intros id [x Hx]. subst stakes.
    destruct (decide (id = 0)) as [->|H0]; [apply elem_of_cons; by left|].
    destruct (decide (id = 1)) as [->|H1];
      [apply elem_of_cons; right; apply elem_of_cons; by left|].
    rewrite lookup_insert_ne in Hx by done.
    rewrite lookup_singleton_ne in Hx by done. discriminate.
  - vm_compute. discriminate.
  - exact Hdraw.
Defined.

(** With a negative total the draw can lie above every running sum:
    one validator with a stake of [-5], the draw [-5/2], and nobody is
    picked. *)
Example pos_negative_total_no_pick :
  let stakes : gmap Z Z := {[ 0 := -5 ]} in
  let c := PoS_init (Sample.node 0 "k0" [] None None) [0] stakes None in
  is_draw (-5 # 2)%Q c ∧ (select_validator (-5 # 2)%Q c).1 = None.
Proof.
  intros stakes c. split; [|reflexivity].
  right. split; vm_compute; discriminate.
Qed.

(** X24 on the sample: one delivery to an empty queue. *)
Lemma replay_queue_window_witness :
  replay_queue (mal_receive_all [(Sample.tx, true, 0%nat)] Sample.malicious)
  = [Sample.tx].
Proof.
  exact (proj1 (replay_queue_window [(Sample.tx, true, 0%nat)]
                  Sample.malicious ltac:(vm_compute; lia))).
Defined.

(** X26 on the sample: the twin of [block1] on the genesis ledger. *)
Lemma conflicting_block_refused_witness :
  let twin := _generate_conflicting_block Sample.sha256 Sample.dumps_block
                Sample.block1 in
  previous_hash twin = "conflict_0/0/0"
  ∧ add_block Sample.sha256 Sample.dumps_block Sample.block1 Sample.ledger
    = (Ok true, mkBlockchain [Sample.genesis; Sample.block1] [])
  ∧ add_block Sample.sha256 Sample.dumps_block twin Sample.ledger
    = (Ok false, Sample.ledger).
Proof.
  intros twin.
  destruct (conflicting_block_refused Sample.sha256 Sample.dumps_block
              Sample.block1 Sample.genesis Sample.ledger eq_refl eq_refl)
    as (_ & _ & _ & Hadd & _).
  split; [reflexivity|]. split; [reflexivity|]. exact Hadd.
Defined.

(** X27 on the sample: the misbehaving node mines the reward alone, though
    a transaction waits in its mempool, and sends the block and its
    twin. *)
Lemma mal_create_block_conflicting_witness :
  let out := mal_create_block Sample.sha256 Sample.dumps_tx
               Sample.dumps_block 0 (λ _, 9) Sample.malicious in
  mempool (base Sample.malicious) = [Sample.tx]
  ∧ ∃ original,
      out.1 = Ok (Some (block_as_dict original))
      ∧ transactions original
        = [tx_object (reward_of Sample.sha256 Sample.dumps_tx 3 9)]
      ∧ chain (blockchain (base out.2)) = [Sample.genesis; original]
      ∧ mempool (base out.2) = []
      ∧ network (base out.2)
        = Some [env_block original;
                env_block (_generate_conflicting_block Sample.sha256
                             Sample.dumps_block original)].
Proof.
  intros out. split; [reflexivity|].
  destruct (mal_create_block_conflicting Sample.sha256 Sample.dumps_tx
              Sample.dumps_block 0 (λ _, 9) Sample.malicious Sample.genesis
              eq_refl eq_refl eq_refl)
    as (original & Hr & _ & _ & Htx & Hbc & Hm & Hn).
  exists original. split; [exact Hr|]. split; [exact Htx|].
  split; [exact (f_equal chain Hbc)|]. split; [exact Hm | exact Hn].
Defined.

(** X28 on the sample: a withheld block is sent once. *)
Lemma withheld_block_released_once_witness :
  let n := Sample.node 0 "k0" [Sample.tx] (Some []) None in
  let n1 := (create_block Sample.sha256 Sample.dumps_tx Sample.dumps_block
               0 true (λ _, 9) n).2 in
  ∃ blk,
    withheld_block n1 = Some blk
    ∧ network n1 = Some []
    ∧ network (release_withheld_block n1) = Some [env_block blk]
    ∧ network (release_withheld_block (release_withheld_block n1))
      = Some [env_block blk].
Proof.
  intros n n1.
  destruct (withheld_block_released_once Sample.sha256 Sample.dumps_tx
              Sample.dumps_block 0 (λ _, 9) n Sample.genesis
              ltac:(discriminate) eq_refl)
    as (blk & _ & Hw & Hn & _ & Hr & _ & Hrr).
  exists blk. split; [exact Hw|]. split; [exact Hn|]. split; [exact Hr|].
  fold n1 in Hrr. rewrite Hrr. exact Hr.
Defined.

(** X30 on the sample: id [1] is registered with the key [k1]; a second
    registration of [1] and the coming and going of id [2] leave the key
    in place. *)
Lemma identity_first_registration_wins_witness :
  let im1 := (register_node 1 "k1" None 0 IdentityManagement_init).2 in
  let ops := [op_register 1 "other" None 3; op_register 2 "k2" None 4;
              op_unregister 2] in
  let im := run_identity_ops ops im1 in
  get_public_key 1 im = Some "k1"
  ∧ register_node 1 "other" None 5 im = (false, im).
Proof.
  intros im1 ops im.
  assert (Hkeep : keeps_registered 1 ops).
  { intros o Ho. apply elem_of_cons in Ho as [-> | Ho]; [discriminate|].
    apply elem_of_cons in Ho as [-> | Ho]; [discriminate|].
    apply elem_of_cons in Ho as [-> | Ho]; [discriminate|].
    by apply elem_of_nil in Ho. }
  exact (identity_first_registration_wins [] ops 1 "k1" "other" None None
           0 5 eq_refl Hkeep).
Defined.
